(** * IceBridge acquisition and scheduling tools: a shallow embedding

    The development follows three Python modules of the repository:

    - [fetch_icebridge_data.py]  (index resolution, fetch / validate / retry),
    - [icebridge_common.py]      (file helpers, batched transport),
    - [process_icebridge_run.py] (image spacing analysis, batch scheduling).

    Python values are modelled as follows.  Integers are [Z] (or [nat] for
    counters and list positions), strings are [string], dictionaries keyed
    by frame number are [gmap Z string], lists are lists.  Floating point
    numbers are the double precision numbers of IEEE 754 ([spec_float]
    at 53 bits) where a result depends on rounding, and exact rationals
    [Q] where it depends on the signs of areas only.  A call that may raise returns in the
    type [py], whose [Raise] constructor carries the exception. *)

From Stdlib Require Import ZArith QArith Bool Ascii String Lia Lqa.
From Stdlib Require Import DecimalString DecimalPos DecimalZ.
From Stdlib Require Import SpecFloat.
From stdpp Require Import base option list gmap strings sorting.

Local Open Scope string_scope.
Local Open Scope list_scope.
Local Open Scope Z_scope.

(** ** Exceptions *)

Inductive exn : Type :=
| ZeroDivisionError
| IndexError
| KeyError
| ValueError
| IOError
| OSError
| Exception (msg : string).

Inductive py (A : Type) : Type :=
| Ret (a : A)
| Raise (e : exn).
Arguments Ret {A} a.
Arguments Raise {A} e.

Global Instance py_ret : MRet py := fun A a => Ret a.
Global Instance py_bind : MBind py := fun A B k m =>
  match m with
  | Ret a => k a
  | Raise e => Raise e
  end.

Definition raises {A : Type} (m : py A) : Prop :=
  match m with
  | Ret _ => False
  | Raise _ => True
  end.

(** [l[i]] for an index that is not negative. *)
Definition list_get {A : Type} (l : list A) (i : nat) : py A :=
  match l !! i with
  | Some x => Ret x
  | None => Raise IndexError
  end.

(** [for x in xs: s = body x s], stopping at the first exception. *)
Fixpoint py_for {A S : Type} (xs : list A) (body : A -> S -> py S) (s : S)
  : py S :=
  match xs with
  | [] => Ret s
  | x :: xs' => s' ← body x s; py_for xs' body s'
  end.

(** ** Python strings and paths

    The library calls the three modules make on strings, written out on
    [string]: slices, [strip], [split(',')], [lower], [str] and [int] on
    integers, iteration over the lines of a text file, [os.path.splitext]
    and [os.path.join]. *)

Fixpoint str_take (n : nat) (s : string) : string :=
  match n, s with
  | S n', String c s' => String c (str_take n' s')
  | _, _ => ""
  end.

Fixpoint str_drop (n : nat) (s : string) : string :=
  match n, s with
  | S n', String _ s' => str_drop n' s'
  | _, _ => s
  end.

(** A slice bound as Python resolves it against a length: a negative index
    counts from the end, and the result is clamped to [0 .. len]. *)
Definition clamp_index (len i : Z) : Z :=
  if i <? 0 then Z.max (len + i) 0 else Z.min i len.

(** [s[lo:hi]], either bound possibly omitted. *)
Definition str_slice (lo hi : option Z) (s : string) : string :=
  let len := Z.of_nat (String.length s) in
  let a := from_option (clamp_index len) 0 lo in
  let b := from_option (clamp_index len) len hi in
  str_take (Z.to_nat (b - a)) (str_drop (Z.to_nat a) s).

(** [l[lo:]] on a list. *)
Definition list_slice_from {A : Type} (lo : Z) (l : list A) : list A :=
  drop (Z.to_nat (clamp_index (Z.of_nat (length l)) lo)) l.

(** The characters [str.strip()] removes. *)
Definition is_space (c : ascii) : bool :=
  match c with
  | " " | "009" | "010" | "011" | "012" | "013" => true
  | _ => false
  end%char.

Fixpoint lstrip (s : string) : string :=
  match s with
  | String c s' => if is_space c then lstrip s' else s
  | "" => ""
  end.

Fixpoint rstrip (s : string) : string :=
  match s with
  | String c s' =>
      match rstrip s' with
      | "" => if is_space c then "" else String c ""
      | r => String c r
      end
  | "" => ""
  end.

Definition strip (s : string) : string := rstrip (lstrip s).

(** [s.split(sep)] for a one-character separator: never the empty list. *)
Fixpoint split_on (sep : ascii) (s : string) : list string :=
  match s with
  | "" => [""]
  | String c s' =>
      if Ascii.eqb c sep then "" :: split_on sep s'
      else
        match split_on sep s' with
        | p :: ps => String c p :: ps
        | [] => [String c ""]
        end
  end.

(** [for line in f]: the lines of a text, each with its line break. *)
Fixpoint file_lines (s : string) : list string :=
  match s with
  | "" => []
  | String c s' =>
      if Ascii.eqb c "010" then String c "" :: file_lines s'
      else
        match file_lines s' with
        | l :: ls => String c l :: ls
        | [] => [String c ""]
        end
  end.

Definition ascii_lower (c : ascii) : ascii :=
  let n := nat_of_ascii c in
  if (65 <=? n)%nat && (n <=? 90)%nat then ascii_of_nat (n + 32) else c.

Fixpoint lower (s : string) : string :=
  match s with
  | String c s' => String (ascii_lower c) (lower s')
  | "" => ""
  end.

(** [str(n)] and [int(s)] on integers. *)
Definition py_str (n : Z) : string := NilZero.string_of_int (Z.to_int n).

Definition py_int (s : string) : py Z :=
  let t := strip s in
  let parsed :=
    match t with
    | String "+" t' => option_map Decimal.Pos (NilZero.uint_of_string t')
    | _ => NilZero.int_of_string t
    end in
  match parsed with
  | Some d => Ret (Z.of_int d)
  | None => Raise ValueError
  end.

(** [s.rfind(c)]: the last position of [c], or [-1]. *)
Fixpoint rfind_from (c : ascii) (s : string) (pos found : Z) : Z :=
  match s with
  | "" => found
  | String a s' => rfind_from c s' (pos + 1) (if Ascii.eqb a c then pos else found)
  end.
Definition rfind (c : ascii) (s : string) : Z := rfind_from c s 0 (-1).

Fixpoint str_exists (f : ascii -> bool) (s : string) : bool :=
  match s with
  | "" => false
  | String c s' => f c || str_exists f s'
  end.

(** [c in s] *)
Definition str_has (c : ascii) (s : string) : bool :=
  str_exists (Ascii.eqb c) s.

(** A string the index file can carry as a field: no comma, no line
    break, no white space at either end. *)
Definition index_field_ok (s : string) : Prop :=
  lstrip s = s /\ rstrip s = s
  /\ str_has "," s = false /\ str_has "010" s = false.

(** The characters of a decimal numeral. *)
Definition is_digit (c : ascii) : bool :=
  match c with
  | "0" | "1" | "2" | "3" | "4" | "5" | "6" | "7" | "8" | "9" => true
  | _ => false
  end%char.

(** The last field of a written line once the line is stripped. *)
Definition padded (u : string) : string :=
  match u with
  | "" => ""
  | _ => String " " u
  end.

(** [os.path.splitext(p)]: the extension starts at the last dot of the
    last path component, provided a character other than a dot comes
    before it in that component. *)
Definition splitext (p : string) : string * string :=
  let sepIndex := rfind "/" p in
  let dotIndex := rfind "." p in
  if (sepIndex <? dotIndex)
     && str_exists (fun c => negb (Ascii.eqb c "."))
                   (str_slice (Some (sepIndex + 1)) (Some dotIndex) p)
  then (str_slice None (Some dotIndex) p, str_slice (Some dotIndex) None p)
  else (p, "").

(** [os.path.join(a, b)]. *)
Definition path_join (a b : string) : string :=
  match b with
  | String "/" _ => b
  | _ =>
      if String.eqb a "" || String.eqb (str_slice (Some (-1)) None a) "/"
      then a +:+ b
      else a +:+ "/" +:+ b
  end.

(** ** State and exceptions together

    Code that touches the file system or mutates [options] runs in
    [stpy S]: the state is threaded through, and it survives an exception
    (what was written before a [raise] stays written). *)

Definition stpy (S A : Type) : Type := S -> S * py A.

Global Instance stpy_ret {S : Type} : MRet (stpy S) :=
  fun A a s => (s, Ret a).
Global Instance stpy_bind {S : Type} : MBind (stpy S) :=
  fun A B k m s =>
    match m s with
    | (s', Ret a) => k a s'
    | (s', Raise e) => (s', Raise e)
    end.

Definition st_get {S : Type} : stpy S S := fun s => (s, Ret s).
Definition st_gets {S A : Type} (f : S -> A) : stpy S A :=
  fun s => (s, Ret (f s)).
Definition st_modify {S : Type} (f : S -> S) : stpy S unit :=
  fun s => (f s, Ret tt).
Definition st_lift {S A : Type} (m : py A) : stpy S A := fun s => (s, m).
Definition st_raise {S A : Type} (e : exn) : stpy S A :=
  fun s => (s, Raise e).

(** [try: m  except: handler], with a bare [except]. *)
Definition try_except {S A : Type} (m handler : stpy S A) : stpy S A :=
  fun s =>
    match m s with
    | (s', Raise _) => handler s'
    | r => r
    end.

(** [for x in xs: acc = body x acc] in [stpy]. *)
Fixpoint st_for {S A B : Type} (xs : list A) (body : A -> B -> stpy S B)
  (acc : B) : stpy S B :=
  match xs with
  | [] => mret acc
  | x :: xs' => acc' ← body x acc; st_for xs' body acc'
  end.

(** ** The file system: paths to file contents *)

Abbreviation FS := (gmap string string).

(** ** icebridge_common.py *)

Definition path_exists (path : string) (fs : FS) : bool :=
  bool_decide (is_Some (fs !! path)).

Definition fileNonEmpty (path : string) (fs : FS) : bool :=
  match fs !! path with
  | Some content => negb (String.eqb content "")
  | None => false
  end.

(** [os.remove(path)] *)
Definition os_remove (path : string) : stpy FS unit :=
  fun fs =>
    match fs !! path with
    | Some _ => (delete path fs, Ret tt)
    | None => (fs, Raise OSError)
    end.

(** [if os.path.exists(path): os.remove(path)] *)
Definition remove_if_exists (path : string) : stpy FS unit :=
  ex ← st_gets (path_exists path);
  if (ex : bool) then os_remove path else mret tt.

Definition fileExtension (filename : string) : string := (splitext filename).2.

Definition hasImageExtension (filename : string) : bool :=
  let extension := lower (fileExtension filename) in
  if String.eqb extension ".tif" || String.eqb extension ".jpg"
     || String.eqb extension ".jpeg" || String.eqb extension ".ntf"
  then true else false.

Definition xmlFile (filename : string) : string :=
  if (8 <=? String.length filename)%nat
     && String.eqb (str_slice (Some (-7)) (Some (-4)) filename) "DEM"
  then str_slice None (Some (-8)) filename +:+ ".xml"
  else filename +:+ ".xml".

Definition xmlToImage (filename : string) : py string :=
  if negb (String.eqb (fileExtension filename) ".xml")
  then Raise (Exception ("Not an XML file: " +:+ filename))
  else Ret (str_slice None (Some (-4)) filename).

Definition tfwFile (filename : string) : string :=
  str_slice None (Some (-4)) filename +:+ ".tfw".

Section Transport.

(** One transport invocation: the effect on the file system of running
    the download command for the given remote locations. *)
Variable curl : list string -> FS -> FS.

(** Body of [for fileIter in range(numFiles)].  The accumulator holds the
    locations added to [curlCmd] since it was last reset,
    [currentFileCount], and the commands completed so far: each is
    logged, and run by the transport unless [dryRun]. *)
Definition fetch_body (batchSize : Z) (dryRun : bool)
  (files urls : list string) (fileIter : nat)
  (acc : list string * Z * list (list string))
  : stpy FS (list string * Z * list (list string)) :=
  let '(curlCmd, currentFileCount, issued) := acc in
  let numFiles := length files in
  file ← st_lift (list_get files fileIter);
  present ← st_gets (fileNonEmpty file);
  '(curlCmd, currentFileCount) ←
    (if negb present then
       url ← st_lift (list_get urls fileIter);
       mret (curlCmd ++ [url], currentFileCount + 1)
     else mret (curlCmd, currentFileCount));
  if ((batchSize <=? currentFileCount)
      || (Z.of_nat fileIter =? Z.of_nat numFiles - 1))
     && (0 <? currentFileCount)
  then
    _ ← (if dryRun then mret tt else st_modify (curl curlCmd));
    mret ([], 0, issued ++ [curlCmd])
  else mret (curlCmd, currentFileCount, issued).

(** The result lists the commands completed (logged, and run unless
    [dryRun]), each by the remote locations it names. *)
Definition fetchFilesInBatches (batchSize : Z) (dryRun : bool)
  (files urls : list string) : stpy FS (list (list string)) :=
  let numFiles := length files in
  if negb (numFiles =? length urls)%nat
  then st_raise (Exception "Expecting as many files as urls.")
  else
    '(_, _, issued) ←
      st_for (seq 0 numFiles) (fetch_body batchSize dryRun files urls)
             ([], 0, []);
    mret issued.

(** *** What the loop has done when it reaches a file *)

(** The loop after its first [i] iterations. *)
Definition fetch_state_at (batchSize : Z) (dryRun : bool)
  (files urls : list string) (i : nat)
  : stpy FS (list string * Z * list (list string)) :=
  st_for (seq 0 i) (fetch_body batchSize dryRun files urls) ([], 0, []).

(** Whether file [i] is missing (absent or empty) at the moment the
    loop tests it. *)
Definition missing_when_checked (batchSize : Z) (dryRun : bool)
  (files urls : list string) (fs : FS) (i : nat) : bool :=
  match files !! i with
  | Some file =>
      negb (fileNonEmpty file
              (fetch_state_at batchSize dryRun files urls i fs).1)
  | None => false
  end.

(** The remote locations of the files found missing among the first
    [k], in order. *)
Definition pending_urls (batchSize : Z) (dryRun : bool)
  (files urls : list string) (fs : FS) (k : nat) : list string :=
  omap (fun i =>
          if missing_when_checked batchSize dryRun files urls fs i
          then urls !! i else None)
       (seq 0 k).

End Transport.

(** The sizes of the groups when [n] items are dealt out [b] at a time. *)
Definition chunk_sizes (b n : nat) : list nat :=
  replicate (n / b) b ++ (if (n mod b =? 0)%nat then [] else [(n mod b)%nat]).

(** ** fetch_icebridge_data.py: the index file *)

Definition LIDAR_TYPES : list string := ["lvis"; "atm1"; "atm2"].
Definition MAX_IN_ONE_CALL : Z := 100.

(** The fields of the parsed command line that the code reads or sets. *)
Record Options : Type := MkOptions {
  year : Z; month : Z; day : Z; ext : string; site : string;
  type : string;
  startFrame : Z; stopFrame : Z; maxNumToFetch : Z;
  allFrames : bool; fetchNextDay : bool; skipValidate : bool;
  dryRun : bool; refetchIndex : bool
}.

(** [options.refetchIndex = b] *)
Definition set_refetchIndex (b : bool) (o : Options) : Options :=
  MkOptions (year o) (month o) (day o) (ext o) (site o) (type o)
            (startFrame o) (stopFrame o) (maxNumToFetch o)
            (allFrames o) (fetchNextDay o) (skipValidate o) (dryRun o) b.

(** [sorted(d.keys())] *)
Definition sorted_keys (d : gmap Z string) : list Z :=
  merge_sort Z.le (map_to_list d).*1.

(** [d[k]] *)
Definition dict_get (d : gmap Z string) (k : Z) : py string :=
  match d !! k with
  | Some v => Ret v
  | None => Raise KeyError
  end.

(** The text of one iteration of [for line in f] in [readIndexFile]. *)
Definition read_index_line (line : string)
  (dicts : gmap Z string * gmap Z string)
  : py (gmap Z string * gmap Z string) :=
  let '(frameDict, urlDict) := dicts in
  let parts := split_on "," (strip line) in
  if (length parts <=? 2)%nat then Raise (Exception "Invalid index file.")
  else
    p0 ← list_get parts 0;
    frameNumber ← py_int p0;
    p1 ← list_get parts 1;
    p2 ← list_get parts 2;
    Ret (<[frameNumber := strip p1]> frameDict,
         <[frameNumber := strip p2]> urlDict).

Definition readIndexFile (parsedIndexPath : string) (fs : FS)
  : py (gmap Z string * gmap Z string) :=
  match fs !! parsedIndexPath with
  | None => Raise IOError
  | Some content => py_for (file_lines content) read_index_line (∅, ∅)
  end.

(** "Append to the main index": one day's listing merged into the
    dictionaries built so far. *)
Definition merge_day (localFrameDict localUrlDict : gmap Z string)
  (dicts : gmap Z string * gmap Z string)
  : py (gmap Z string * gmap Z string) :=
  py_for (sorted_keys localFrameDict)
    (fun frame '(frameDict, urlDict) =>
       if bool_decide (is_Some (frameDict !! frame))
       then Ret (frameDict, urlDict)
       else
         name ← dict_get localFrameDict frame;
         url ← dict_get localUrlDict frame;
         Ret (<[frame := name]> frameDict, <[frame := url]> urlDict))
    dicts.

(** [f.write(text)] on a file opened for writing. *)
Definition file_write (path text : string) : stpy FS unit :=
  st_modify (fun fs => <[path := default "" (fs !! path) +:+ text]> fs).

Definition index_line (frame : Z) (name url : string) : string :=
  py_str frame +:+ ", " +:+ name +:+ ", " +:+ url +:+ "
".

(** "Write the combined index file" *)
Definition write_index (parsedIndexPath : string)
  (frameDict urlDict : gmap Z string) : stpy FS unit :=
  _ ← st_modify (fun fs : FS => <[parsedIndexPath := ""]> fs);
  st_for (sorted_keys frameDict)
    (fun frame (_ : unit) =>
       name ← st_lift (dict_get frameDict frame);
       url ← st_lift (dict_get urlDict frame);
       file_write parsedIndexPath (index_line frame name url))
    tt.

(** The text [write_index] produces for the given keys. *)
Definition index_text (frameDict urlDict : gmap Z string) (keys : list Z)
  : string :=
  foldr (fun k rest =>
           index_line k (default "" (frameDict !! k))
                        (default "" (urlDict !! k)) +:+ rest)
        "" keys.

(** [d] as rebuilt by assigning [d[k]] for each of the keys in turn. *)
Definition assign_all (d : gmap Z string) (keys : list Z)
  (m : gmap Z string) : gmap Z string :=
  foldl (fun m k => <[k := default "" (d !! k)]> m) m keys.

(** A computation on the file system alone, run where [options] is part
    of the state. *)
Definition on_fs {A : Type} (m : stpy FS A) : stpy (Options * FS) A :=
  fun '(o, fs) => let '(fs', r) := m fs in ((o, fs'), r).

(** The characters that stand for themselves in a word of a shell
    command: letters, digits and [_ . / -]. *)
Definition shell_plain_char (c : ascii) : bool :=
  let n := nat_of_ascii c in
  is_digit c
  || ((65 <=? n)%nat && (n <=? 90)%nat)
  || ((97 <=? n)%nat && (n <=? 122)%nat)
  || Ascii.eqb c "_" || Ascii.eqb c "." || Ascii.eqb c "/"
  || Ascii.eqb c "-".

(** A path that the shell and the command it runs take as one operand,
    as it is written: not empty, no [-] in front, every character
    plain. *)
Definition shell_plain (path : string) : bool :=
  match path with
  | "" => false
  | String c _ =>
      negb (Ascii.eqb c "-")
      && negb (str_exists (fun c => negb (shell_plain_char c)) path)
  end.

(** The words of a command line that is not quoted: the shell splits it
    at blanks. *)
Definition shell_words (s : string) : list string :=
  filter (fun word => word <> "") (split_on " " s).

(** [os.system('rm -f ' + path)].  The path is not quoted, so the shell
    splits it at blanks and [rm] is given each word as an operand of its
    own; with [-f] it removes the operands that are files and passes over
    the others.  A path that is [shell_plain] is one word and is removed
    as a whole; a path with a blank in it is not.  Characters other than
    the plain ones and the blank mean something to the shell; what is
    proved about what is removed is about paths without them. *)
Definition rm_f (path : string) : stpy FS unit :=
  st_modify (fun fs : FS => foldr delete fs (shell_words path)).

Section IndexResolver.

(** What happens for one day inside the loop of [fetchAndParseIndexFile]
    before the merge: the folder location is resolved (for lidar by
    probing the candidate sources), its listing is downloaded and parsed
    into a frame map and a location map.  The arguments are [isSouth],
    [dayVal] and [indexPath]. *)
Variable listDay :
  bool -> Z -> string ->
  stpy (Options * FS) (gmap Z string * gmap Z string).

(** Body of [for dayVal in dayVals]; the accumulator is [indexPath] and
    the two dictionaries. *)
Definition day_body (isSouth : bool) (dayVals : list Z) (dayVal : Z)
  (acc : string * (gmap Z string * gmap Z string))
  : stpy (Options * FS) (string * (gmap Z string * gmap Z string)) :=
  let '(indexPath, dicts) := acc in
  indexPath ←
    (if (1 <? length dayVals)%nat then
       let indexPath := indexPath +:+ ".day" +:+ py_str dayVal in
       refetch ← st_gets (fun w : Options * FS => refetchIndex w.1);
       _ ← (if (refetch : bool) then on_fs (rm_f indexPath) else mret tt);
       mret indexPath
     else mret indexPath);
  '(localFrameDict, localUrlDict) ← listDay isSouth dayVal indexPath;
  dicts ← st_lift (merge_day localFrameDict localUrlDict dicts);
  mret (indexPath, dicts).

(** The part of [fetchAndParseIndexFile] after the test for an index
    that is already there: list every day, merge, write. *)
Definition build_index (isSouth : bool) (dayVals : list Z)
  (indexPath parsedIndexPath : string) : stpy (Options * FS) string :=
  '(_, (frameDict, urlDict)) ←
    st_for dayVals (day_body isSouth dayVals) (indexPath, (∅, ∅));
  _ ← on_fs (write_index parsedIndexPath frameDict urlDict);
  mret parsedIndexPath.

Definition fetchAndParseIndexFile (isSouth : bool) (outputFolder : string)
  : stpy (Options * FS) string :=
  next ← st_gets (fun w : Options * FS => fetchNextDay w.1);
  let dayVals := if (next : bool) then [0; 1] else [0] in
  _ ← (if next then st_modify (prod_map (set_refetchIndex true) id)
       else mret tt);
  ty ← st_gets (fun w : Options * FS => type w.1);
  let filename :=
    if bool_decide (ty ∈ LIDAR_TYPES) then "lidar" +:+ "_index.html"
    else ty +:+ "_index.html" in
  let indexPath := path_join outputFolder filename in
  let parsedIndexPath := indexPath +:+ ".csv" in
  refetch ← st_gets (fun w : Options * FS => refetchIndex w.1);
  _ ← (if (refetch : bool)
       then on_fs (_ ← rm_f indexPath; rm_f parsedIndexPath)
       else mret tt);
  have ← on_fs (st_gets (fileNonEmpty parsedIndexPath));
  if (have : bool) then mret parsedIndexPath
  else build_index isSouth dayVals indexPath parsedIndexPath.

(** The start of [doFetch], from the call of [fetchAndParseIndexFile] to
    the dictionaries read from the index file. *)
Definition doFetch_readIndex (outputFolder : string)
  : stpy (Options * FS) (gmap Z string * gmap Z string) :=
  st ← st_gets (fun w : Options * FS => site w.1);
  let isSouth := String.eqb st "AN" in
  parsedIndexPath ← fetchAndParseIndexFile isSouth outputFolder;
  try_except
    (on_fs (fs ← st_get; st_lift (readIndexFile parsedIndexPath fs)))
    (_ ← st_modify (prod_map (set_refetchIndex true) id);
     parsedIndexPath ← fetchAndParseIndexFile isSouth outputFolder;
     on_fs (fs ← st_get; st_lift (readIndexFile parsedIndexPath fs))).

End IndexResolver.

(** ** fetch_icebridge_data.py: validation of the fetched files *)

Definition Qltb (x y : Q) : bool := negb (Qle_bool y x).

(** The test on a latitude that is a number; [Binary64.hasGoodLat] below
    is the same test on a float, which need not be one. *)
Definition hasGoodLat (latitude : Q) (isSouth : bool) : bool :=
  if (isSouth && Qltb latitude 0) || (negb isSouth && Qltb 0 latitude)
  then true
  else false.

Section Validation.

(** The external readers: whether the raster metadata tool decodes a
    file of the given content, the latitude the sidecar text declares (if
    any), and the checksum and world-file checks. *)
Variable gdalinfo_ok : string -> bool.
Variable latitude_in_text : string -> option Q.
Variable hasValidChkSum : string -> FS -> bool.
Variable isValidTfw : string -> FS -> bool.

Definition isValidImage (filename : string) (fs : FS) : bool :=
  match fs !! filename with
  | None => false
  | Some content => gdalinfo_ok content
  end.

Definition parseLatitude (filename : string) (fs : FS) : py Q :=
  match fs !! filename with
  | None => Raise (Exception ("Could not find file: " +:+ filename))
  | Some content =>
      match latitude_in_text content with
      | Some latitude => Ret latitude
      | None =>
          Raise (Exception
            ("Could not parse positve or negative latitude from: "
             +:+ filename))
      end
  end.

(** "Sanity check: XML files must have the right latitude." *)
Definition check_latitude (isSouth : bool) (outputPath : string)
  : stpy FS unit :=
  if String.eqb (fileExtension outputPath) ".xml" then
    ex ← st_gets (path_exists outputPath);
    if (ex : bool) then
      fs ← st_get;
      latitude ← st_lift (parseLatitude outputPath fs);
      let isGood := hasGoodLat latitude isSouth in
      if negb isGood then
        _ ← os_remove outputPath;
        imageFile ← st_lift (xmlToImage outputPath);
        ex' ← st_gets (path_exists imageFile);
        if (ex' : bool) then os_remove imageFile else mret tt
      else mret tt
    else mret tt
  else mret tt.

(** The wipe shared by the checksum and the world-file checks. *)
Definition wipe_with_xml (outputPath : string) (failedFiles : list string)
  : stpy FS (list string) :=
  let xml := xmlFile outputPath in
  _ ← remove_if_exists outputPath;
  _ ← remove_if_exists xml;
  mret (failedFiles ++ [outputPath; xml]).

(** Body of [for outputPath in allFilesToFetch] in [doFetch]; a
    [continue] ends the body with the list of failures so far. *)
Definition validate_file (skip isSouth hasXml hasTfw : bool)
  (outputPath : string) (failedFiles : list string)
  : stpy FS (list string) :=
  if skip then mret failedFiles
  else
    present ← st_gets (fileNonEmpty outputPath);
    if negb present then mret (failedFiles ++ [outputPath])
    else
      badImage ←
        (if hasImageExtension outputPath then
           valid ← st_gets (isValidImage outputPath);
           mret (negb valid)
         else mret false);
      if (badImage : bool) then
        _ ← remove_if_exists outputPath;
        mret (failedFiles ++ [outputPath])
      else
        _ ← check_latitude isSouth outputPath;
        let tfw_check : stpy FS (list string) :=
          if hasTfw && String.eqb (fileExtension outputPath) ".tfw" then
            isGood ← st_gets (isValidTfw outputPath);
            if negb isGood then wipe_with_xml outputPath failedFiles
            else mret failedFiles
          else mret failedFiles in
        let tail := str_slice (Some (-4)) None outputPath in
        if hasXml && (4 <=? String.length outputPath)%nat
           && negb (String.eqb tail ".xml")
           && negb (String.eqb tail ".tfw")
        then
          isGood ← st_gets (hasValidChkSum outputPath);
          if negb isGood then wipe_with_xml outputPath failedFiles
          else tfw_check
        else tfw_check.

(** "Verify that all files were fetched and are in good shape" *)
Definition validate_all (skip isSouth hasXml hasTfw : bool)
  (allFilesToFetch : list string) : stpy FS Z :=
  failedFiles ←
    st_for allFilesToFetch (validate_file skip isSouth hasXml hasTfw) [];
  mret (Z.of_nat (length failedFiles)).

End Validation.

(** ** fetch_icebridge_data.py: the retry loop of [main] *)

Module Retry.
Section Retry.

(** The state of the outside world (options, file system, remote
    server) and one fetch-and-validate cycle on it: [doFetch] reports
    the number of failed files, or raises. *)
Variable World : Type.
Variable doFetch : stpy World Z.

(** [for attempt in range(n)] with the loop variable [numPrevFailed].
    Nothing in [main] catches what [doFetch] raises. *)
Fixpoint main_attempts (n : nat) (numPrevFailed : Z) : stpy World Z :=
  match n with
  | O => mret (-1)
  | S n' =>
      numFailed ← doFetch;
      if numFailed =? 0 then mret 0
      else if numFailed =? numPrevFailed then mret (-1)
      else main_attempts n' numFailed
  end.

(** The loop at the end of [main], once the command line is parsed. *)
Definition main : stpy World Z := main_attempts 10 (-1).

(** The first [k] cycles run back to back, with no loop logic: the
    counts they report. *)
Fixpoint run_cycles (k : nat) : stpy World (list Z) :=
  match k with
  | O => mret []
  | S k' =>
      numFailed ← doFetch;
      reports ← run_cycles k';
      mret (numFailed :: reports)
  end.

End Retry.
End Retry.

(** ** process_icebridge_run.py: [getImageSpacing]

    The projection bounds of an image are floating point numbers.  This
    first model takes them, and the areas and ratios computed from them,
    as exact rationals, and the thresholds 0.8 and 0.4 as 8/10 and 4/10.
    It serves for what depends on the signs of the areas only: the
    breaks, and the divisions by zero.  Rounding does not change the sign
    of a difference or of a product of these.  The interval the search
    settles on depends on rounding; for that the function is written on
    the floating point numbers themselves, in [Binary64] below. *)

(** A bounding box is the four-element list [(minX, maxX, minY, maxY)]
    that the code indexes with [0 .. 3]. *)
Record bbox : Type := BBox { minX : Q; maxX : Q; minY : Q; maxY : Q }.

Definition Qmax (x y : Q) : Q := if Qltb x y then y else x.
Definition Qmin (x y : Q) : Q := if Qltb y x then y else x.

(** [x / y] on numbers: division by zero raises. *)
Definition py_div (x y : Q) : py Q :=
  if Qeq_bool y 0 then Raise ZeroDivisionError else Ret (x / y)%Q.

Definition MAX_RATIO : Q := 8 # 10.
Definition MIN_RATIO : Q := 4 # 10.

Definition getBboxArea (b : bbox) : Q :=
  let width := (maxX b - minX b)%Q in
  let height := (maxY b - minY b)%Q in
  if Qltb width 0 || Qltb height 0 then 0%Q
  else (width * height)%Q.

Definition intersect (thisBox lastBox : bbox) : bbox :=
  BBox (Qmax (minX lastBox) (minX thisBox))
       (Qmin (maxX lastBox) (maxX thisBox))
       (Qmax (minY lastBox) (minY thisBox))
       (Qmin (maxY lastBox) (maxY thisBox)).

Definition too_few_images : exn :=
  Exception "Error: There are too few images and they overlap too much. Consider processing more images in the given batch.".

Section ImageSpacing.

(** The ortho files in sorted order, each with its projection bounds and
    its frame number: the lists [bboxes] and [frames] are filled side by
    side from them. *)
Variable orthos : list (bbox * Z).

Definition bboxes : list bbox := orthos.*1.
Definition frames : list Z := orthos.*2.
Definition numOrthos : nat := length orthos.

(** The accumulators of one pass: [meanRatio] (a running sum until the
    pass ends), [count] and [breaks]. *)
Definition pass_state : Type := Q * nat * list Z.

(** Body of [for i in range(0, numOrthos-interval)]. *)
Definition pass_body (interval : nat) (i : nat) (s : pass_state)
  : py pass_state :=
  let '(meanRatio, count, breaks) := s in
  thisBox ← list_get bboxes i;
  lastBox ← list_get bboxes (i + interval);
  let thisArea := getBboxArea thisBox in
  let area := getBboxArea (intersect thisBox lastBox) in
  ratio ← py_div area thisArea;
  let '(meanRatio, count) :=
    if Qltb 0 area then ((meanRatio + ratio)%Q, S count)
    else (meanRatio, count) in
  if (interval =? 1)%nat && Qle_bool area 0 then
    frame ← list_get frames i;
    Ret (meanRatio, count, breaks ++ [frame])
  else Ret (meanRatio, count, breaks).

(** One turn of the [while] body after the test on the number of images:
    the pass over the pairs and the final division by [count]. *)
Definition spacing_pass (interval : nat) (breaks : list Z)
  : py (Q * list Z) :=
  '(meanRatio, count, breaks) ←
    py_for (seq 0 (numOrthos - interval)) (pass_body interval)
           (0%Q, 0%nat, breaks);
  if (count =? 0)%nat then Raise ZeroDivisionError
  else Ret ((meanRatio / inject_Z (Z.of_nat count))%Q, breaks).

(** [while meanRatio > MAX_RATIO: ...]; [None] when the fuel runs out. *)
Fixpoint spacing_loop (fuel : nat) (interval : nat) (meanRatio : Q)
  (breaks : list Z) : option (py (nat * Q * list Z)) :=
  if Qltb MAX_RATIO meanRatio then
    match fuel with
    | O => None
    | S fuel' =>
        let interval := S interval in
        if (numOrthos <=? interval)%nat then Some (Raise too_few_images)
        else
          match spacing_pass interval breaks with
          | Raise e => Some (Raise e)
          | Ret (meanRatio, breaks) =>
              spacing_loop fuel' interval meanRatio breaks
          end
    end
  else Some (Ret (interval, meanRatio, breaks)).

Definition getImageSpacing : option (py (nat * list Z)) :=
  match spacing_loop (S numOrthos) 0 1%Q [] with
  | None => None
  | Some (Raise e) => Some (Raise e)
  | Some (Ret (interval, meanRatio, breaks)) =>
      let interval :=
        if Qltb meanRatio MIN_RATIO && (1 <? interval)%nat
        then (interval - 1)%nat else interval in
      Some (Ret (interval, breaks))
  end.

(** *** The analysis as the specification words it *)

Definition box_at (i : nat) : bbox := nth i bboxes (BBox 0 0 0 0).

(** Intersection area of the pair [(i, i + interval)]. *)
Definition overlap_area (interval i : nat) : Q :=
  getBboxArea (intersect (box_at i) (box_at (i + interval))).

(** The pairs [(i, i + interval)] of positive intersection area. *)
Definition overlapping_pairs (interval : nat) : list nat :=
  filter (fun i => Qltb 0 (overlap_area interval i) = true)
         (seq 0 (numOrthos - interval)).

Definition overlap_ratio (interval i : nat) : Q :=
  (overlap_area interval i / getBboxArea (box_at i))%Q.

Definition Qsum (l : list Q) : Q := fold_left Qplus l 0%Q.

(** Mean, over the overlapping pairs, of intersection area over the area
    of the earlier frame. *)
Definition mean_overlap_ratio (interval : nat) : Q :=
  (Qsum (overlap_ratio interval <$> overlapping_pairs interval)
   / inject_Z (Z.of_nat (length (overlapping_pairs interval))))%Q.

(** No division of the pass at [interval] is by zero: every earlier
    frame has a non-zero area, and some pair overlaps. *)
Definition pass_defined (interval : nat) : Prop :=
  (forall i, (i < numOrthos - interval)%nat ->
             ~ (getBboxArea (box_at i) == 0)%Q)
  /\ overlapping_pairs interval <> [].

(** The two ways a pass divides by zero: no pair overlaps (the count is
    zero), or the earlier frame of a pair has zero area. *)
Definition pass_divides_by_zero (interval : nat) : Prop :=
  overlapping_pairs interval = []
  \/ exists i, (i < numOrthos - interval)%nat
               /\ (getBboxArea (box_at i) == 0)%Q.

(** The search arrives at [interval]: every smaller interval was
    evaluated and its mean ratio exceeded [MAX_RATIO]. *)
Definition search_reaches (interval : nat) : Prop :=
  (1 <= interval < numOrthos)%nat
  /\ forall j, (1 <= j < interval)%nat ->
       pass_defined j /\ (MAX_RATIO < mean_overlap_ratio j)%Q.


(** *** Bookkeeping for the proofs *)




End ImageSpacing.

(** ** process_icebridge_run.py: the batch loop of [main] *)

Section BatchScheduler.

(** An (image, camera) pair and the frame number read off its image file
    name (the alignment check before the loop has parsed every one). *)
Variable Pair : Type.
Variable frameNumberOf : Pair -> Z.

Variable startFrame stopFrame : Z.
Variable bundleLength : Z.
Variable imageStereoInterval : Z.
Variable breaks : list Z.

(** A batch handed to [processBatch]: its pairs, and the frame numbers
    whose first and last name its output folder. *)
Record Batch : Type := MkBatch {
  batch_pairs : list Pair;
  batch_frames : list Z
}.

(** The loop variables [batchImageCameraPairs] and [frameNumbers], and
    the batches emitted so far. *)
Record sched_state : Type := MkSched {
  batchImageCameraPairs : list Pair;
  frameNumbers : list Z;
  emitted : list Batch
}.

(** "Check if this is inside the user specified frame range" *)
Definition in_range (frameNumber : Z) : bool :=
  negb (negb (startFrame =? 0) && (frameNumber <? startFrame))
  && negb (negb (stopFrame =? 0) && (stopFrame <? frameNumber)).

(** Body of [for i in range(0,numFiles)]. *)
Definition schedule_step (st : sched_state) (pair : Pair) : sched_state :=
  let frameNumber := frameNumberOf pair in
  if negb (startFrame =? 0) && (frameNumber <? startFrame) then st
  else if negb (stopFrame =? 0) && (stopFrame <? frameNumber) then st
  else
    let batch := batchImageCameraPairs st ++ [pair] in
    let numbers := frameNumbers st ++ [frameNumber] in
    let numPairs := Z.of_nat (length batch) in
    let hitBreakFrame := bool_decide (frameNumber ∈ breaks) in
    if (numPairs <? bundleLength) && (frameNumber <? stopFrame)
       && negb hitBreakFrame
    then MkSched batch numbers (emitted st)
    else
      let out := emitted st ++ [MkBatch batch numbers] in
      if hitBreakFrame then MkSched [] [] out
      else
        let batchOverlapCount := -1 * imageStereoInterval in
        MkSched (list_slice_from batchOverlapCount batch)
                (list_slice_from batchOverlapCount numbers)
                out.

Definition schedule (imageCameraPairs : list Pair) : sched_state :=
  foldl schedule_step (MkSched [] [] []) imageCameraPairs.

(** The batches emitted for a run. *)
Definition batches (imageCameraPairs : list Pair) : list Batch :=
  emitted (schedule imageCameraPairs).

(** *** The scheduler as the specification words it *)

(** The frames of the input that lie in the frame range, in order. *)
Definition in_range_frames (imageCameraPairs : list Pair) : list Z :=
  filter (fun f => in_range f = true) (frameNumberOf <$> imageCameraPairs).

(** The frames of each batch emitted. *)
Definition batch_frame_lists (imageCameraPairs : list Pair)
  : list (list Z) :=
  batch_frames <$> batches imageCameraPairs.

(** What a flushed batch hands to the next one: nothing when it ends at
    a break frame, its trailing [imageStereoInterval] frames otherwise. *)
Definition carried_over (flushed : list Z) : list Z :=
  match last flushed with
  | Some frame =>
      if bool_decide (frame ∈ breaks) then []
      else list_slice_from (-1 * imageStereoInterval) flushed
  | None => []
  end.

(** The invariant of the loop, after the pairs [pairs]. *)
Record schedule_invariant (pairs : list Pair) (st : sched_state) : Prop := {
  inv_numbers :
    frameNumbers st = frameNumberOf <$> batchImageCameraPairs st;
  inv_batches :
    Forall (fun b => batch_frames b = frameNumberOf <$> batch_pairs b
                     /\ batch_frames b <> [])
           (emitted st);
  inv_sound :
    forall f, f ∈ concat (batch_frames <$> emitted st) \/ f ∈ frameNumbers st
              -> f ∈ in_range_frames pairs;
  inv_complete :
    forall f, f ∈ in_range_frames pairs ->
              f ∈ concat (batch_frames <$> emitted st) \/ f ∈ frameNumbers st;
  inv_flushed :
    forall f, last (in_range_frames pairs) = Some f -> stopFrame <= f ->
              forall g, g ∈ frameNumbers st ->
                        g ∈ concat (batch_frames <$> emitted st);
  inv_working :
    exists news,
      frameNumbers st
      = from_option carried_over [] (last (batch_frames <$> emitted st)) ++ news;
  inv_chain :
    forall j b b',
      (batch_frames <$> emitted st) !! j = Some b ->
      (batch_frames <$> emitted st) !! S j = Some b' ->
      exists news, news <> [] /\ b' = carried_over b ++ news
}.

(** [f] is in two batches next to each other, and in no other. *)
Definition in_exactly_two_consecutive (bs : list (list Z)) (f : Z) : Prop :=
  exists j,
    (exists b, bs !! j = Some b /\ f ∈ b)
    /\ (exists b', bs !! S j = Some b' /\ f ∈ b')
    /\ forall i b, bs !! i = Some b -> f ∈ b -> i = j \/ i = S j.

(** The coverage property as the specification states it. *)
Definition coverage_as_stated (imageCameraPairs : list Pair) : Prop :=
  let bs := batch_frame_lists imageCameraPairs in
  let frames := in_range_frames imageCameraPairs in
  (forall f, f ∈ concat bs <-> f ∈ frames)
  /\ (forall f, f ∈ frames -> f ∉ breaks -> last frames <> Some f ->
                in_exactly_two_consecutive bs f).

End BatchScheduler.

Arguments MkBatch {Pair} _ _.
Arguments batch_pairs {Pair} _.
Arguments batch_frames {Pair} _.
Arguments MkSched {Pair} _ _ _.
Arguments batchImageCameraPairs {Pair} _.
Arguments frameNumbers {Pair} _.
Arguments emitted {Pair} _.

(** ** process_icebridge_run.py: what the batch loop hands over *)

(** [l[-1]] on a list. *)
Definition list_last {A : Type} (l : list A) : py A :=
  match last l with
  | Some x => Ret x
  | None => Raise IndexError
  end.

(** "The output folder is named after the first and last frame in the
    batch" *)
Definition thisOutputFolder (outputFolder : string) (frameNumbers : list Z)
  : py string :=
  first ← list_get frameNumbers 0;
  final ← list_last frameNumbers;
  Ret (path_join outputFolder
         ("batch_" +:+ py_str first +:+ "_" +:+ py_str final)).

Section BatchWindows.

Variable Pair : Type.
Variable frameNumberOf : Pair -> Z.
Variable startFrame stopFrame : Z.
Variable bundleLength : Z.
Variable imageStereoInterval : Z.
Variable breaks : list Z.

(** [f] and [g] sit [imageStereoInterval] places apart in the batch [b]:
    the batch holds the stereo pair with [f] as its left image. *)
Definition stereo_pair_in (b : list Z) (f g : Z) : Prop :=
  exists q : nat,
    b !! q = Some f
    /\ b !! (q + Z.to_nat imageStereoInterval)%nat = Some g.

(** A break frame lies between position [p] and its partner
    [imageStereoInterval] places on, [p] included. *)
Definition break_between (frames : list Z) (p : nat) : Prop :=
  exists (r : nat) (h : Z),
    (p <= r < p + Z.to_nat imageStereoInterval)%nat
    /\ frames !! r = Some h /\ h ∈ breaks.

(** The loop invariant on the working batch as a window that slides over
    the in-range frames: the frames before the window, the windows that
    were flushed, the frames they were flushed at, and the stereo pairs
    they hold. *)
Definition window_invariant (pairs : list Pair) (st : sched_state Pair)
  : Prop :=
  let frames :=
    in_range_frames Pair frameNumberOf startFrame stopFrame pairs in
  exists (passed flushed_at : list Z),
    frames = passed ++ frameNumbers st
    /\ Forall (fun b => exists pre post,
                 frames = pre ++ batch_frames b ++ post)
              (emitted st)
    /\ sublist flushed_at frames
    /\ Forall2 (fun b f => last (batch_frames b) = Some f)
               (emitted st) flushed_at
    /\ (1 <= imageStereoInterval ->
        (forall f, last frames = Some f -> stopFrame <= f ->
           (length (frameNumbers st) <= Z.to_nat imageStereoInterval)%nat)
        /\ (forall p f, frames !! p = Some f ->
              (length passed <= p)%nat
              \/ break_between frames p
              \/ exists g b,
                   frames !! (p + Z.to_nat imageStereoInterval)%nat = Some g
                   /\ b ∈ emitted st
                   /\ stereo_pair_in (batch_frames b) f g)).

(** The bound on the batch sizes, while the pairs are taken in. *)
Definition size_invariant (st : sched_state Pair) : Prop :=
  Z.of_nat (length (batchImageCameraPairs st)) < bundleLength
  /\ Forall (fun b =>
               1 <= Z.of_nat (length (batch_pairs b)) <= bundleLength
               /\ (Z.of_nat (length (batch_pairs b)) = bundleLength
                   \/ exists f, last (batch_frames b) = Some f
                                /\ (f ∈ breaks \/ stopFrame <= f)))
            (emitted st).

End BatchWindows.

(** ** fetch_icebridge_data.py: [doFetch] and [main] assembled *)

Definition getSmallestFrame : Z := 0.
Definition getLargestFrame : Z := 99999999.

(** [options.startFrame = a; options.stopFrame = b] *)
Definition set_frame_range (a b : Z) (o : Options) : Options :=
  MkOptions (year o) (month o) (day o) (ext o) (site o) (type o)
            a b (maxNumToFetch o)
            (allFrames o) (fetchNextDay o) (skipValidate o) (dryRun o)
            (refetchIndex o).

(** "Keep track of the earliest and latest frame": the loop over
    [allFrames] that starts big and small. *)
Definition frame_bounds (frames : list Z) : Z * Z :=
  foldl (fun '(firstFrame, lastFrame) frameNumber =>
           (if frameNumber <? firstFrame then frameNumber else firstFrame,
            if lastFrame <? frameNumber then frameNumber else lastFrame))
        (getLargestFrame, getSmallestFrame) frames.

(** "Some files have an associated xml file. DEMs also have a tfw
    file." *)
Definition currFilesToFetch (hasXml hasTfw : bool) (filename : string)
  : list string :=
  [filename] ++ (if hasXml then [xmlFile filename] else [])
             ++ (if hasTfw then [tfwFile filename] else []).

(** Body of [for frame in allFrames] in [doFetch]; the accumulator is
    [allFilesToFetch] and [allUrlsToFetch]. *)
Definition select_frame (outputFolder : string)
  (frameDict urlDict : gmap Z string) (startFrame stopFrame : Z)
  (hasXml hasTfw : bool) (frame : Z) (acc : list string * list string)
  : py (list string * list string) :=
  if (startFrame <=? frame) && (frame <=? stopFrame) then
    filename ← dict_get frameDict frame;
    py_for (currFilesToFetch hasXml hasTfw filename)
      (fun filename '(allFilesToFetch, allUrlsToFetch) =>
         folder ← dict_get urlDict frame;
         let url := path_join folder filename in
         let outputPath := path_join outputFolder filename in
         Ret (allFilesToFetch ++ [outputPath], allUrlsToFetch ++ [url]))
      acc
  else Ret acc.

(** The cut at [options.maxNumToFetch]. *)
Definition limit_files (maxNumToFetch : Z) (lists : list string * list string)
  : list string * list string :=
  let '(allFilesToFetch, allUrlsToFetch) := lists in
  if (0 <? maxNumToFetch)
     && (maxNumToFetch <? Z.of_nat (length allFilesToFetch))
  then (take (Z.to_nat maxNumToFetch) allFilesToFetch,
        take (Z.to_nat maxNumToFetch) allUrlsToFetch)
  else (allFilesToFetch, allUrlsToFetch).

(** *** The selection as a list comprehension *)

(** The frames of the index between the two bounds, in ascending
    order. *)
Definition frames_to_fetch (frameDict : gmap Z string)
  (startFrame stopFrame : Z) : list Z :=
  filter (fun frame => startFrame <= frame <= stopFrame)
         (sorted_keys frameDict).

(** The file of a frame and its sidecars, each joined to [folder]. *)
Definition paths_of_frame (hasXml hasTfw : bool) (folder filename : string)
  : list string :=
  path_join folder <$> currFilesToFetch hasXml hasTfw filename.

(** A computation on the file system that at most removes files. *)
Definition only_removes {A : Type} (m : stpy FS A) : Prop :=
  forall fs : FS, (m fs).1 ⊆ fs.

Module Fetch.
Section Fetch.

(** The remote side and the external readers, as in the sections above,
    and the home directory of the user. *)
Variable listDay :
  bool -> Z -> string ->
  stpy (Options * FS) (gmap Z string * gmap Z string).
Variable curl : list string -> FS -> FS.
Variable gdalinfo_ok : string -> bool.
Variable latitude_in_text : string -> option Q.
Variable hasValidChkSum : string -> FS -> bool.
Variable isValidTfw : string -> FS -> bool.
Variable home : string.

(** [doFetch(options, outputFolder)].  The output folder is created with
    [mkdir -p]; directories are not part of the file system modelled
    here, which maps the paths of files to their contents. *)
Definition doFetch (outputFolder : string) : stpy (Options * FS) Z :=
  auth ← on_fs (st_gets (fun fs : FS =>
            path_exists (home +:+ "/.netrc") fs
            && path_exists (home +:+ "/.urs_cookies") fs));
  if negb auth then mret (-1)
  else
    st ← st_gets (fun w : Options * FS => site w.1);
    let isSouth := String.eqb st "AN" in
    '(frameDict, urlDict) ← doFetch_readIndex listDay outputFolder;
    let '(firstFrame, lastFrame) := frame_bounds (sorted_keys frameDict) in
    every ← st_gets (fun w : Options * FS => allFrames w.1);
    _ ← (if (every : bool)
         then st_modify (prod_map (set_frame_range firstFrame lastFrame) id)
         else mret tt);
    o ← st_gets (fun w : Options * FS => w.1);
    let hasTfw := String.eqb (type o) "dem" in
    let hasXml :=
      bool_decide (type o ∈ LIDAR_TYPES) || String.eqb (type o) "ortho"
      || hasTfw in
    lists ← st_lift
      (py_for (sorted_keys frameDict)
         (select_frame outputFolder frameDict urlDict
                       (startFrame o) (stopFrame o) hasXml hasTfw)
         ([], []));
    let '(allFilesToFetch, allUrlsToFetch) :=
      limit_files (maxNumToFetch o) lists in
    _ ← on_fs (fetchFilesInBatches curl MAX_IN_ONE_CALL (dryRun o)
                 allFilesToFetch allUrlsToFetch);
    on_fs (validate_all gdalinfo_ok latitude_in_text hasValidChkSum
             isValidTfw (skipValidate o) isSouth hasXml hasTfw
             allFilesToFetch).

(** "Make several attempts. Stop if there is no progress.": the retry
    loop of [main] around this [doFetch], once the command line is
    parsed. *)
Definition main (outputFolder : string) : stpy (Options * FS) Z :=
  Retry.main (Options * FS) (doFetch outputFolder).

End Fetch.
End Fetch.

(** ** icebridge_common.py: what is read off a file name *)

(** [os.path.basename(p)] *)
Definition basename (p : string) : string :=
  str_slice (Some (rfind "/" p + 1)) None p.

(** [s.replace(a, b)] for two characters. *)
Fixpoint replace_char (a b : ascii) (s : string) : string :=
  match s with
  | "" => ""
  | String c s' => String (if Ascii.eqb c a then b else c) (replace_char a b s')
  end.

(** [s < t] on strings: the order of the dictionary on character codes. *)
Definition str_ltb (s t : string) : bool :=
  match String.compare s t with
  | Lt => true
  | _ => false
  end.

Definition isDEM (filename : string) : bool :=
  (8 <=? String.length filename)%nat
  && String.eqb (str_slice (Some (-8)) None filename) "_DEM.tif".

(** The loop of [getFrameNumberFromFilename] over the parts of the
    name. *)
Fixpoint frame_number_among (f : string) (parts : list string) : py Z :=
  match parts with
  | [] => Raise (Exception ("Cannot parse the frame number from " +:+ f))
  | part :: parts' =>
      if negb (String.length part =? 5)%nat then frame_number_among f parts'
      else if str_ltb part "00000" || str_ltb "99999" part
           then frame_number_among f parts'
           else py_int part
  end.

Definition getFrameNumberFromFilename (f : string) : py Z :=
  let base := basename f in
  let base := replace_char "." "_" base in
  let parts := split_on "_" base in
  frame_number_among f parts.

(** Body of [for part in parts] in [parseTimeStamps]; the accumulator is
    [imageDateString] and [imageTimeString]. *)
Definition time_stamp_part (part : string) (acc : string * string)
  : string * string :=
  let '(imageDateString, imageTimeString) := acc in
  let len := String.length part in
  if negb (len =? 6)%nat && negb (len =? 8)%nat then acc
  else if (len =? 6)%nat
          && (str_ltb part "000000" || str_ltb "999999" part) then acc
  else if (len =? 8)%nat
          && (str_ltb part "00000000" || str_ltb "99999999" part) then acc
  else if String.eqb imageDateString "" && (len =? 8)%nat
       then (part, imageTimeString)
  else if String.eqb imageTimeString "" then (imageDateString, part)
  else acc.

Definition parseTimeStamps (fileName : string) : list string :=
  let fileName := basename fileName in
  let fileName := replace_char "." "_" fileName in
  let fileName := replace_char "-" "_" fileName in
  let parts := split_on "_" fileName in
  let '(imageDateString, imageTimeString) :=
    foldl (fun acc part => time_stamp_part part acc) ("", "") parts in
  if String.eqb imageDateString "" then []
  else if String.eqb imageTimeString "" then []
  else [imageDateString; imageTimeString].
(** ** process_icebridge_run.py: [getImageSpacing] in binary64

    Which interval the search of [getImageSpacing] settles on is decided
    by comparisons of rounded sums and quotients with the constants
    [0.8] and [0.4]; this depends on the floating point arithmetic to the
    last bit.  Here the function is written once more on the double
    precision numbers of the IEEE 754 standard, the [float] of Python:
    [spec_float] with a precision of 53 bits, every operation rounded to
    the nearest number, ties to even.  A number that is not a number
    compares false with everything, and a division by zero raises, as
    in Python.  The doubles are the values of [spec_float] that are
    [valid_binary]; what is proved holds for every value of the type. *)

Module Binary64.

Definition prec : Z := 53.
Definition emax : Z := 1024.

Definition add (x y : spec_float) : spec_float := SFadd prec emax x y.
Definition sub (x y : spec_float) : spec_float := SFsub prec emax x y.
Definition mul (x y : spec_float) : spec_float := SFmul prec emax x y.
Definition div (x y : spec_float) : spec_float := SFdiv prec emax x y.

(** [x < y], [x <= y] and [x == y]. *)
Definition ltb (x y : spec_float) : bool := SFltb x y.
Definition leb (x y : spec_float) : bool := SFleb x y.
Definition eqb (x y : spec_float) : bool := SFeqb x y.

Definition is_nan (x : spec_float) : bool :=
  match x with
  | S754_nan => true
  | _ => false
  end.

(** [float(n)] for an integer [n], and the quotient of two integers
    rounded once, which is how a decimal literal is read. *)
Definition of_Z (n : Z) : spec_float := binary_normalize prec emax n 0 false.
Definition of_ratio (p q : Z) : spec_float := div (of_Z p) (of_Z q).

(** The integer [0] of the code where it meets a float. *)
Definition zero : spec_float := S754_zero false.

(** [x / y]: division by zero raises. *)
Definition py_div (x y : spec_float) : py spec_float :=
  if eqb y zero then Raise ZeroDivisionError else Ret (div x y).

(** [max(x, y)] and [min(x, y)] of Python: the first argument unless the
    second is greater (smaller). *)
Definition py_max (x y : spec_float) : spec_float := if ltb x y then y else x.
Definition py_min (x y : spec_float) : spec_float := if ltb y x then y else x.

(** The literals [0.8], [0.4] and [1.0]. *)
Definition MAX_RATIO : spec_float := S754_finite false 7205759403792794 (-53).
Definition MIN_RATIO : spec_float := S754_finite false 7205759403792794 (-54).
Definition one : spec_float := S754_finite false 4503599627370496 (-52).

Record bbox : Type :=
  BBox { minX : spec_float; maxX : spec_float;
         minY : spec_float; maxY : spec_float }.

Definition getBboxArea (b : bbox) : spec_float :=
  let width := sub (maxX b) (minX b) in
  let height := sub (maxY b) (minY b) in
  if ltb width zero || ltb height zero then zero
  else mul width height.

Definition intersect (thisBox lastBox : bbox) : bbox :=
  BBox (py_max (minX lastBox) (minX thisBox))
       (py_min (maxX lastBox) (maxX thisBox))
       (py_max (minY lastBox) (minY thisBox))
       (py_min (maxY lastBox) (maxY thisBox)).

Section ImageSpacing.

(** The ortho files in sorted order, each with its projection bounds and
    its frame number. *)
Variable orthos : list (bbox * Z).

Definition bboxes : list bbox := orthos.*1.
Definition frames : list Z := orthos.*2.
Definition numOrthos : nat := length orthos.

(** The accumulators of one pass: [meanRatio] (a running sum until the
    pass ends), [count] and [breaks]. *)
Definition pass_state : Type := spec_float * nat * list Z.

(** Body of [for i in range(0, numOrthos-interval)]. *)
Definition pass_body (interval : nat) (i : nat) (s : pass_state)
  : py pass_state :=
  let '(meanRatio, count, breaks) := s in
  thisBox ← list_get bboxes i;
  lastBox ← list_get bboxes (i + interval);
  let thisArea := getBboxArea thisBox in
  let area := getBboxArea (intersect thisBox lastBox) in
  ratio ← py_div area thisArea;
  let '(meanRatio, count) :=
    if ltb zero area then (add meanRatio ratio, S count)
    else (meanRatio, count) in
  if (interval =? 1)%nat && leb area zero then
    frame ← list_get frames i;
    Ret (meanRatio, count, breaks ++ [frame])
  else Ret (meanRatio, count, breaks).

(** One turn of the [while] body after the test on the number of images:
    the pass over the pairs and the final division by [count]. *)
Definition spacing_pass (interval : nat) (breaks : list Z)
  : py (spec_float * list Z) :=
  '(meanRatio, count, breaks) ←
    py_for (seq 0 (numOrthos - interval)) (pass_body interval)
           (zero, 0%nat, breaks);
  if (count =? 0)%nat then Raise ZeroDivisionError
  else Ret (div meanRatio (of_Z (Z.of_nat count)), breaks).

(** [while meanRatio > MAX_RATIO: ...]; [None] when the fuel runs out. *)
Fixpoint spacing_loop (fuel : nat) (interval : nat) (meanRatio : spec_float)
  (breaks : list Z) : option (py (nat * spec_float * list Z)) :=
  if ltb MAX_RATIO meanRatio then
    match fuel with
    | O => None
    | S fuel' =>
        let interval := S interval in
        if (numOrthos <=? interval)%nat then Some (Raise too_few_images)
        else
          match spacing_pass interval breaks with
          | Raise e => Some (Raise e)
          | Ret (meanRatio, breaks) =>
              spacing_loop fuel' interval meanRatio breaks
          end
    end
  else Some (Ret (interval, meanRatio, breaks)).

Definition getImageSpacing : option (py (nat * list Z)) :=
  match spacing_loop (S numOrthos) 0 one [] with
  | None => None
  | Some (Raise e) => Some (Raise e)
  | Some (Ret (interval, meanRatio, breaks)) =>
      let interval :=
        if ltb meanRatio MIN_RATIO && (1 <? interval)%nat
        then (interval - 1)%nat else interval in
      Some (Ret (interval, breaks))
  end.

(** *** The analysis as the specification words it *)

Definition box_at (i : nat) : bbox :=
  nth i bboxes (BBox zero zero zero zero).

(** Intersection area of the pair [(i, i + interval)]. *)
Definition overlap_area (interval i : nat) : spec_float :=
  getBboxArea (intersect (box_at i) (box_at (i + interval))).

(** The pairs [(i, i + interval)] of positive intersection area. *)
Definition overlapping_pairs (interval : nat) : list nat :=
  filter (fun i => ltb zero (overlap_area interval i) = true)
         (seq 0 (numOrthos - interval)).

Definition overlap_ratio (interval i : nat) : spec_float :=
  div (overlap_area interval i) (getBboxArea (box_at i)).

(** The sum of a list, taken from the left. *)
Definition float_sum (l : list spec_float) : spec_float :=
  fold_left add l zero.

(** Mean, over the overlapping pairs, of intersection area over the area
    of the earlier frame. *)
Definition mean_overlap_ratio (interval : nat) : spec_float :=
  div (float_sum (overlap_ratio interval <$> overlapping_pairs interval))
      (of_Z (Z.of_nat (length (overlapping_pairs interval)))).

(** No division of the pass at [interval] is by zero: every earlier
    frame has a non-zero area, and some pair overlaps. *)
Definition pass_defined (interval : nat) : Prop :=
  (forall i, (i < numOrthos - interval)%nat ->
             eqb (getBboxArea (box_at i)) zero = false)
  /\ overlapping_pairs interval <> [].

(** The search arrives at [interval]: every smaller interval was
    evaluated and its mean ratio exceeded [MAX_RATIO]. *)
Definition search_reaches (interval : nat) : Prop :=
  (1 <= interval < numOrthos)%nat
  /\ forall j, (1 <= j < interval)%nat ->
       pass_defined j /\ ltb MAX_RATIO (mean_overlap_ratio j) = true.

(** What is returned, with "does not exceed 0.8" read as "is at most
    0.8": the interval comes from a settled interval whose mean ratio is
    at most [MAX_RATIO]. *)
Definition returned_mean_at_most_max : Prop :=
  forall (interval : nat) (breaks : list Z),
    getImageSpacing = Some (Ret (interval, breaks)) ->
    exists k : nat,
      search_reaches k /\ pass_defined k
      /\ leb (mean_overlap_ratio k) MAX_RATIO = true
      /\ (interval = k \/ interval = (k - 1)%nat).

End ImageSpacing.

(** A box with whole-numbered corners. *)
Definition box_of_Z (x0 x1 y0 y1 : Z) : bbox :=
  BBox (of_Z x0) (of_Z x1) (of_Z y0) (of_Z y1).

(** *** [hasGoodLat] on a float *)

Definition hasGoodLat (latitude : spec_float) (isSouth : bool) : bool :=
  if (isSouth && ltb latitude zero) || (negb isSouth && ltb zero latitude)
  then true
  else false.

End Binary64.

(** * Properties *)

(** ** The retry loop of [main] *)

Section RetryFacts.

Context {World : Type} (doFetch : stpy World Z).

Local Abbreviation attempts := (Retry.main_attempts World doFetch).
Local Abbreviation cycles := (Retry.run_cycles World doFetch).

Lemma retry_bind_run {A B : Type} (m : stpy World A) (k : A -> stpy World B)
  (w : World) :
  (m ≫= k) w
  = match m w with
    | (w', Ret a) => k a w'
    | (w', Raise e) => (w', Raise e)
    end.
Proof. reflexivity. Qed.

(** What [n >= 1] attempts do, started with any [numPrevFailed]: [k]
    cycles that each report a count other than zero and other than the
    count before, and then one more cycle that ends the loop. *)
Lemma main_attempts_spec (n : nat) :
  forall (prev : Z) (w : World),
    (1 <= n)%nat ->
    exists (k : nat) (reports : list Z) (w' : World),
      (k < n)%nat
      /\ length reports = k
      /\ cycles k w = (w', Ret reports)
      /\ (forall i x, reports !! i = Some x ->
            x <> 0 /\ Some x <> (prev :: reports) !! i)
      /\ attempts n prev w
         = match doFetch w' with
           | (w'', Raise e) => (w'', Raise e)
           | (w'', Ret numFailed) =>
               (w'', Ret (if numFailed =? 0 then 0 else -1))
           end
      /\ match doFetch w' with
         | (_, Raise _) => True
         | (_, Ret numFailed) =>
             numFailed = 0
             \/ Some numFailed = last (prev :: reports)
             \/ k = (n - 1)%nat
         end.
Proof.
  induction n as [|n IH]; intros prev w Hn; [lia|].
  cbn [Retry.main_attempts]. rewrite retry_bind_run.
  assert (Hnone : forall i x, ([] : list Z) !! i = Some x ->
            x <> 0 /\ Some x <> [prev] !! i)
    by (intros i x Hx; by rewrite lookup_nil in Hx).
  destruct (doFetch w) as [w1 [numFailed|e]] eqn:Hfetch.
  2:{ exists 0%nat, [], w. rewrite Hfetch.
      split; [lia|]. by repeat (split; [done|]). }
  destruct (Z.eqb_spec numFailed 0) as [Hzero|Hzero].
  { exists 0%nat, [], w. rewrite Hfetch. subst numFailed.
    split; [lia|]. repeat (split; [done|]). by left. }
  assert (Hz : (numFailed =? 0) = false) by lia.
  destruct (Z.eqb_spec numFailed prev) as [Hsame|Hsame].
  { exists 0%nat, [], w. rewrite Hfetch, Hz.
    split; [lia|]. repeat (split; [done|]). right. left. by subst. }
  destruct n as [|n].
  { exists 0%nat, [], w. rewrite Hfetch, Hz.
    split; [lia|]. repeat (split; [done|]). right. right. lia. }
  destruct (IH numFailed w1 ltac:(lia))
    as (k & reports & w' & Hk & Hlen & Hrun & Hnew & Hmain & Hlast).
  exists (S k), (numFailed :: reports), w'.
  split; [lia|]. split; [cbn; lia|]. split.
  { cbn [Retry.run_cycles]. rewrite retry_bind_run, Hfetch.
    rewrite retry_bind_run, Hrun. done. }
  split.
  { intros [|i] x Hx; cbn in Hx |- *.
    - injection Hx as <-. split; [done|]. congruence.
    - by apply Hnew. }
  split; [exact Hmain|].
  destruct (doFetch w') as [w'' [f|e]]; [|done].
  destruct Hlast as [?|[Hl|?]]; [by left | | right; right; lia].
  right. left. rewrite Hl. symmetry. by apply last_cons_cons.
Qed.

End RetryFacts.

(** C3.  The retry loop of [main] runs the fetch-and-validate cycle at
    least once and at most ten times.  Every cycle but the last reports a
    count that is not zero and differs from the count of the cycle before
    it (the first from -1), and after each of these the loop goes on to
    one more cycle.  The last cycle is the first that raises, reports
    zero or repeats the count before it, or else the tenth; what it raises
    comes out of [main], which returns 0 when it reports zero and -1
    otherwise. *)
Theorem retry_ten_cycles_stop_on_zero_or_plateau
  (World : Type) (doFetch : stpy World Z) (w : World) :
  exists (k : nat) (reports : list Z) (w' : World),
    (k < 10)%nat
    /\ length reports = k
    /\ Retry.run_cycles World doFetch k w = (w', Ret reports)
    /\ (forall i x, reports !! i = Some x ->
          x <> 0 /\ Some x <> (-1 :: reports) !! i)
    /\ Retry.main World doFetch w
       = match doFetch w' with
         | (w'', Raise e) => (w'', Raise e)
         | (w'', Ret numFailed) =>
             (w'', Ret (if numFailed =? 0 then 0 else -1))
         end
    /\ match doFetch w' with
       | (_, Raise _) => True
       | (_, Ret numFailed) =>
           numFailed = 0
           \/ Some numFailed = last (-1 :: reports)
           \/ k = 9%nat
       end.
Proof.
  destruct (main_attempts_spec doFetch 10 (-1) w ltac:(lia))
    as (k & reports & w' & Hk & Hlen & Hrun & Hnew & Hmain & Hlast).
  exists k, reports, w'. by repeat (split; [done|]).
Qed.

(** Two cycles: three files fail in the first, none in the second. *)
Example retry_goes_on_after_a_new_count :
  let doFetch : stpy nat Z :=
    fun attempt => (S attempt, Ret (if (attempt =? 0)%nat then 3 else 0)) in
  Retry.main nat doFetch 0%nat = (2%nat, Ret 0).
Proof. reflexivity. Qed.

(** Three files fail in the first cycle and in the second. *)
Example retry_stops_without_progress :
  let doFetch : stpy nat Z := fun attempt => (S attempt, Ret 3) in
  Retry.main nat doFetch 0%nat = (2%nat, Ret (-1)).
Proof. reflexivity. Qed.

(** A count that changes every time: ten cycles. *)
Example retry_gives_up_after_ten_cycles :
  let doFetch : stpy nat Z :=
    fun attempt => (S attempt, Ret (Z.of_nat attempt + 1)) in
  Retry.main nat doFetch 0%nat = (10%nat, Ret (-1)).
Proof. reflexivity. Qed.

(** The second cycle raises. *)
Example retry_lets_exceptions_through :
  let doFetch : stpy nat Z :=
    fun attempt =>
      (S attempt, if (attempt =? 0)%nat then Ret 3 else Raise IndexError) in
  Retry.main nat doFetch 0%nat = (2%nat, Raise IndexError).
Proof. reflexivity. Qed.

(** ** The hemisphere test *)


Lemma Qltb_ge (x y : Q) : Qltb x y = false <-> (y <= x)%Q.
Proof.
  unfold Qltb. by rewrite negb_false_iff, Qle_bool_iff.
Qed.

Lemma hasGoodLat_zero (latitude : Q) (isSouth : bool) :
  (latitude == 0)%Q -> hasGoodLat latitude isSouth = false.
Proof.
  intros Hz. unfold hasGoodLat.
  assert (Qltb latitude 0 = false) as -> by (apply Qltb_ge; rewrite Hz; apply Qle_refl).
  assert (Qltb 0 latitude = false) as -> by (apply Qltb_ge; rewrite Hz; apply Qle_refl).
  by destruct isSouth.
Qed.

Lemma str_drop_length (n : nat) (s : string) :
  String.length (str_drop n s) = (String.length s - n)%nat.
Proof.
  revert s. induction n as [|n IH]; intros [|c s]; cbn; done.
Qed.

Lemma str_take_all (n : nat) (s : string) :
  (String.length s <= n)%nat -> str_take n s = s.
Proof.
  revert s. induction n as [|n IH]; intros [|c s]; cbn; try done; try lia.
  intros Hn. f_equal. apply IH. lia.
Qed.

Lemma str_drop_drop (n m : nat) (s : string) :
  str_drop n (str_drop m s) = str_drop (m + n) s.
Proof.
  revert s. induction m as [|m IH]; intros s; cbn; [done|].
  destruct s as [|c s]; [by destruct n|]. apply IH.
Qed.

(** A suffix taken from position [a] on, when it has [n] characters, is
    the slice of the last [n] characters. *)
Lemma str_slice_suffix (a : Z) (s t : string) :
  str_slice (Some a) None s = t ->
  t <> "" ->
  str_slice (Some (- Z.of_nat (String.length t))) None s = t.
Proof.
  unfold str_slice. cbn [from_option].
  remember (Z.of_nat (String.length s)) as len eqn:Hlen.
  remember (clamp_index len a) as i eqn:Hi.
  assert (Hrange : 0 <= i <= len).
  { subst i; unfold clamp_index; destruct (Z.ltb_spec a 0); lia. }
  intros Ht Hne.
  rewrite str_take_all in Ht by (rewrite str_drop_length; lia).
  assert (Hlt : String.length t = (String.length s - Z.to_nat i)%nat)
    by (rewrite <- Ht; apply str_drop_length).
  assert (0 < String.length t)%nat by (destruct t; [done | cbn; lia]).
  unfold clamp_index.
  assert ((- Z.of_nat (String.length t) <? 0) = true) as -> by lia.
  replace (Z.max (len + - Z.of_nat (String.length t)) 0) with i by lia.
  rewrite str_take_all by (rewrite str_drop_length; lia). done.
Qed.

Section ValidationFacts.

Context (gdalinfo_ok : string -> bool)
        (latitude_in_text : string -> option Q)
        (hasValidChkSum isValidTfw : string -> FS -> bool).

Local Abbreviation check := (check_latitude latitude_in_text).
Local Abbreviation validate :=
  (validate_file gdalinfo_ok latitude_in_text hasValidChkSum isValidTfw).

Lemma check_latitude_zero (isSouth : bool) (outputPath content : string)
  (latitude : Q) (fs : FS) :
  fileExtension outputPath = ".xml" ->
  fs !! outputPath = Some content ->
  latitude_in_text content = Some latitude ->
  (latitude == 0)%Q ->
  check isSouth outputPath fs
  = (delete (str_slice None (Some (-4)) outputPath) (delete outputPath fs),
     Ret tt).
Proof.
  intros Hext Hfile Hlat Hzero.
  unfold check_latitude. rewrite Hext. cbn [String.eqb Ascii.eqb Bool.eqb].
  unfold mbind, stpy_bind, st_gets, st_get, st_lift, path_exists,
    parseLatitude, os_remove, xmlToImage.
  cbn beta iota.
  rewrite bool_decide_true by (rewrite Hfile; eauto). cbn beta iota.
  rewrite Hfile, Hlat, (hasGoodLat_zero _ _ Hzero). cbn [negb]. cbn beta iota.
  rewrite Hfile, Hext. cbn.
  set (image := str_slice None (Some (-4)) outputPath).
  destruct (delete outputPath fs !! image) as [c|] eqn:Himage.
  - rewrite bool_decide_true by eauto. cbn beta iota. by rewrite Himage.
  - rewrite bool_decide_false by (by intros [? ?]).
    rewrite (delete_id _ _ Himage). reflexivity.
Qed.

Lemma xml_extension_tail (outputPath : string) :
  fileExtension outputPath = ".xml" ->
  str_slice (Some (-4)) None outputPath = ".xml".
Proof.
  unfold fileExtension, splitext.
  destruct (_ && _); cbn [snd]; [|done].
  intros H. by apply (str_slice_suffix _ _ _ H).
Qed.

Lemma xml_extension_not_image (outputPath : string) :
  fileExtension outputPath = ".xml" -> hasImageExtension outputPath = false.
Proof. unfold hasImageExtension. by intros ->. Qed.

Lemma validate_file_latitude_zero (isSouth hasXml hasTfw : bool)
  (outputPath content : string) (latitude : Q) (fs : FS)
  (failedFiles : list string) :
  fileExtension outputPath = ".xml" ->
  fs !! outputPath = Some content ->
  content <> "" ->
  latitude_in_text content = Some latitude ->
  (latitude == 0)%Q ->
  validate false isSouth hasXml hasTfw outputPath failedFiles fs
  = (delete (str_slice None (Some (-4)) outputPath) (delete outputPath fs),
     Ret failedFiles).
Proof.
  intros Hext Hfile Hne Hlat Hzero.
  unfold validate_file.
  rewrite (xml_extension_not_image _ Hext), (xml_extension_tail _ Hext), Hext.
  cbn [String.eqb Ascii.eqb Bool.eqb negb andb].
  rewrite !andb_false_r.
  unfold mbind at 1. unfold stpy_bind at 1. unfold st_gets at 1.
  unfold fileNonEmpty. rewrite Hfile.
  assert ((content =? "")%string = false) as -> by by apply String.eqb_neq.
  cbn [negb]. cbn beta iota.
  unfold mbind at 1. unfold stpy_bind at 1. unfold mret at 1. unfold stpy_ret at 1.
  cbn beta iota.
  unfold mbind at 1. unfold stpy_bind at 1.
  rewrite (check_latitude_zero _ _ _ _ _ Hext Hfile Hlat Hzero).
  reflexivity.
Qed.

End ValidationFacts.

(** A latitude of exactly zero fails the hemisphere test under both
    settings.  So when validation runs on a non-empty sidecar whose text
    declares latitude 0, the sidecar is removed together with the file
    [xmlToImage] names for it, whichever hemisphere was asked for (and the
    list of failed files is left as it was). *)
Lemma latitude_zero_fails_both_hemispheres_and_is_wiped
  (gdalinfo_ok : string -> bool) (latitude_in_text : string -> option Q)
  (hasValidChkSum isValidTfw : string -> FS -> bool)
  (isSouth hasXml hasTfw : bool) (outputPath content : string)
  (latitude : Q) (fs : FS) (failedFiles : list string) :
  fileExtension outputPath = ".xml" ->
  fs !! outputPath = Some content ->
  content <> "" ->
  latitude_in_text content = Some latitude ->
  (latitude == 0)%Q ->
  hasGoodLat latitude true = false
  /\ hasGoodLat latitude false = false
  /\ exists (imageFile : string) (fs' : FS),
       xmlToImage outputPath = Ret imageFile
       /\ validate_file gdalinfo_ok latitude_in_text hasValidChkSum isValidTfw
            false isSouth hasXml hasTfw outputPath failedFiles fs
          = (fs', Ret failedFiles)
       /\ fs' !! outputPath = None
       /\ fs' !! imageFile = None
       /\ forall p, p <> outputPath -> p <> imageFile -> fs' !! p = fs !! p.
Proof.
  intros Hext Hfile Hne Hlat Hzero.
  split; [by apply hasGoodLat_zero|]. split; [by apply hasGoodLat_zero|].
  exists (str_slice None (Some (-4)) outputPath), 
    (delete (str_slice None (Some (-4)) outputPath) (delete outputPath fs)).
  split; [unfold xmlToImage; by rewrite Hext|].
  split; [by eapply validate_file_latitude_zero|].
  split.
  - rewrite lookup_delete. case_decide; [done|]. apply lookup_delete_eq.
  - split; [apply lookup_delete_eq|].
    intros p Hp1 Hp2. by rewrite !lookup_delete_ne.
Qed.

Example latitude_zero_wiped_example :
  let fs : FS := {[ "out/DMS_1_00042_V02.tif.xml" := "<PointLatitude>0.0</PointLatitude>";
                    "out/DMS_1_00042_V02.tif" := "raster" ]} in
  let wiped :=
    validate_file (fun _ => true) (fun _ => Some 0%Q) (fun _ _ => true)
      (fun _ _ => true) false true true false
      "out/DMS_1_00042_V02.tif.xml" [] fs in
  xmlToImage "out/DMS_1_00042_V02.tif.xml" = Ret "out/DMS_1_00042_V02.tif"
  /\ wiped.2 = Ret []
  /\ wiped.1 !! "out/DMS_1_00042_V02.tif.xml" = None
  /\ wiped.1 !! "out/DMS_1_00042_V02.tif" = None.
Proof.
  cbn zeta.
  destruct (latitude_zero_fails_both_hemispheres_and_is_wiped
              (fun _ => true) (fun _ => Some 0%Q) (fun _ _ => true)
              (fun _ _ => true) true true false
              "out/DMS_1_00042_V02.tif.xml"
              "<PointLatitude>0.0</PointLatitude>" 0%Q
              {[ "out/DMS_1_00042_V02.tif.xml" := "<PointLatitude>0.0</PointLatitude>";
                 "out/DMS_1_00042_V02.tif" := "raster" ]} [])
    as (_ & _ & image & fs' & Himage & Hrun & Hxml & Hraster & _).
  - vm_compute. reflexivity.
  - vm_compute. reflexivity.
  - discriminate.
  - reflexivity.
  - reflexivity.
  - vm_compute in Himage. injection Himage as <-.
    rewrite Hrun. cbn [fst snd]. auto.
Defined.

(** ** The spacing analysis *)

Lemma list_get_nth {A : Type} (l : list A) (i : nat) (d : A) :
  (i < length l)%nat -> list_get l i = Ret (nth i l d).
Proof.
  intros Hi. unfold list_get.
  destruct (l !! i) as [x|] eqn:Hx.
  - by rewrite (nth_lookup_Some _ _ d _ Hx).
  - apply lookup_ge_None in Hx. lia.
Qed.


Section SpacingFacts.

Variable orthos : list (bbox * Z).

Local Abbreviation n := (numOrthos orthos).
Local Abbreviation area_at := (overlap_area orthos).
Local Abbreviation ratio_at := (overlap_ratio orthos).
Local Abbreviation frame_at := (fun i => nth i (frames orthos) 0).











Lemma pass_defined_not_zero (interval : nat) :
  pass_defined orthos interval -> pass_divides_by_zero orthos interval -> False.
Proof.
  intros [Harea Hpairs] [Hempty|(i & Hi & Hz)]; [done|].
  by apply (Harea i).
Qed.

(** *** The [while] loop *)

Lemma spacing_loop_stops (fuel interval : nat) (meanRatio : Q)
  (breaks : list Z) :
  Qltb MAX_RATIO meanRatio = false ->
  spacing_loop orthos fuel interval meanRatio breaks
  = Some (Ret (interval, meanRatio, breaks)).
Proof. intros H. destruct fuel; cbn; by rewrite H. Qed.

Lemma spacing_loop_turn (fuel interval : nat) (meanRatio : Q)
  (breaks : list Z) :
  Qltb MAX_RATIO meanRatio = true ->
  (S interval < n)%nat ->
  spacing_loop orthos (S fuel) interval meanRatio breaks
  = match spacing_pass orthos (S interval) breaks with
    | Raise e => Some (Raise e)
    | Ret (meanRatio', breaks') =>
        spacing_loop orthos fuel (S interval) meanRatio' breaks'
    end.
Proof.
  intros Hcond Hlt. cbn [spacing_loop]. rewrite Hcond.
  destruct (Nat.leb_spec n (S interval)); [lia | done].
Qed.

Lemma spacing_loop_too_few (fuel interval : nat) (meanRatio : Q)
  (breaks : list Z) :
  Qltb MAX_RATIO meanRatio = true ->
  (n <= S interval)%nat ->
  spacing_loop orthos (S fuel) interval meanRatio breaks
  = Some (Raise too_few_images).
Proof.
  intros Hcond Hlt. cbn [spacing_loop]. rewrite Hcond.
  destruct (Nat.leb_spec n (S interval)); [done | lia].
Qed.

(** The loop never runs out of the fuel [getImageSpacing] gives it. *)
Lemma spacing_loop_fuel (fuel : nat) :
  forall (interval : nat) (meanRatio : Q) (breaks : list Z),
    (interval <= n)%nat ->
    (n < fuel + interval)%nat ->
    spacing_loop orthos fuel interval meanRatio breaks <> None.
Proof.
  induction fuel as [|fuel IH]; intros interval meanRatio breaks Hle Hfuel;
    [lia|].
  destruct (Qltb MAX_RATIO meanRatio) eqn:Hcond.
  2:{ by rewrite spacing_loop_stops. }
  destruct (Nat.le_gt_cases n (S interval)) as [Hfew|Hmore].
  { by rewrite spacing_loop_too_few. }
  rewrite spacing_loop_turn by done.
  destruct (spacing_pass orthos (S interval) breaks) as [[m' b']|e]; [|done].
  apply IH; lia.
Qed.





End SpacingFacts.

(** *** Areas *)






(** ** The spacing analysis in binary64 *)

(** *** Comparisons *)

Lemma b64_compare_antisym (x y : spec_float) :
  SFcompare y x = option_map CompOpp (SFcompare x y).
Proof.
  destruct x as [sx|sx| |sx mx ex], y as [sy|sy| |sy my ey];
    try done; try (by destruct sx); try (by destruct sy);
    try (by destruct sx, sy).
  cbn [SFcompare option_map]. f_equal.
  rewrite (Z.compare_antisym ex ey).
  pose proof (Pos.compare_cont_antisym mx my Eq) as Hm. cbn [CompOpp] in Hm.
  destruct sx, sy; try done;
    destruct (ex ?= ey); cbn [CompOpp]; try done;
    by rewrite <- Hm, ?CompOpp_involutive.
Qed.

Lemma b64_compare_none (x y : spec_float) :
  SFcompare x y = None ->
  Binary64.is_nan x = true \/ Binary64.is_nan y = true.
Proof.
  destruct x as [sx|sx| |sx mx ex], y as [sy|sy| |sy my ey];
    cbn; auto; try discriminate.
Qed.

(** A number that does not exceed another is at most that number, unless
    one of the two is not a number. *)
Lemma b64_not_above (x y : spec_float) :
  Binary64.ltb y x = false ->
  Binary64.is_nan y = false ->
  Binary64.is_nan x = true \/ Binary64.leb x y = true.
Proof.
  unfold Binary64.ltb, Binary64.leb, SFltb, SFleb.
  rewrite (b64_compare_antisym x y).
  intros Hlt Hy. destruct (SFcompare x y) as [c|] eqn:Hc.
  - right. by destruct c.
  - apply b64_compare_none in Hc as [Hx|Hy']; [by left | congruence].
Qed.

(** Above [0.8] is not below [0.4]. *)
Lemma b64_above_max_not_below_min (x : spec_float) :
  Binary64.ltb Binary64.MAX_RATIO x = true ->
  Binary64.ltb x Binary64.MIN_RATIO = false.
Proof.
  unfold Binary64.ltb, SFltb, Binary64.MAX_RATIO, Binary64.MIN_RATIO.
  destruct x as [sx|sx| |sx mx ex]; try done; try (by destruct sx).
  cbn [SFcompare]. destruct sx; [done|].
  destruct (Z.compare_spec (-53) ex) as [<-|Hlt|Hgt]; [| |done].
  - done.
  - intros _. destruct (Z.compare_spec ex (-54)); try done; lia.
Qed.

Section SpacingFacts64.

Variable orthos : list (Binary64.bbox * Z).

Local Abbreviation n := (Binary64.numOrthos orthos).
Local Abbreviation area_at := (Binary64.overlap_area orthos).
Local Abbreviation ratio_at := (Binary64.overlap_ratio orthos).
Local Abbreviation box := (Binary64.box_at orthos).
Local Abbreviation mean := (Binary64.mean_overlap_ratio orthos).
Local Abbreviation defined := (Binary64.pass_defined orthos).
Local Abbreviation no_box :=
  (Binary64.BBox Binary64.zero Binary64.zero Binary64.zero Binary64.zero).

Lemma b64_bboxes_length : length (Binary64.bboxes orthos) = n.
Proof. unfold Binary64.bboxes, Binary64.numOrthos. by rewrite length_fmap. Qed.

Lemma b64_frames_length : length (Binary64.frames orthos) = n.
Proof. unfold Binary64.frames, Binary64.numOrthos. by rewrite length_fmap. Qed.

(** One pair whose earlier frame has a non-zero area. *)
Lemma b64_pass_body_defined (interval i : nat) (meanRatio : spec_float)
  (count : nat) (breaks : list Z) :
  (i + interval < n)%nat ->
  Binary64.eqb (Binary64.getBboxArea (box i)) Binary64.zero = false ->
  exists breaks' : list Z,
    Binary64.pass_body orthos interval i (meanRatio, count, breaks)
    = Ret (if Binary64.ltb Binary64.zero (area_at interval i)
           then Binary64.add meanRatio (ratio_at interval i) else meanRatio,
           if Binary64.ltb Binary64.zero (area_at interval i)
           then S count else count,
           breaks').
Proof.
  intros Hi Harea. unfold Binary64.pass_body.
  rewrite (list_get_nth _ i no_box) by (rewrite b64_bboxes_length; lia).
  rewrite (list_get_nth _ (i + interval) no_box)
    by (rewrite b64_bboxes_length; lia).
  cbn [mbind py_bind]. fold (box i) (box (i + interval)).
  unfold Binary64.py_div. rewrite Harea. cbn [mbind py_bind].
  fold (area_at interval i). fold (ratio_at interval i).
  rewrite (list_get_nth _ i 0) by (rewrite b64_frames_length; lia).
  destruct (Binary64.ltb Binary64.zero (area_at interval i));
    destruct ((interval =? 1)%nat
              && Binary64.leb (area_at interval i) Binary64.zero);
    cbn [mbind py_bind]; by eexists.
Qed.

Lemma b64_pass_body_zero_area (interval i : nat) (s : Binary64.pass_state) :
  (i + interval < n)%nat ->
  Binary64.eqb (Binary64.getBboxArea (box i)) Binary64.zero = true ->
  Binary64.pass_body orthos interval i s = Raise ZeroDivisionError.
Proof.
  intros Hi Harea. destruct s as [[meanRatio count] breaks].
  unfold Binary64.pass_body.
  rewrite (list_get_nth _ i no_box) by (rewrite b64_bboxes_length; lia).
  rewrite (list_get_nth _ (i + interval) no_box)
    by (rewrite b64_bboxes_length; lia).
  cbn [mbind py_bind]. fold (box i).
  unfold Binary64.py_div. by rewrite Harea.
Qed.

(** A run of the inner loop over pairs whose earlier frame has a
    non-zero area: the ratios of the pairs of positive intersection area
    are added up from the left, in the order of the pairs, and
    counted. *)
Lemma b64_pass_for_defined (interval : nat) (idxs : list nat) :
  forall (meanRatio : spec_float) (count : nat) (breaks : list Z),
    Forall (fun i =>
              (i + interval < n)%nat
              /\ Binary64.eqb (Binary64.getBboxArea (box i)) Binary64.zero
                 = false) idxs ->
    exists breaks' : list Z,
      py_for idxs (Binary64.pass_body orthos interval)
             (meanRatio, count, breaks)
      = Ret (fold_left Binary64.add
               (ratio_at interval <$>
                  filter (fun i =>
                            Binary64.ltb Binary64.zero (area_at interval i)
                            = true) idxs)
               meanRatio,
             (count + length
                (filter (fun i =>
                           Binary64.ltb Binary64.zero (area_at interval i)
                           = true) idxs))%nat,
             breaks').
Proof.
  induction idxs as [|i idxs IH]; intros meanRatio count breaks Hall.
  - exists breaks. cbn. by rewrite Nat.add_0_r.
  - apply Forall_cons in Hall as [[Hi Harea] Hall].
    destruct (b64_pass_body_defined interval i meanRatio count breaks Hi Harea)
      as [breaks1 Hbody].
    cbn [py_for]. rewrite Hbody. cbn [mbind py_bind].
    rewrite filter_cons.
    destruct (Binary64.ltb Binary64.zero (area_at interval i)) eqn:Hpos.
    + rewrite decide_True by done.
      destruct (IH (Binary64.add meanRatio (ratio_at interval i)) (S count)
                   breaks1 Hall) as [breaks' ->].
      exists breaks'. cbn. by rewrite Nat.add_succ_r.
    + rewrite decide_False by done.
      destruct (IH meanRatio count breaks1 Hall) as [breaks' ->].
      by exists breaks'.
Qed.

Lemma b64_pass_for_zero_area (interval : nat) (idxs : list nat) :
  forall (s : Binary64.pass_state),
    Forall (fun i => (i + interval < n)%nat) idxs ->
    Exists (fun i =>
              Binary64.eqb (Binary64.getBboxArea (box i)) Binary64.zero = true)
           idxs ->
    py_for idxs (Binary64.pass_body orthos interval) s
    = Raise ZeroDivisionError.
Proof.
  induction idxs as [|i idxs IH]; intros s Hall Hex.
  - by apply Exists_nil in Hex.
  - apply Forall_cons in Hall as [Hi Hall]. cbn [py_for].
    destruct (Binary64.eqb (Binary64.getBboxArea (box i)) Binary64.zero)
      eqn:Harea.
    + by rewrite b64_pass_body_zero_area.
    + destruct s as [[meanRatio count] breaks].
      destruct (b64_pass_body_defined interval i meanRatio count breaks
                  Hi Harea) as [breaks1 ->].
      cbn [mbind py_bind]. apply IH; [done|].
      apply Exists_cons in Hex as [Hex|Hex]; [congruence | done].
Qed.

(** A pass that divides by no zero yields the mean of the ratios. *)
Lemma b64_spacing_pass_defined (interval : nat) (breaks : list Z) :
  defined interval ->
  exists breaks' : list Z,
    Binary64.spacing_pass orthos interval breaks
    = Ret (mean interval, breaks').
Proof.
  intros [Harea Hpairs]. unfold Binary64.spacing_pass.
  destruct (b64_pass_for_defined interval (seq 0 (n - interval))
              Binary64.zero 0 breaks) as [breaks' ->].
  { apply Forall_forall. intros i Hi%elem_of_seq. split; [lia|].
    apply Harea. lia. }
  exists breaks'. cbn [mbind py_bind].
  fold (Binary64.overlapping_pairs orthos interval).
  destruct (Binary64.overlapping_pairs orthos interval) as [|p ps] eqn:Hp;
    [done|].
  cbn [length Nat.add Nat.eqb].
  unfold Binary64.mean_overlap_ratio, Binary64.float_sum. by rewrite Hp.
Qed.

(** Any other pass divides by zero. *)
Lemma b64_spacing_pass_not_defined (interval : nat) (breaks : list Z) :
  ~ defined interval ->
  Binary64.spacing_pass orthos interval breaks = Raise ZeroDivisionError.
Proof.
  intros Hnot. unfold Binary64.spacing_pass.
  destruct (Exists_dec
              (fun i => Binary64.eqb (Binary64.getBboxArea (box i))
                                     Binary64.zero = true)
              (seq 0 (n - interval))) as [Hex|Hnex].
  - rewrite b64_pass_for_zero_area; [done | | done].
    apply Forall_forall. intros i Hi%elem_of_seq. lia.
  - assert (Harea : forall i, (i < n - interval)%nat ->
              Binary64.eqb (Binary64.getBboxArea (box i)) Binary64.zero
              = false).
    { intros i Hi. apply not_true_is_false. intros Hz. apply Hnex.
      apply Exists_exists. exists i. split; [apply elem_of_seq; lia | done]. }
    destruct (b64_pass_for_defined interval (seq 0 (n - interval))
                Binary64.zero 0 breaks) as [breaks' ->].
    { apply Forall_forall. intros i Hi%elem_of_seq. split; [lia|].
      apply Harea. lia. }
    cbn [mbind py_bind].
    fold (Binary64.overlapping_pairs orthos interval).
    destruct (Binary64.overlapping_pairs orthos interval) as [|p ps] eqn:Hp;
      [done|].
    exfalso. apply Hnot. split; [done | by rewrite Hp].
Qed.

Lemma b64_pass_defined_dec (interval : nat) :
  defined interval \/ ~ defined interval.
Proof.
  destruct (Exists_dec
              (fun i => Binary64.eqb (Binary64.getBboxArea (box i))
                                     Binary64.zero = true)
              (seq 0 (n - interval))) as [Hex|Hnex].
  - right. intros [Harea _].
    apply Exists_exists in Hex as (i & Hi%elem_of_seq & Hz).
    rewrite Harea in Hz by lia. done.
  - destruct (Binary64.overlapping_pairs orthos interval) as [|p ps] eqn:Hp.
    + right. by intros [_ ?].
    + left. split; [|by rewrite Hp].
      intros i Hi. apply not_true_is_false. intros Hz. apply Hnex.
      apply Exists_exists. exists i. split; [apply elem_of_seq; lia | done].
Qed.

(** *** The [while] loop *)

Lemma b64_loop_stops (fuel interval : nat) (meanRatio : spec_float)
  (breaks : list Z) :
  Binary64.ltb Binary64.MAX_RATIO meanRatio = false ->
  Binary64.spacing_loop orthos fuel interval meanRatio breaks
  = Some (Ret (interval, meanRatio, breaks)).
Proof. intros H. destruct fuel; cbn [Binary64.spacing_loop]; by rewrite H. Qed.

Lemma b64_loop_turn (fuel interval : nat) (meanRatio : spec_float)
  (breaks : list Z) :
  Binary64.ltb Binary64.MAX_RATIO meanRatio = true ->
  (S interval < n)%nat ->
  Binary64.spacing_loop orthos (S fuel) interval meanRatio breaks
  = match Binary64.spacing_pass orthos (S interval) breaks with
    | Raise e => Some (Raise e)
    | Ret (meanRatio', breaks') =>
        Binary64.spacing_loop orthos fuel (S interval) meanRatio' breaks'
    end.
Proof.
  intros Hcond Hlt. cbn [Binary64.spacing_loop]. rewrite Hcond.
  destruct (Nat.leb_spec n (S interval)); [lia | done].
Qed.

Lemma b64_loop_too_few (fuel interval : nat) (meanRatio : spec_float)
  (breaks : list Z) :
  Binary64.ltb Binary64.MAX_RATIO meanRatio = true ->
  (n <= S interval)%nat ->
  Binary64.spacing_loop orthos (S fuel) interval meanRatio breaks
  = Some (Raise too_few_images).
Proof.
  intros Hcond Hlt. cbn [Binary64.spacing_loop]. rewrite Hcond.
  destruct (Nat.leb_spec n (S interval)); [done | lia].
Qed.

(** The loop never runs out of the fuel [getImageSpacing] gives it. *)
Lemma b64_loop_fuel (fuel : nat) :
  forall (interval : nat) (meanRatio : spec_float) (breaks : list Z),
    (interval <= n)%nat ->
    (n < fuel + interval)%nat ->
    Binary64.spacing_loop orthos fuel interval meanRatio breaks <> None.
Proof.
  induction fuel as [|fuel IH]; intros interval meanRatio breaks Hle Hfuel;
    [lia|].
  destruct (Binary64.ltb Binary64.MAX_RATIO meanRatio) eqn:Hcond.
  2:{ by rewrite b64_loop_stops. }
  destruct (Nat.le_gt_cases n (S interval)) as [Hfew|Hmore].
  { by rewrite b64_loop_too_few. }
  rewrite b64_loop_turn by done.
  destruct (Binary64.spacing_pass orthos (S interval) breaks)
    as [[m' b']|e]; [|done].
  apply IH; lia.
Qed.

(** Entered at [j], the loop arrives at the pass for [k] when every
    interval in between is evaluated and found above [MAX_RATIO]. *)
Lemma b64_loop_reaches_pass (fuel : nat) :
  forall (j k : nat) (meanRatio : spec_float) (breaks : list Z),
    Binary64.ltb Binary64.MAX_RATIO meanRatio = true ->
    (j < k < n)%nat ->
    (forall i, (j < i < k)%nat ->
       defined i /\ Binary64.ltb Binary64.MAX_RATIO (mean i) = true) ->
    (k - j <= fuel)%nat ->
    exists breaks' : list Z,
      Binary64.spacing_loop orthos fuel j meanRatio breaks
      = match Binary64.spacing_pass orthos k breaks' with
        | Raise e => Some (Raise e)
        | Ret (meanRatio', breaks'') =>
            Binary64.spacing_loop orthos (fuel - (k - j)) k meanRatio'
                                  breaks''
        end.
Proof.
  induction fuel as [|fuel IH];
    intros j k meanRatio breaks Hcond Hk Hbetween Hfuel; [lia|].
  rewrite b64_loop_turn by (done || lia).
  destruct (decide (k = S j)) as [->|Hne].
  - exists breaks. by replace (S fuel - (S j - j))%nat with fuel by lia.
  - destruct (Hbetween (S j) ltac:(lia)) as [Hdefj Hmean].
    destruct (b64_spacing_pass_defined (S j) breaks Hdefj) as [breaks1 ->].
    destruct (IH (S j) k (mean (S j)) breaks1) as [breaks' ->];
      [done | lia | intros i Hi; apply Hbetween; lia | lia |].
    exists breaks'.
    by replace (S fuel - (k - j))%nat with (fuel - (k - S j))%nat by lia.
Qed.

(** Whatever the loop returns was found that way. *)
Lemma b64_loop_returned (fuel : nat) :
  forall (j k : nat) (meanRatio mk : spec_float) (breaks bk : list Z),
    Binary64.ltb Binary64.MAX_RATIO meanRatio = true ->
    Binary64.spacing_loop orthos fuel j meanRatio breaks
    = Some (Ret (k, mk, bk)) ->
    (j < k < n)%nat
    /\ (forall i, (j < i < k)%nat ->
          defined i /\ Binary64.ltb Binary64.MAX_RATIO (mean i) = true)
    /\ defined k
    /\ mk = mean k
    /\ Binary64.ltb Binary64.MAX_RATIO mk = false.
Proof.
  induction fuel as [|fuel IH]; intros j k meanRatio mk breaks bk Hcond Hrun.
  { cbn in Hrun. by rewrite Hcond in Hrun. }
  destruct (Nat.le_gt_cases n (S j)) as [Hfew|Hmore].
  { by rewrite b64_loop_too_few in Hrun. }
  rewrite b64_loop_turn in Hrun by done.
  destruct (b64_pass_defined_dec (S j)) as [Hdef|Hnot].
  2:{ by rewrite b64_spacing_pass_not_defined in Hrun. }
  destruct (b64_spacing_pass_defined (S j) breaks Hdef) as [breaks1 Hpass].
  rewrite Hpass in Hrun.
  destruct (Binary64.ltb Binary64.MAX_RATIO (mean (S j))) eqn:Hmean.
  - apply IH in Hrun as (Hk & Hbetween & Hdefk & Hmk & Hstop); [|done].
    split; [lia|]. split; [|done].
    intros i Hi. destruct (decide (i = S j)) as [->|]; [done|].
    apply Hbetween. lia.
  - rewrite b64_loop_stops in Hrun by done.
    injection Hrun as <- <- <-.
    split; [lia|]. split; [intros i Hi; lia|]. done.
Qed.

(** What [getImageSpacing] returns, read off the search. *)
Lemma b64_getImageSpacing_returned (interval : nat) (breaks : list Z) :
  Binary64.getImageSpacing orthos = Some (Ret (interval, breaks)) ->
  exists k : nat,
    Binary64.search_reaches orthos k
    /\ defined k
    /\ Binary64.ltb Binary64.MAX_RATIO (mean k) = false
    /\ interval
       = (if Binary64.ltb (mean k) Binary64.MIN_RATIO && (1 <? k)%nat
          then (k - 1)%nat else k).
Proof.
  unfold Binary64.getImageSpacing. intros Hrun.
  destruct (Binary64.spacing_loop _ _ _ _ _) as [[[[k mk] bk]|e]|] eqn:Hloop;
    [|done|done].
  apply b64_loop_returned in Hloop as (Hk & Hbelow & Hdef & -> & Hstop);
    [|done].
  injection Hrun as <- _. exists k.
  split; [|done]. split; [lia|]. intros j Hj. apply Hbelow. lia.
Qed.

(** The search arrives at the pass for [k]. *)
Lemma b64_getImageSpacing_arrives (k : nat) :
  Binary64.search_reaches orthos k ->
  exists breaks' : list Z,
    Binary64.spacing_loop orthos (S n) 0 Binary64.one []
    = match Binary64.spacing_pass orthos k breaks' with
      | Raise e => Some (Raise e)
      | Ret (meanRatio, breaks) =>
          Binary64.spacing_loop orthos (S n - k) k meanRatio breaks
      end.
Proof.
  intros [Hk Hbelow].
  destruct (b64_loop_reaches_pass (S n) 0 k Binary64.one [])
    as [breaks' Hrun];
    [done | lia | intros i Hi; apply Hbelow; lia | lia |].
  exists breaks'. by rewrite Hrun, Nat.sub_0_r.
Qed.

End SpacingFacts64.

(** C1.  In binary64, [getImageSpacing] always comes back (with a result
    or an exception), and it returns [interval] exactly when there is an
    interval [k >= 1] such that: every interval from 1 up to [k] was
    evaluated, the mean over the pairs of positive intersection area of
    intersection area over earlier-frame area exceeded 0.8 at each
    interval below [k] and does not exceed 0.8 at [k]; and [interval] is
    [k - 1] if that mean at [k] is below 0.4 and [k > 1], and [k]
    otherwise.  Nothing is checked after the decrement.  A mean that
    does not exceed 0.8 is at most 0.8 or not a number. *)
Theorem getImageSpacing_search_and_backoff
  (orthos : list (Binary64.bbox * Z)) :
  Binary64.getImageSpacing orthos <> None
  /\ forall interval : nat,
       (exists breaks,
          Binary64.getImageSpacing orthos = Some (Ret (interval, breaks)))
       <-> exists k : nat,
             let mean := Binary64.mean_overlap_ratio orthos k in
             Binary64.search_reaches orthos k
             /\ Binary64.pass_defined orthos k
             /\ Binary64.ltb Binary64.MAX_RATIO mean = false
             /\ (Binary64.leb mean Binary64.MAX_RATIO = true
                 \/ Binary64.is_nan mean = true)
             /\ ((Binary64.ltb mean Binary64.MIN_RATIO = true
                  /\ (1 < k)%nat /\ interval = (k - 1)%nat)
                 \/ (~ (Binary64.ltb mean Binary64.MIN_RATIO = true
                        /\ (1 < k)%nat)
                     /\ interval = k)).
Proof.
  split.
  { unfold Binary64.getImageSpacing.
    pose proof (b64_loop_fuel orthos (S (Binary64.numOrthos orthos)) 0
                  Binary64.one [] ltac:(lia) ltac:(lia)) as Hfuel.
    destruct (Binary64.spacing_loop _ _ _ _ _) as [[[[k mk] bk]|e]|]; done. }
  intros interval. split.
  - intros [breaks Hrun].
    apply b64_getImageSpacing_returned in Hrun
      as (k & Hreach & Hdef & Hstop & ->).
    exists k. cbn zeta. split; [done|]. split; [done|]. split; [done|].
    split.
    { destruct (b64_not_above _ _ Hstop eq_refl); auto. }
    destruct (Binary64.ltb (Binary64.mean_overlap_ratio orthos k)
                Binary64.MIN_RATIO) eqn:Hmin;
      destruct (Nat.ltb_spec 1 k) as [H1|H1]; cbn [andb].
    + by left.
    + right. split; [|done]. intros [_ ?]. lia.
    + right. split; [|done]. by intros [? _].
    + right. split; [|done]. intros [_ ?]. lia.
  - intros (k & Hreach & Hdef & Hstop & _ & Hback). cbn zeta in *.
    unfold Binary64.getImageSpacing.
    destruct (b64_getImageSpacing_arrives orthos k Hreach) as [breaks1 ->].
    destruct (b64_spacing_pass_defined orthos k breaks1 Hdef) as [breaks' ->].
    rewrite b64_loop_stops by done.
    eexists. do 2 f_equal. f_equal.
    destruct Hback as [(Hmin & H1 & ->)|[Hno ->]].
    + rewrite Hmin. by destruct (Nat.ltb_spec 1 k); [|lia].
    + destruct (Binary64.ltb (Binary64.mean_overlap_ratio orthos k)
                  Binary64.MIN_RATIO) eqn:Hmin; [|done].
      destruct (Nat.ltb_spec 1 k); [|done].
      exfalso. by apply Hno.
Qed.

(** Two frames of one and the same footprint, [-2^1023 .. 2^1023] wide:
    the width overflows to infinity, the one ratio is infinity over
    infinity, and the mean is not a number.  It does not exceed 0.8, so
    the search stops at interval 1 and returns it; but it is not at most
    0.8 either. *)
Lemma returned_mean_ratio_is_not_a_number :
  let huge := S754_finite false 4503599627370496 971 in
  let wide := Binary64.BBox (SFopp huge) huge Binary64.zero Binary64.one in
  let orthos := [(wide, 0); (wide, 1)] in
  Binary64.getImageSpacing orthos = Some (Ret (1%nat, []))
  /\ Binary64.mean_overlap_ratio orthos 1 = S754_nan
  /\ Binary64.ltb Binary64.MAX_RATIO (Binary64.mean_overlap_ratio orthos 1)
     = false
  /\ Binary64.leb (Binary64.mean_overlap_ratio orthos 1) Binary64.MAX_RATIO
     = false
  /\ ~ Binary64.returned_mean_at_most_max orthos.
Proof.
  cbn zeta. do 4 (split; [by vm_compute|]).
  intros Hstated.
  destruct (Hstated 1%nat [] ltac:(by vm_compute))
    as (k & [Hk _] & _ & Hle & _).
  assert (k = 1%nat) as -> by (cbn in Hk; lia).
  vm_compute in Hle. discriminate.
Qed.

(** Four frames, each shifted by a fifth of its width.  Every ratio at
    interval 1 is 0.8, but their sum divided by three is the next number
    above 0.8: the search goes on to interval 2 and returns it. *)
Example getImageSpacing_rounding_decides :
  let box (x0 x1 : Z) := Binary64.box_of_Z x0 x1 0 10 in
  let orthos := [(box 0 10, 0); (box 2 12, 1); (box 4 14, 2); (box 6 16, 3)] in
  Binary64.getImageSpacing orthos = Some (Ret (2%nat, []))
  /\ Binary64.overlap_ratio orthos 1 <$> [0; 1; 2]%nat
     = [Binary64.MAX_RATIO; Binary64.MAX_RATIO; Binary64.MAX_RATIO]
  /\ Binary64.mean_overlap_ratio orthos 1
     = S754_finite false 7205759403792795 (-53)
  /\ Binary64.ltb Binary64.MAX_RATIO (Binary64.mean_overlap_ratio orthos 1)
     = true.
Proof. cbn zeta. by vm_compute. Qed.







(** ** Batched transport *)

Lemma st_for_app {S A B : Type} (xs ys : list A) (body : A -> B -> stpy S B)
  (acc : B) (s : S) :
  st_for (xs ++ ys) body acc s
  = match st_for xs body acc s with
    | (s', Ret acc') => st_for ys body acc' s'
    | (s', Raise e) => (s', Raise e)
    end.
Proof.
  revert acc s. induction xs as [|x xs IH]; intros acc s; [done|].
  cbn [app st_for]. unfold mbind, stpy_bind.
  destruct (body x acc s) as [s' [acc'|e]]; [apply IH | done].
Qed.

Lemma chunk_sizes_full (b q r : nat) :
  (0 < b)%nat -> (r < b)%nat ->
  chunk_sizes b (b * q + r)
  = replicate q b ++ (if (r =? 0)%nat then [] else [r]).
Proof.
  intros Hb Hr. unfold chunk_sizes.
  replace ((b * q + r) / b)%nat with q
    by (apply (Nat.div_unique _ _ _ r); lia).
  replace ((b * q + r) mod b)%nat with r
    by (apply (Nat.mod_unique _ _ q); lia).
  done.
Qed.

Lemma omap_ext_in {A B : Type} (f g : A -> option B) (l : list A) :
  (forall x, x ∈ l -> f x = g x) -> omap f l = omap g l.
Proof.
  induction l as [|x l IH]; intros Hfg; [done|]. cbn.
  rewrite (Hfg x) by (by left). rewrite IH; [done|].
  intros y Hy. apply Hfg. by right.
Qed.

Lemma omap_seq_zip {A B C : Type} (h : A -> B -> option C) (xs : list A)
  (ys : list B) :
  length xs = length ys ->
  omap (fun i => x ← xs !! i; y ← ys !! i; h x y) (seq 0 (length xs))
  = omap (fun xy => h xy.1 xy.2) (zip xs ys).
Proof.
  revert ys. induction xs as [|x xs IH] using rev_ind; intros ys Hlen.
  { by destruct ys. }
  destruct ys as [|y ys _] using rev_ind.
  { rewrite length_app in Hlen. cbn in Hlen. lia. }
  rewrite !length_app in Hlen. cbn in Hlen.
  rewrite zip_with_app by lia. rewrite length_app. cbn [length].
  rewrite Nat.add_1_r, seq_S, !omap_app. cbn [Nat.add]. f_equal.
  - rewrite <- IH by lia. apply omap_ext_in. intros i Hi%elem_of_seq.
    by rewrite !lookup_app_l by lia.
  - cbn. rewrite !lookup_app_r by lia.
    replace (length xs - length ys)%nat with 0%nat by lia.
    by rewrite Nat.sub_diag.
Qed.

Section TransportFacts.

Context (curl : list string -> FS -> FS).
Context (batchSize : Z) (dryRun : bool) (files urls : list string).
Hypothesis batch_positive : 1 <= batchSize.
Hypothesis same_length : length files = length urls.

Local Abbreviation body := (fetch_body curl batchSize dryRun files urls).
Local Abbreviation state_at :=
  (fetch_state_at curl batchSize dryRun files urls).
Local Abbreviation missing :=
  (missing_when_checked curl batchSize dryRun files urls).
Local Abbreviation pending :=
  (pending_urls curl batchSize dryRun files urls).

(** One iteration, with the lookups resolved. *)
Lemma fetch_body_step (j : nat) (file url : string) (cmd : list string)
  (count : Z) (issued : list (list string)) (fs : FS) :
  files !! j = Some file ->
  urls !! j = Some url ->
  body j (cmd, count, issued) fs
  = let absent := negb (fileNonEmpty file fs) in
    let cmd' := if absent then cmd ++ [url] else cmd in
    let count' := if absent then count + 1 else count in
    if ((batchSize <=? count')
        || (Z.of_nat j =? Z.of_nat (length files) - 1))
       && (0 <? count')
    then (if dryRun then fs else curl cmd' fs,
          Ret ([], 0, issued ++ [cmd']))
    else (fs, Ret (cmd', count', issued)).
Proof.
  intros Hfile Hurl. unfold fetch_body, list_get.
  rewrite Hfile, Hurl.
  unfold mbind, stpy_bind, mret, stpy_ret, st_lift, st_gets, st_modify.
  cbn beta iota zeta.
  destruct (fileNonEmpty file fs); cbn [negb]; cbn beta iota;
    destruct (_ && _); try done; by destruct dryRun.
Qed.

Lemma state_at_succ (i : nat) (fs : FS) :
  state_at (S i) fs
  = match state_at i fs with
    | (fs', Ret acc) => body i acc fs'
    | (fs', Raise e) => (fs', Raise e)
    end.
Proof.
  unfold fetch_state_at. rewrite seq_S, st_for_app. cbn [Nat.add].
  destruct (st_for _ _ _ _) as [fs' [acc|e]]; [|done].
  cbn [st_for]. unfold mbind, stpy_bind, mret, stpy_ret.
  by destruct (body i acc fs') as [fs'' [acc'|e]].
Qed.

Lemma pending_succ (i : nat) (fs : FS) :
  pending fs (S i)
  = pending fs i ++ (if missing fs i then option_list (urls !! i) else []).
Proof.
  unfold pending_urls. rewrite seq_S, omap_app. cbn [Nat.add].
  f_equal. cbn.
  destruct (missing_when_checked _ _ _ _ _ _ _); [|done].
  by destruct (urls !! i).
Qed.

(** Before the last iteration: the commands issued are all full, the
    one being built is not, and together they name the files found
    missing so far. *)
Lemma fetch_state_before_last (fs : FS) (i : nat) :
  (i < length files)%nat ->
  exists (fs' : FS) (cmd : list string) (issued : list (list string)),
    state_at i fs = (fs', Ret (cmd, Z.of_nat (length cmd), issued))
    /\ concat issued ++ cmd = pending fs i
    /\ Forall (fun c => length c = Z.to_nat batchSize) issued
    /\ Z.of_nat (length cmd) < batchSize.
Proof.
  induction i as [|i IH]; intros Hi.
  { exists fs, [], []. repeat split; [constructor | cbn; lia]. }
  destruct IH as (fs' & cmd & issued & Hstate & Hcat & Hfull & Hcmd); [lia|].
  destruct (lookup_lt_is_Some_2 files i ltac:(lia)) as [file Hfile].
  destruct (lookup_lt_is_Some_2 urls i ltac:(lia)) as [url Hurl].
  rewrite state_at_succ, Hstate, (fetch_body_step _ _ _ _ _ _ _ Hfile Hurl).
  rewrite pending_succ. unfold missing_when_checked.
  rewrite Hfile, Hstate, Hurl. cbn [fst option_list option_rect]. cbn zeta.
  assert (Hnotlast : (Z.of_nat i =? Z.of_nat (length files) - 1) = false)
    by lia.
  rewrite Hnotlast, orb_false_r.
  destruct (negb (fileNonEmpty file fs')).
  - destruct (Z.leb_spec batchSize (Z.of_nat (length cmd) + 1)) as [Hge|Hlt].
    + assert ((0 <? Z.of_nat (length cmd) + 1) = true) as -> by lia.
      cbn [andb]. eexists _, [], _. split; [reflexivity|].
      split; [|split; [|cbn; lia]].
      * by rewrite concat_app, app_nil_r, <- Hcat, <- app_assoc; cbn;
          rewrite app_nil_r.
      * apply Forall_app. split; [done|]. constructor; [|done].
        rewrite length_app. cbn. lia.
    + cbn [andb]. eexists _, _, _. split.
      * do 2 f_equal. f_equal. f_equal. rewrite length_app. cbn. lia.
      * split; [by rewrite <- Hcat, app_assoc|].
        split; [done|]. rewrite length_app. cbn. lia.
  - assert ((batchSize <=? Z.of_nat (length cmd)) = false) as -> by lia.
    cbn [andb]. eexists _, _, _. split; [reflexivity|].
    split; [by rewrite app_nil_r|]. done.
Qed.

Lemma pending_from_before (fs : FS) (i : nat) (u : string) :
  u ∈ pending fs i -> exists k, (k < i)%nat /\ urls !! k = Some u.
Proof.
  unfold pending_urls. intros (k & Hk & Hu)%list_elem_of_omap.
  apply elem_of_seq in Hk. exists k. split; [lia|].
  by destruct (missing_when_checked _ _ _ _ _ _ _).
Qed.

(** When the locations are distinct and a transport invocation changes
    only the files whose locations it is given, a file is as it was at the
    start when the loop reaches it. *)
Lemma fetch_state_files_ahead (fs : FS) :
  NoDup urls ->
  (forall cmd fs0 j file url,
      files !! j = Some file -> urls !! j = Some url -> url ∉ cmd ->
      fileNonEmpty file (curl cmd fs0) = fileNonEmpty file fs0) ->
  forall i j file,
    (i <= j < length files)%nat ->
    files !! j = Some file ->
    fileNonEmpty file (state_at i fs).1 = fileNonEmpty file fs.
Proof.
  intros Hdistinct Hlocal.
  induction i as [|i IH]; intros j file Hj Hfile; [done|].
  destruct (fetch_state_before_last fs i ltac:(lia))
    as (fs' & cmd & issued & Hstate & Hcat & _ & _).
  destruct (lookup_lt_is_Some_2 files i ltac:(lia)) as [file_i Hfile_i].
  destruct (lookup_lt_is_Some_2 urls i ltac:(lia)) as [url_i Hurl_i].
  destruct (lookup_lt_is_Some_2 urls j ltac:(lia)) as [url_j Hurl_j].
  specialize (IH j file ltac:(lia) Hfile). rewrite Hstate in IH. cbn [fst] in IH.
  rewrite state_at_succ, Hstate,
    (fetch_body_step _ _ _ _ _ _ _ Hfile_i Hurl_i).
  cbn zeta.
  assert (Hnotin : forall cmd' : list string,
             (forall u, u ∈ cmd' -> u ∈ cmd \/ u = url_i) ->
                                url_j ∉ cmd').
  { intros cmd' Hsub Hin. destruct (Hsub _ Hin) as [Hc| ->].
    - destruct (pending_from_before fs i url_j) as (k & Hk & Hu).
      { rewrite <- Hcat. apply elem_of_app. by right. }
      pose proof (NoDup_lookup _ _ _ _ Hdistinct Hu Hurl_j). lia.
    - pose proof (NoDup_lookup _ _ _ _ Hdistinct Hurl_i Hurl_j). lia. }
  destruct (negb (fileNonEmpty file_i fs')); destruct (_ && _); cbn [fst];
    try done; destruct dryRun; try done;
    rewrite (Hlocal _ _ _ _ _ Hfile Hurl_j); try done; apply Hnotin.
  - intros u [Hu|Hu%list_elem_of_singleton]%elem_of_app; auto.
  - intros u Hu. by left.
Qed.

Lemma pending_urls_initial (fs : FS) :
  NoDup urls ->
  (forall cmd fs0 j file url,
      files !! j = Some file -> urls !! j = Some url -> url ∉ cmd ->
      fileNonEmpty file (curl cmd fs0) = fileNonEmpty file fs0) ->
  pending fs (length files)
  = omap (fun fu : string * string =>
            if fileNonEmpty fu.1 fs then None else Some fu.2)
         (zip files urls).
Proof.
  intros Hdistinct Hlocal.
  rewrite <- (omap_seq_zip
                (fun f u => if fileNonEmpty f fs then None else Some u))
    by done.
  unfold pending_urls. apply omap_ext_in. intros i Hi%elem_of_seq.
  unfold missing_when_checked.
  destruct (lookup_lt_is_Some_2 files i ltac:(lia)) as [file Hfile].
  destruct (lookup_lt_is_Some_2 urls i ltac:(lia)) as [url Hurl].
  rewrite Hfile, Hurl. cbn [mbind option_bind].
  rewrite (fetch_state_files_ahead fs Hdistinct Hlocal i i file) by (done || lia).
  by destruct (fileNonEmpty file fs).
Qed.

(** The whole loop. *)
Lemma fetch_state_final (fs : FS) :
  exists (fs' : FS) (cmd : list string) (count : Z)
         (issued : list (list string)),
    state_at (length files) fs = (fs', Ret (cmd, count, issued))
    /\ concat issued = pending fs (length files)
    /\ Forall (fun c => (1 <= length c <= Z.to_nat batchSize)%nat) issued
    /\ length <$> issued
       = chunk_sizes (Z.to_nat batchSize)
                     (length (pending fs (length files))).
Proof.
  destruct (Nat.eq_dec (length files) 0%nat) as [Hn|Hn].
  { rewrite Hn. exists fs, [], 0, []. repeat split; [constructor|].
    cbn. unfold chunk_sizes. cbn. rewrite Nat.Div0.div_0_l, Nat.Div0.mod_0_l.
    done. }
  destruct (Nat.lt_exists_pred 0%nat (length files) ltac:(lia)) as (k & Hk & _).
  rewrite Hk.
  destruct (fetch_state_before_last fs k ltac:(lia))
    as (fs' & cmd & issued & Hstate & Hcat & Hfull & Hcmd).
  destruct (lookup_lt_is_Some_2 files k ltac:(lia)) as [file Hfile].
  destruct (lookup_lt_is_Some_2 urls k ltac:(lia)) as [url Hurl].
  rewrite state_at_succ, Hstate, (fetch_body_step _ _ _ _ _ _ _ Hfile Hurl).
  rewrite pending_succ. unfold missing_when_checked.
  rewrite Hfile, Hstate, Hurl. cbn [fst option_list option_rect]. cbn zeta.
  assert (Hlast : (Z.of_nat k =? Z.of_nat (length files) - 1) = true)
    by lia.
  rewrite Hlast, orb_true_r. cbn [andb].
  set (B := Z.to_nat batchSize) in *.
  assert (Hq : length (concat issued) = (B * length issued)%nat).
  { clear -Hfull. induction Hfull as [|c cs Hc _ IH]; cbn; [lia|].
    rewrite length_app, IH, Hc. lia. }
  assert (Hsizes : length <$> issued = replicate (length issued) B).
  { clear -Hfull. induction Hfull as [|c cs Hc _ IH]; cbn; [done|].
    by rewrite IH, Hc. }
  destruct (negb (fileNonEmpty file fs')).
  - assert ((0 <? Z.of_nat (length cmd) + 1) = true) as -> by lia.
    eexists _, _, _, _. split; [reflexivity|].
    split; [|split].
    + by rewrite concat_app, <- Hcat, <- app_assoc; cbn; rewrite app_nil_r.
    + apply Forall_app. split.
      * eapply Forall_impl; [exact Hfull|]. cbn. intros c Hc. lia.
      * constructor; [|done]. rewrite length_app. cbn. lia.
    + rewrite fmap_app, Hsizes. cbn [fmap list_fmap].
      rewrite <- Hcat, !length_app, Hq. cbn [length].
      destruct (decide (length cmd + 1 = B)%nat) as [Heq|Hne].
      * replace (B * length issued + length cmd + 1)%nat
          with (B * S (length issued) + 0)%nat by lia.
        rewrite chunk_sizes_full by lia. cbn [Nat.eqb].
        rewrite app_nil_r, Heq.
        change (replicate (S (length issued)) B)
          with (B :: replicate (length issued) B).
        clear. induction (length issued) as [|m IH]; cbn; [done|].
        by rewrite IH.
      * replace (B * length issued + length cmd + 1)%nat
          with (B * length issued + (length cmd + 1))%nat by lia.
        rewrite chunk_sizes_full by lia.
        by destruct (Nat.eqb_spec (length cmd + 1) 0); [lia|].
  - destruct (Z.ltb_spec 0 (Z.of_nat (length cmd))) as [Hpos|Hzero].
    + eexists _, _, _, _. split; [reflexivity|].
      split; [|split].
      * by rewrite concat_app, app_nil_r, <- Hcat; cbn; rewrite app_nil_r.
      * apply Forall_app. split.
        -- eapply Forall_impl; [exact Hfull|]. cbn. intros c Hc. lia.
        -- constructor; [|done]. lia.
      * rewrite fmap_app, Hsizes. cbn [fmap list_fmap].
        rewrite app_nil_r, <- Hcat, !length_app, Hq.
        rewrite chunk_sizes_full by lia.
        by destruct (Nat.eqb_spec (length cmd) 0); [lia|].
    + assert (cmd = []) as -> by (destruct cmd; [done | cbn in *; lia]).
      eexists _, _, _, _. split; [reflexivity|].
      split; [|split].
      * by rewrite app_nil_r, <- Hcat, app_nil_r.
      * eapply Forall_impl; [exact Hfull|]. cbn. intros c Hc. lia.
      * rewrite Hsizes, !app_nil_r, <- Hcat, app_nil_r, Hq.
        replace (B * length issued)%nat with (B * length issued + 0)%nat
          by lia.
        rewrite chunk_sizes_full by lia. by rewrite app_nil_r.
Qed.

End TransportFacts.

(** The file system the loop has arrived at is the one it started from
    with the transport run once for each command issued, in order; in a
    dry run it is the one it started from. *)
Lemma fetch_state_applies_transport (curl : list string -> FS -> FS)
  (batchSize : Z) (dryRun : bool) (files urls : list string) (fs : FS) :
  length files = length urls ->
  forall (i : nat) (fs' : FS) (cmd : list string) (count : Z)
         (issued : list (list string)),
    (i <= length files)%nat ->
    fetch_state_at curl batchSize dryRun files urls i fs
    = (fs', Ret (cmd, count, issued)) ->
    fs' = foldl (fun fs0 command => curl command fs0) fs
                (if dryRun then [] else issued).
Proof.
  intros Hlen. induction i as [|i IH]; intros fs' cmd count issued Hi Hstate.
  { injection Hstate as <- _ _ <-. by destruct dryRun. }
  rewrite state_at_succ in Hstate.
  destruct (fetch_state_at curl batchSize dryRun files urls i fs)
    as [fs1 [[[cmd1 count1] issued1]|e]] eqn:Hprev; [|done].
  specialize (IH fs1 cmd1 count1 issued1 ltac:(lia) eq_refl).
  destruct (lookup_lt_is_Some_2 files i ltac:(lia)) as [file Hfile].
  destruct (lookup_lt_is_Some_2 urls i ltac:(lia)) as [url Hurl].
  rewrite (fetch_body_step _ _ _ _ _ _ _ _ _ _ _ _ Hfile Hurl) in Hstate.
  cbn zeta in Hstate.
  destruct (_ && _) in Hstate.
  - injection Hstate as <- _ _ <-.
    destruct dryRun; [done|]. by rewrite foldl_app, <- IH.
  - by injection Hstate as <- _ _ <-.
Qed.

(** C5.  For a positive batch size and as many files as locations,
    [fetchFilesInBatches] returns normally.  It builds (and logs) a list
    of commands, and what it does to the file system is to run the
    transport once for each of them, in that order, and nothing else; in
    a dry run the commands are built and none is run.  The commands name,
    in order, exactly the locations of the files it found absent or
    empty when it tested them (the files absent or empty at the start,
    when the locations are distinct and an invocation changes only the
    files whose locations it is given); every command names at least one
    and at most [batchSize] locations, all but possibly the last exactly
    [batchSize]; and with [MAX_IN_ONE_CALL] = 100 and 250 files found
    missing there are three invocations, of 100, 100 and 50
    locations. *)
Theorem fetchFilesInBatches_groups_missing_files
  (curl : list string -> FS -> FS) (batchSize : Z) (dryRun : bool)
  (files urls : list string) (fs : FS) :
  1 <= batchSize ->
  length files = length urls ->
  exists (fs' : FS) (issued : list (list string)),
    let pending :=
      pending_urls curl batchSize dryRun files urls fs (length files) in
    let invocations := if dryRun then [] else issued in
    fetchFilesInBatches curl batchSize dryRun files urls fs
      = (fs', Ret issued)
    /\ fs' = foldl (fun fs0 command => curl command fs0) fs invocations
    /\ concat issued = pending
    /\ (NoDup urls ->
        (forall cmd fs0 j file url,
            files !! j = Some file -> urls !! j = Some url -> url ∉ cmd ->
            fileNonEmpty file (curl cmd fs0) = fileNonEmpty file fs0) ->
        pending = omap (fun fu : string * string =>
                          if fileNonEmpty fu.1 fs then None else Some fu.2)
                       (zip files urls))
    /\ Forall (fun cmd => (1 <= length cmd <= Z.to_nat batchSize)%nat) issued
    /\ length <$> issued = chunk_sizes (Z.to_nat batchSize) (length pending)
    /\ (batchSize = MAX_IN_ONE_CALL -> length pending = 250%nat ->
        length <$> issued = [100; 100; 50]%nat
        /\ (dryRun = false -> length <$> invocations = [100; 100; 50]%nat)).
Proof.
  intros Hb Hlen.
  destruct (fetch_state_final curl batchSize dryRun files urls Hb Hlen fs)
    as (fs' & cmd & count & issued & Hstate & Hcat & Hsize & Hchunks).
  exists fs', issued. cbn zeta.
  split; [|split; [|split; [done|split; [|split; [done|split; [done|]]]]]].
  - unfold fetchFilesInBatches. rewrite <- Hlen, Nat.eqb_refl. cbn [negb].
    unfold fetch_state_at in Hstate.
    unfold mbind, stpy_bind. by rewrite Hstate.
  - by eapply (fetch_state_applies_transport curl batchSize dryRun files urls
                 fs Hlen (length files)).
  - by apply pending_urls_initial.
  - intros -> H250. split; [by rewrite Hchunks, H250|].
    intros ->. by rewrite Hchunks, H250.
Qed.

(** 250 files, none of them there, and a transport that delivers each
    location it is given and keeps a log of the sizes of its
    invocations. *)
Lemma fetchFilesInBatches_250_witness :
  let names := (fun i => "f" +:+ py_str (Z.of_nat i)) <$> seq 0 250 in
  let deliver (cmd : list string) (fs : FS) : FS :=
    <["log" := default "" (fs !! "log") +:+ py_str (Z.of_nat (length cmd))
               +:+ ";"]>
      (foldr (fun url m => <[url := "data"]> m) fs cmd) in
  (exists (fs' : FS) (issued : list (list string)),
     fetchFilesInBatches deliver MAX_IN_ONE_CALL false names names ∅
       = (fs', Ret issued)
     /\ fs' = foldl (fun fs0 command => deliver command fs0) ∅ issued
     /\ length <$> issued = [100; 100; 50]%nat)
  /\ (fetchFilesInBatches deliver MAX_IN_ONE_CALL false names names ∅).1
     !! "log" = Some "100;100;50;".
Proof.
  cbn zeta. split; [|by vm_compute].
  set (deliver := fun (cmd : list string) (fs : FS) =>
         <["log" := default "" (fs !! "log")
                    +:+ py_str (Z.of_nat (length cmd)) +:+ ";"]>
           (foldr (fun url m => <[url := "data"]> m) fs cmd)).
  destruct (fetchFilesInBatches_groups_missing_files
              deliver MAX_IN_ONE_CALL false
              ((fun i => "f" +:+ py_str (Z.of_nat i)) <$> seq 0 250)
              ((fun i => "f" +:+ py_str (Z.of_nat i)) <$> seq 0 250)
              ∅)
    as (fs' & issued & Hrun & Hfs & _ & _ & _ & _ & Hscenario).
  - unfold MAX_IN_ONE_CALL. lia.
  - reflexivity.
  - exists fs', issued. split; [exact Hrun|]. split; [exact Hfs|].
    by destruct (Hscenario eq_refl ltac:(vm_compute; reflexivity)).
Defined.

(** ** The index file *)

Lemma sorted_keys_elem (d : gmap Z string) (k : Z) :
  k ∈ sorted_keys d <-> is_Some (d !! k).
Proof.
  unfold sorted_keys. rewrite merge_sort_Permutation.
  rewrite list_elem_of_fmap. split.
  - intros ([k' v] & -> & Hkv). apply elem_of_map_to_list in Hkv. eauto.
  - intros [v Hv]. exists (k, v). split; [done|].
    by apply elem_of_map_to_list.
Qed.

Section MergeFacts.

Context (localFrameDict localUrlDict : gmap Z string).

Local Abbreviation merge_body :=
  (fun frame '(frameDict, urlDict) =>
     if bool_decide (is_Some (frameDict !! frame))
     then Ret (frameDict, urlDict)
     else
       name ← dict_get localFrameDict frame;
       url ← dict_get localUrlDict frame;
       Ret (<[frame := name]> frameDict, <[frame := url]> urlDict)).

(** The merge over any list of keys: a frame that is in [frameDict]
    keeps both its entries, and a frame that is not takes both from the
    local dictionaries when it is among the keys. *)
Lemma merge_keys_spec (keys : list Z) :
  forall (frameDict urlDict frameDict' urlDict' : gmap Z string),
    py_for keys merge_body (frameDict, urlDict)
      = Ret (frameDict', urlDict') ->
    forall frame,
      (is_Some (frameDict !! frame) ->
         frameDict' !! frame = frameDict !! frame
         /\ urlDict' !! frame = urlDict !! frame)
      /\ (frameDict !! frame = None -> frame ∈ keys ->
            is_Some (localFrameDict !! frame)
            /\ is_Some (localUrlDict !! frame)
            /\ frameDict' !! frame = localFrameDict !! frame
            /\ urlDict' !! frame = localUrlDict !! frame)
      /\ (frameDict !! frame = None -> frame ∉ keys ->
            frameDict' !! frame = None
            /\ urlDict' !! frame = urlDict !! frame).
Proof.
  induction keys as [|k keys IH];
    intros frameDict urlDict frameDict' urlDict' Hrun frame.
  { cbn in Hrun. injection Hrun as <- <-.
    split; [done|]. split; [by intros _ ?%elem_of_nil | done]. }
  cbn [py_for] in Hrun.
  destruct (frameDict !! k) as [v|] eqn:Hk.
  - rewrite bool_decide_true in Hrun by eauto.
    cbn [mbind py_bind] in Hrun.
    destruct (IH _ _ _ _ Hrun frame) as (Hkeep & Hnew & Hout).
    split; [done|]. split.
    + intros Hnone [->|Hin]%elem_of_cons; [congruence | by apply Hnew].
    + intros Hnone [Hne Hnin]%not_elem_of_cons. by apply Hout.
  - rewrite bool_decide_false in Hrun by (by intros [? ?]).
    unfold dict_get in Hrun.
    destruct (localFrameDict !! k) as [name|] eqn:Hname; [|done].
    destruct (localUrlDict !! k) as [url|] eqn:Hurl; [|done].
    cbn [mbind py_bind] in Hrun.
    destruct (IH _ _ _ _ Hrun frame) as (Hkeep & Hnew & Hout).
    destruct (decide (frame = k)) as [->|Hne].
    + rewrite (lookup_insert_eq frameDict), (lookup_insert_eq urlDict) in Hkeep.
      destruct (Hkeep ltac:(eauto)) as [Hf Hu].
      split; [rewrite Hk; by intros [? ?]|].
      split; [|by intros _ []; left].
      intros _ _. rewrite Hname, Hurl. eauto.
    + assert (Hne' : k ≠ frame) by done.
      rewrite (lookup_insert_ne frameDict _ _ name Hne') in Hkeep, Hnew, Hout.
      rewrite (lookup_insert_ne urlDict _ _ url Hne') in Hkeep, Hout.
      split; [done|]. split.
      * intros Hnone [->|Hin]%elem_of_cons; [done | by apply Hnew].
      * intros Hnone [_ Hnin]%not_elem_of_cons. by apply Hout.
Qed.

End MergeFacts.

(** Merging the first day into the empty index copies its entries,
    and merging the next day into that leaves every frame of the first
    day with the file name and the location the first day gave it. *)
Lemma merge_chain_keeps_first_day
  (day0Frames day0Urls day1Frames day1Urls : gmap Z string)
  (frameDict0 urlDict0 frameDict urlDict : gmap Z string) :
  merge_day day0Frames day0Urls (∅, ∅) = Ret (frameDict0, urlDict0) ->
  merge_day day1Frames day1Urls (frameDict0, urlDict0)
    = Ret (frameDict, urlDict) ->
  forall (frame : Z) (name : string),
    day0Frames !! frame = Some name ->
    frameDict0 !! frame = Some name
    /\ urlDict0 !! frame = day0Urls !! frame
    /\ frameDict !! frame = Some name
    /\ urlDict !! frame = day0Urls !! frame.
Proof.
  intros Hday0 Hday1 frame name Hname.
  unfold merge_day in Hday0, Hday1.
  destruct (merge_keys_spec _ _ _ _ _ _ _ Hday0 frame) as (_ & Hnew & _).
  destruct Hnew as (_ & _ & Hf0 & Hu0).
  { apply lookup_empty. }
  { apply sorted_keys_elem. eauto. }
  destruct (merge_keys_spec _ _ _ _ _ _ _ Hday1 frame) as (Hkeep & _ & _).
  destruct Hkeep as [Hf Hu].
  { rewrite Hf0, Hname. eauto. }
  rewrite Hf, Hu, Hf0, Hu0. done.
Qed.

(** *** The two-day index *)

Section NextDayFacts.

Context (listDay :
           bool -> Z -> string ->
           stpy (Options * FS) (gmap Z string * gmap Z string)).

(** One day of the two-day loop, with the plumbing resolved. *)
Lemma day_body_two_days (isSouth : bool) (dayVal : Z) (indexPath : string)
  (dicts : gmap Z string * gmap Z string) (w : Options * FS) :
  let indexPath' := indexPath +:+ ".day" +:+ py_str dayVal in
  let w0 :=
    if refetchIndex w.1 then (w.1, (rm_f indexPath' w.2).1) else w in
  day_body listDay isSouth [0; 1] dayVal (indexPath, dicts) w
  = match listDay isSouth dayVal indexPath' w0 with
    | (w', Ret (localFrameDict, localUrlDict)) =>
        (w', match merge_day localFrameDict localUrlDict dicts with
             | Ret dicts' => Ret (indexPath', dicts')
             | Raise e => Raise e
             end)
    | (w', Raise e) => (w', Raise e)
    end.
Proof.
  cbn zeta. unfold day_body. destruct w as [o fs]. cbn [fst snd length Nat.ltb Nat.leb].
  unfold mbind at 1. unfold stpy_bind at 1.
  unfold mbind at 1. unfold stpy_bind at 1. unfold st_gets at 1. cbn [fst].
  destruct (refetchIndex o).
  - unfold mbind at 1. unfold stpy_bind at 1.
    unfold on_fs, rm_f, st_modify, mret, stpy_ret. cbn beta iota.
    unfold mbind at 1. unfold stpy_bind at 1.
    destruct (listDay _ _ _ _) as [w' [[lf lu]|e]]; [|done].
    unfold mbind, stpy_bind, st_lift.
    by destruct (merge_day lf lu dicts).
  - unfold mbind at 1. unfold stpy_bind at 1.
    unfold mret, stpy_ret. cbn beta iota.
    unfold mbind at 1. unfold stpy_bind at 1.
    destruct (listDay _ _ _ _) as [w' [[lf lu]|e]]; [|done].
    unfold mbind, stpy_bind, st_lift.
    by destruct (merge_day lf lu dicts).
Qed.

End NextDayFacts.

(** C8.  In the loop over the two days, whatever the first day's listing
    gave for a frame (file name and location) is what the merged index
    has for it after the second day's listing is merged in. *)
Theorem next_day_keeps_first_day_entries
  (listDay : bool -> Z -> string ->
             stpy (Options * FS) (gmap Z string * gmap Z string))
  (isSouth : bool) (indexPath indexPath' : string)
  (w w' : Options * FS) (frameDict urlDict : gmap Z string) :
  st_for [0; 1] (day_body listDay isSouth [0; 1]) (indexPath, (∅, ∅)) w
    = (w', Ret (indexPath', (frameDict, urlDict))) ->
  exists (w0 w0' : Options * FS) (day0Frames day0Urls : gmap Z string),
    listDay isSouth 0 (indexPath +:+ ".day0") w0
      = (w0', Ret (day0Frames, day0Urls))
    /\ forall (frame : Z) (name : string),
         day0Frames !! frame = Some name ->
         frameDict !! frame = Some name
         /\ urlDict !! frame = day0Urls !! frame.
Proof.
  intros Hrun. cbn [st_for] in Hrun.
  unfold mbind at 1 in Hrun. unfold stpy_bind at 1 in Hrun.
  rewrite day_body_two_days in Hrun. cbn zeta in Hrun.
  change (".day" +:+ py_str 0) with ".day0" in Hrun.
  destruct (listDay isSouth 0 (indexPath +:+ ".day0") _)
    as [w0' [[day0Frames day0Urls]|e]] eqn:Hday0; [|done].
  destruct (merge_day day0Frames day0Urls (∅, ∅))
    as [[frameDict0 urlDict0]|e] eqn:Hmerge0; [|done].
  unfold mbind at 1 in Hrun. unfold stpy_bind at 1 in Hrun.
  rewrite day_body_two_days in Hrun. cbn zeta in Hrun.
  destruct (listDay isSouth 1 _ _)
    as [w1' [[day1Frames day1Urls]|e]] eqn:Hday1; [|done].
  destruct (merge_day day1Frames day1Urls (frameDict0, urlDict0))
    as [[frameDict1 urlDict1]|e] eqn:Hmerge1; [|done].
  cbn in Hrun. injection Hrun as _ _ <- <-.
  eexists _, w0', day0Frames, day0Urls. split; [exact Hday0|].
  intros frame name Hname.
  destruct (merge_chain_keeps_first_day _ _ _ _ _ _ _ _ Hmerge0 Hmerge1
              frame name Hname) as (_ & _ & Hf & Hu).
  done.
Qed.

(** Frame 2 is listed on both days. *)
Lemma next_day_keeps_first_day_witness :
  let day0 : gmap Z string * gmap Z string :=
    ({[ 1 := "a_00001.tif"; 2 := "a_00002.tif" ]},
     {[ 1 := "https://host/day0"; 2 := "https://host/day0" ]}) in
  let day1 : gmap Z string * gmap Z string :=
    ({[ 2 := "b_00002.tif"; 3 := "b_00003.tif" ]},
     {[ 2 := "https://host/day1"; 3 := "https://host/day1" ]}) in
  let listDay (isSouth : bool) (dayVal : Z) (indexPath : string)
      : stpy (Options * FS) (gmap Z string * gmap Z string) :=
    mret (if dayVal =? 0 then day0 else day1) in
  let o := MkOptions 2015 9 24 "" "GR" "ortho" 1 3 (-1)
                     false true false false true in
  exists frameDict urlDict,
    (st_for [0; 1] (day_body listDay false [0; 1])
            ("out/ortho_index.html", (∅, ∅)) (o, ∅)).2
      = Ret ("out/ortho_index.html.day0.day1", (frameDict, urlDict))
    /\ frameDict !! 2 = Some "a_00002.tif"
    /\ urlDict !! 2 = Some "https://host/day0"
    /\ frameDict !! 3 = Some "b_00003.tif".
Proof.
  cbn zeta.
  set (listDay := fun (_ : bool) (dayVal : Z) (_ : string) =>
    (mret (if dayVal =? 0
           then (({[ 1 := "a_00001.tif"; 2 := "a_00002.tif" ]} : gmap Z string),
                 ({[ 1 := "https://host/day0"; 2 := "https://host/day0" ]}
                  : gmap Z string))
           else ({[ 2 := "b_00002.tif"; 3 := "b_00003.tif" ]},
                 {[ 2 := "https://host/day1"; 3 := "https://host/day1" ]}))
     : stpy (Options * FS) (gmap Z string * gmap Z string))).
  set (o := MkOptions 2015 9 24 "" "GR" "ortho" 1 3 (-1)
                      false true false false true).
  destruct (st_for [0; 1] (day_body listDay false [0; 1])
              ("out/ortho_index.html", (∅, ∅)) (o, ∅))
    as [w' [[path [frameDict urlDict]]|e]] eqn:Hrun;
    [|vm_compute in Hrun; discriminate].
  exists frameDict, urlDict.
  destruct (next_day_keeps_first_day_entries _ _ _ _ _ _ _ _ Hrun)
    as (w0 & w0' & day0Frames & day0Urls & Hday0 & Hkeep).
  unfold listDay in Hday0. cbn in Hday0. injection Hday0 as _ <- <-.
  destruct (Hkeep 2 "a_00002.tif" eq_refl) as [Hf Hu].
  vm_compute in Hrun. injection Hrun as _ <- <- <-.
  repeat split; try reflexivity.
Defined.

(** *** Strings *)

Lemma str_app_nil_l (b : string) : "" +:+ b = b.
Proof. reflexivity. Qed.

Lemma str_app_cons (x : ascii) (a b : string) :
  String x a +:+ b = String x (a +:+ b).
Proof. reflexivity. Qed.

Lemma str_app_assoc (a b c : string) : (a +:+ b) +:+ c = a +:+ b +:+ c.
Proof.
  induction a as [|x a IH]; [done|]. rewrite !str_app_cons. by f_equal.
Qed.

Lemma str_app_nil_r (a : string) : a +:+ "" = a.
Proof.
  induction a as [|x a IH]; [done|]. rewrite str_app_cons. by f_equal.
Qed.

Lemma str_exists_app (p : ascii -> bool) (a b : string) :
  str_exists p (a +:+ b) = str_exists p a || str_exists p b.
Proof.
  induction a as [|x a IH]; [done|].
  rewrite str_app_cons. cbn [str_exists]. by rewrite IH, orb_assoc.
Qed.

Lemma rstrip_app (x y : string) :
  rstrip (x +:+ y) = match rstrip y with
                     | "" => rstrip x
                     | r => x +:+ r
                     end.
Proof.
  induction x as [|c x IH].
  - rewrite str_app_nil_l. by destruct (rstrip y).
  - rewrite str_app_cons. cbn [rstrip]. rewrite IH.
    destruct (rstrip y) as [|a r]; [done|].
    rewrite str_app_cons. by destruct x.
Qed.

Lemma split_on_plain (sep : ascii) (a : string) :
  str_has sep a = false -> split_on sep a = [a].
Proof.
  unfold str_has. induction a as [|c a IH]; cbn [str_exists split_on]; [done|].
  intros [Hc Ha]%orb_false_elim. rewrite Ascii.eqb_sym, Hc.
  by rewrite IH.
Qed.

Lemma split_on_app (sep : ascii) (a b : string) :
  str_has sep a = false ->
  split_on sep (a +:+ String sep b) = a :: split_on sep b.
Proof.
  unfold str_has. induction a as [|c a IH].
  - intros _. rewrite str_app_nil_l. cbn [split_on].
    by rewrite Ascii.eqb_refl.
  - cbn [str_exists]. intros [Hc Ha]%orb_false_elim.
    rewrite str_app_cons. cbn [split_on].
    rewrite Ascii.eqb_sym, Hc. by rewrite IH.
Qed.

Lemma file_lines_app (l rest : string) :
  str_has "010" l = false ->
  file_lines (l +:+ String "010" rest)
  = (l +:+ String "010" "") :: file_lines rest.
Proof.
  unfold str_has. induction l as [|c l IH].
  - done.
  - cbn [str_exists]. intros [Hc Hl]%orb_false_elim.
    rewrite !str_app_cons. cbn [file_lines].
    rewrite Ascii.eqb_sym, Hc. by rewrite IH.
Qed.

(** *** Decimal numerals *)

Lemma uint_string_digits (p : ascii -> bool) (d : Decimal.uint) :
  (forall c, is_digit c = true -> p c = false) ->
  str_exists p (NilEmpty.string_of_uint d) = false.
Proof.
  intros Hp. induction d; cbn; rewrite ?IHd, ?orb_false_r; try done;
    by apply Hp.
Qed.

Lemma py_str_chars (p : ascii -> bool) (n : Z) :
  (forall c, is_digit c = true -> p c = false) ->
  p "-"%char = false ->
  str_exists p (py_str n) = false.
Proof.
  intros Hp Hminus. unfold py_str, NilZero.string_of_int, NilZero.string_of_uint.
  destruct (Z.to_int n) as [d|d]; destruct d; cbn [str_exists];
    rewrite ?Hminus, ?orb_false_l;
    try (by apply (uint_string_digits p (Decimal.D0 Decimal.Nil)));
    try (by apply (uint_string_digits p (Decimal.D0 _)));
    try (by apply (uint_string_digits p (Decimal.D1 _)));
    try (by apply (uint_string_digits p (Decimal.D2 _)));
    try (by apply (uint_string_digits p (Decimal.D3 _)));
    try (by apply (uint_string_digits p (Decimal.D4 _)));
    try (by apply (uint_string_digits p (Decimal.D5 _)));
    try (by apply (uint_string_digits p (Decimal.D6 _)));
    try (by apply (uint_string_digits p (Decimal.D7 _)));
    try (by apply (uint_string_digits p (Decimal.D8 _)));
    try (by apply (uint_string_digits p (Decimal.D9 _))).
Qed.

Lemma Z_to_int_proper (n : Z) :
  Z.to_int n <> Decimal.Pos Decimal.Nil /\ Z.to_int n <> Decimal.Neg Decimal.Nil.
Proof.
  destruct n as [|p|p]; cbn; split; try done;
    intros [= H]; by apply Unsigned.to_uint_nonnil in H.
Qed.

Lemma lstrip_no_space (s : string) :
  match s with String c _ => is_space c = false | "" => True end ->
  lstrip s = s.
Proof. destruct s as [|c s]; cbn; [done|]. by intros ->. Qed.

Lemma rstrip_no_space (s : string) :
  str_exists is_space s = false -> rstrip s = s.
Proof.
  induction s as [|c s IH]; cbn; [done|].
  intros [Hc Hs]%orb_false_elim. rewrite (IH Hs), Hc. by destruct s.
Qed.

Lemma lstrip_no_space_all (s : string) :
  str_exists is_space s = false -> lstrip s = s.
Proof.
  intros H. apply lstrip_no_space. destruct s as [|c s]; [done|].
  cbn in H. by apply orb_false_elim in H as [? _].
Qed.

Lemma py_str_first (n : Z) :
  exists c s, py_str n = String c s /\ is_space c = false /\ c <> "+"%char.
Proof.
  pose proof (py_str_chars (fun c => is_space c || Ascii.eqb c "+") n) as H.
  destruct (py_str n) as [|c s] eqn:Hs.
  - exfalso. unfold py_str, NilZero.string_of_int, NilZero.string_of_uint in Hs.
    destruct (Z_to_int_proper n) as [H1 H2].
    destruct (Z.to_int n) as [d|d]; destruct d; try done.
  - exists c, s. split; [done|].
    cbn in H. apply orb_false_elim in H as [H _].
    + apply orb_false_elim in H as [H1 H2]. split; [done|].
      by apply Ascii.eqb_neq.
    + intros c' Hc'.
      by destruct c' as [[] [] [] [] [] [] [] []].
    + done.
Qed.

Lemma py_int_py_str (n : Z) : py_int (py_str n) = Ret n.
Proof.
  unfold py_int, strip.
  rewrite lstrip_no_space_all, rstrip_no_space;
    try (apply py_str_chars; [|done];
         intros c Hc; by destruct c as [[] [] [] [] [] [] [] []]).
  destruct (py_str_first n) as (c & s & Hs & _ & Hplus).
  rewrite Hs. 
  assert (match c with
          | "+"%char => option_map Decimal.Pos (NilZero.uint_of_string s)
          | _ => NilZero.int_of_string (String c s)
          end = NilZero.int_of_string (String c s)) as ->.
  { destruct c as [[] [] [] [] [] [] [] []]; done. }
  rewrite <- Hs. unfold py_str.
  destruct (Z_to_int_proper n) as [H1 H2].
  rewrite NilZero.isi by done. by rewrite DecimalZ.of_to.
Qed.

(** *** One line of the index *)

Lemma strip_padded (u : string) :
  lstrip u = u -> rstrip u = u -> strip (padded u) = u.
Proof.
  intros Hl Hr. destruct u as [|c u]; [done|].
  unfold padded, strip.
  change (lstrip (String " " (String c u))) with (lstrip (String c u)).
  by rewrite Hl, Hr.
Qed.

Lemma str_has_padded (c : ascii) (u : string) :
  c <> " "%char -> str_has c u = false -> str_has c (padded u) = false.
Proof.
  intros Hc Hu. destruct u as [|a u]; [done|].
  unfold padded, str_has in *. cbn [str_exists] in *.
  by apply Ascii.eqb_neq in Hc as ->.
Qed.

Lemma strip_index_line (frame : Z) (name url : string) :
  rstrip url = url ->
  strip (index_line frame name url)
  = py_str frame +:+ String "," (String " " name +:+ String "," (padded url)).
Proof.
  intros Hr. unfold strip, index_line.
  destruct (py_str_first frame) as (c & s & Hs & Hc & _).
  rewrite lstrip_no_space by (rewrite Hs, str_app_cons; done).
  assert (Htail : rstrip (", " +:+ url +:+ "
") = String "," (padded url)).
  { change (", " +:+ url +:+ "
") with (String "," (String " " (url +:+ "
"))).
    cbn [rstrip]. rewrite (rstrip_app url). cbn [rstrip is_space]. rewrite Hr.
    by destruct url. }
  rewrite rstrip_app, rstrip_app, rstrip_app, Htail.
  by destruct name.
Qed.

Lemma read_index_line_written (frame : Z) (name url : string)
  (frameDict urlDict : gmap Z string) :
  index_field_ok name ->
  index_field_ok url ->
  read_index_line (index_line frame name url) (frameDict, urlDict)
  = Ret (<[frame := name]> frameDict, <[frame := url]> urlDict).
Proof.
  intros (Hnl & Hnr & Hnc & _) (Hul & Hur & Huc & _).
  unfold read_index_line. rewrite strip_index_line by done.
  rewrite split_on_app.
  2:{ apply py_str_chars; [|done].
      intros c Hc; by destruct c as [[] [] [] [] [] [] [] []]. }
  rewrite (split_on_app "," (String " " name)).
  2:{ unfold str_has in *. cbn [str_exists]. by rewrite Hnc. }
  rewrite split_on_plain by (by apply str_has_padded).
  cbn [length Nat.leb list_get lookup list_lookup mbind py_bind].
  rewrite py_int_py_str. cbn [mbind py_bind].
  rewrite strip_padded by done.
  unfold strip.
  change (lstrip (String " " name)) with (lstrip name).
  by rewrite Hnl, Hnr.
Qed.

(** *** The whole file *)

Lemma lookup_assign_all (d : gmap Z string) (keys : list Z) :
  forall (m : gmap Z string) (k : Z),
    assign_all d keys m !! k
    = if decide (k ∈ keys) then Some (default "" (d !! k)) else m !! k.
Proof.
  induction keys as [|a keys IH]; intros m k; cbn [assign_all foldl].
  - by rewrite decide_False by apply not_elem_of_nil.
  - fold (assign_all d keys (<[a := default "" (d !! a)]> m)). rewrite IH.
    destruct (decide (k ∈ keys)) as [Hin|Hnin].
    + by rewrite decide_True by (by right).
    + destruct (decide (k = a)) as [->|Hne].
      * rewrite decide_True by (by left). by rewrite lookup_insert_eq.
      * rewrite decide_False by (by intros [?|?]%elem_of_cons).
        by rewrite lookup_insert_ne.
Qed.

Lemma assign_all_sorted_keys (d : gmap Z string) :
  assign_all d (sorted_keys d) ∅ = d.
Proof.
  apply map_eq. intros k. rewrite lookup_assign_all.
  destruct (decide (k ∈ sorted_keys d)) as [Hin|Hnin].
  - apply sorted_keys_elem in Hin as [v Hv]. by rewrite Hv.
  - rewrite lookup_empty. symmetry. apply eq_None_not_Some.
    by rewrite <- sorted_keys_elem.
Qed.

Section IndexFileFacts.

Context (parsedIndexPath : string) (frameDict urlDict : gmap Z string).

Local Abbreviation write_body :=
  (fun frame (_ : unit) =>
     name ← st_lift (dict_get frameDict frame);
     url ← st_lift (dict_get urlDict frame);
     file_write parsedIndexPath (index_line frame name url)).

Lemma write_loop_text (keys : list Z) :
  forall (fs : FS) (content : string),
    fs !! parsedIndexPath = Some content ->
    (forall k, k ∈ keys ->
       is_Some (frameDict !! k) /\ is_Some (urlDict !! k)) ->
    st_for keys write_body tt fs
    = (<[parsedIndexPath :=
           content +:+ index_text frameDict urlDict keys]> fs,
       Ret tt).
Proof.
  induction keys as [|k keys IH]; intros fs content Hfile Hkeys.
  - cbn. rewrite str_app_nil_r. by rewrite insert_id.
  - destruct (Hkeys k ltac:(by left)) as [[name Hname] [url Hurl]].
    cbn [st_for]. unfold mbind at 1. unfold stpy_bind at 1.
    unfold mbind, stpy_bind, st_lift, dict_get, file_write, st_modify.
    rewrite Hname, Hurl, Hfile. cbn [default from_option id].
    erewrite IH; [| apply lookup_insert_eq
                  | intros k' Hk'; apply Hkeys; by right].
    rewrite insert_insert_eq. cbn [index_text foldr].
    rewrite Hname, Hurl. cbn [default from_option id].
    by rewrite str_app_assoc.
Qed.

Hypothesis same_frames :
  forall frame, is_Some (frameDict !! frame) <-> is_Some (urlDict !! frame).
Hypothesis names_ok :
  forall frame name, frameDict !! frame = Some name -> index_field_ok name.
Hypothesis urls_ok :
  forall frame url, urlDict !! frame = Some url -> index_field_ok url.

Lemma write_index_text (fs : FS) :
  write_index parsedIndexPath frameDict urlDict fs
  = (<[parsedIndexPath :=
         index_text frameDict urlDict (sorted_keys frameDict)]> fs,
     Ret tt).
Proof.
  unfold write_index. unfold mbind at 1. unfold stpy_bind at 1.
  unfold st_modify at 1.
  erewrite write_loop_text; [| apply lookup_insert_eq |].
  - by rewrite insert_insert_eq, str_app_nil_l.
  - intros k Hk%sorted_keys_elem. split; [done | by apply same_frames].
Qed.

Lemma index_line_split (frame : Z) (name url rest : string) :
  index_line frame name url +:+ rest
  = (py_str frame +:+ ", " +:+ name +:+ ", " +:+ url)
      +:+ String "010" rest.
Proof. unfold index_line. by rewrite !str_app_assoc. Qed.

Lemma read_written_lines (keys : list Z) :
  forall (m1 m2 : gmap Z string),
    (forall k, k ∈ keys ->
       is_Some (frameDict !! k) /\ is_Some (urlDict !! k)) ->
    py_for (file_lines (index_text frameDict urlDict keys))
           read_index_line (m1, m2)
    = Ret (assign_all frameDict keys m1, assign_all urlDict keys m2).
Proof.
  induction keys as [|k keys IH]; intros m1 m2 Hkeys; [done|].
  destruct (Hkeys k ltac:(by left)) as [[name Hname] [url Hurl]].
  cbn [index_text foldr assign_all foldl]. rewrite Hname, Hurl.
  cbn [default from_option id].
  pose proof (names_ok _ _ Hname) as Hn. pose proof (urls_ok _ _ Hurl) as Hu.
  rewrite index_line_split, file_lines_app.
  2:{ destruct Hn as (_ & _ & _ & Hn), Hu as (_ & _ & _ & Hu).
      unfold str_has in *. rewrite !str_exists_app, Hn, Hu.
      rewrite py_str_chars; [done | | done].
      intros c Hc; by destruct c as [[] [] [] [] [] [] [] []]. }
  cbn [py_for].
  replace ((py_str k +:+ ", " +:+ name +:+ ", " +:+ url) +:+ String "010" "")
    with (index_line k name url)
    by (unfold index_line; by rewrite !str_app_assoc).
  rewrite read_index_line_written by done. cbn [mbind py_bind].
  apply IH. intros k' Hk'. apply Hkeys. by right.
Qed.

Lemma read_written_index (fs : FS) :
  readIndexFile parsedIndexPath
    (<[parsedIndexPath :=
         index_text frameDict urlDict (sorted_keys frameDict)]> fs)
  = Ret (frameDict, urlDict).
Proof.
  unfold readIndexFile. rewrite lookup_insert_eq.
  rewrite read_written_lines.
  2:{ intros k Hk%sorted_keys_elem. split; [done | by apply same_frames]. }
  rewrite assign_all_sorted_keys. do 2 f_equal.
  apply map_eq. intros k. rewrite lookup_assign_all.
  destruct (decide (k ∈ sorted_keys frameDict)) as [Hin|Hnin].
  - apply sorted_keys_elem, same_frames in Hin as [v Hv]. by rewrite Hv.
  - rewrite lookup_empty. symmetry. apply eq_None_not_Some.
    by rewrite <- same_frames, <- sorted_keys_elem.
Qed.

End IndexFileFacts.

Lemma sorted_keys_sorted (d : gmap Z string) : Sorted Z.le (sorted_keys d).
Proof. apply (Sorted_merge_sort Z.le). Qed.

(** C6, as the code has it.  When the two maps have the same frames and
    no file name or location holds a comma or a line break or starts or
    ends with white space, [write_index] writes one line
    [frame, filename, location] per frame, in ascending frame order, and
    [readIndexFile] reads the two maps back from it. *)
Theorem index_round_trip (parsedIndexPath : string)
  (frameDict urlDict : gmap Z string) (fs : FS) :
  (forall frame, is_Some (frameDict !! frame) <-> is_Some (urlDict !! frame)) ->
  (forall frame name, frameDict !! frame = Some name -> index_field_ok name) ->
  (forall frame url, urlDict !! frame = Some url -> index_field_ok url) ->
  exists (fs' : FS),
    write_index parsedIndexPath frameDict urlDict fs = (fs', Ret tt)
    /\ fs' !! parsedIndexPath
       = Some (index_text frameDict urlDict (sorted_keys frameDict))
    /\ Sorted Z.le (sorted_keys frameDict)
    /\ (forall frame, frame ∈ sorted_keys frameDict
                      <-> is_Some (frameDict !! frame))
    /\ readIndexFile parsedIndexPath fs' = Ret (frameDict, urlDict).
Proof.
  intros Hsame Hnames Hurls. eexists. split.
  - by apply write_index_text.
  - split; [apply lookup_insert_eq|].
    split; [apply sorted_keys_sorted|].
    split; [apply sorted_keys_elem|].
    by apply read_written_index.
Qed.

Local Ltac other_frame :=
  repeat (rewrite lookup_insert_ne by done);
  repeat (rewrite lookup_singleton_ne by done);
  rewrite ?lookup_empty;
  first [done | split; by intros [? ?]].

(** Two frames, written and read back. *)
Lemma index_round_trip_witness :
  let frameDict : gmap Z string :=
    {[ 39 := "DMS_1000109_00039_20091016_23310503_V02.tif";
       40 := "DMS_1000109_00040_20091016_23310628_V02.tif" ]} in
  let urlDict : gmap Z string :=
    {[ 39 := "https://n5eil01u.ecs.nsidc.org/ICEBRIDGE/IODMS1B.001/2009.10.16";
       40 := "https://n5eil01u.ecs.nsidc.org/ICEBRIDGE/IODMS1B.001/2009.10.17" ]} in
  exists fs' : FS,
    write_index "out/ortho_index.html.csv" frameDict urlDict ∅ = (fs', Ret tt)
    /\ readIndexFile "out/ortho_index.html.csv" fs' = Ret (frameDict, urlDict).
Proof.
  cbn zeta.
  destruct (index_round_trip "out/ortho_index.html.csv"
    {[ 39 := "DMS_1000109_00039_20091016_23310503_V02.tif";
       40 := "DMS_1000109_00040_20091016_23310628_V02.tif" ]}
    {[ 39 := "https://n5eil01u.ecs.nsidc.org/ICEBRIDGE/IODMS1B.001/2009.10.16";
       40 := "https://n5eil01u.ecs.nsidc.org/ICEBRIDGE/IODMS1B.001/2009.10.17" ]}
    ∅) as (fs' & Hwrite & _ & _ & _ & Hread).
  - intros frame.
    destruct (decide (frame = 39)) as [->|H39]; [vm_compute; split; eauto|].
    destruct (decide (frame = 40)) as [->|H40]; [vm_compute; split; eauto|].
    other_frame.
  - intros frame name.
    destruct (decide (frame = 39)) as [->|H39];
      [intros [= <-]; vm_compute; done|].
    destruct (decide (frame = 40)) as [->|H40];
      [intros [= <-]; vm_compute; done|].
    other_frame.
  - intros frame url.
    destruct (decide (frame = 39)) as [->|H39];
      [intros [= <-]; vm_compute; done|].
    destruct (decide (frame = 40)) as [->|H40];
      [intros [= <-]; vm_compute; done|].
    other_frame.
  - exists fs'. split; [exact Hwrite | exact Hread].
Defined.

(** C6 as stated fails: a file name with a comma is cut at the comma,
    and what follows it is read as the location. *)
Lemma index_round_trip_fails_on_comma :
  let frameDict : gmap Z string := {[ 1 := "a,b.tif" ]} in
  let urlDict : gmap Z string := {[ 1 := "https://host/day" ]} in
  let written := (write_index "index.csv" frameDict urlDict ∅).1 in
  written !! "index.csv" = Some "1, a,b.tif, https://host/day
"
  /\ readIndexFile "index.csv" written = Ret ({[ 1 := "a" ]}, {[ 1 := "b.tif" ]})
  /\ readIndexFile "index.csv" written <> Ret (frameDict, urlDict).
Proof.
  cbn zeta. split; [reflexivity|]. split; [reflexivity|].
  intros H.
  apply (f_equal (fun r => match r with
                           | Ret (m, _) => m !! 1
                           | Raise _ => None
                           end)) in H.
  vm_compute in H. discriminate.
Qed.

(** *** A stale index *)

Lemma py_for_raises {A S : Type} (xs : list A) (body : A -> S -> py S)
  (x : A) :
  x ∈ xs -> (forall s, raises (body x s)) ->
  forall s, raises (py_for xs body s).
Proof.
  intros Hin Hx. induction xs as [|a xs IH]; intros s.
  - by apply elem_of_nil in Hin.
  - cbn [py_for]. destruct (body a s) as [s'|e] eqn:Hbody; [|done].
    cbn [mbind py_bind].
    apply elem_of_cons in Hin as [->|Hin]; [|by apply IH].
    specialize (Hx s). by rewrite Hbody in Hx.
Qed.

Lemma read_index_line_short (line : string)
  (dicts : gmap Z string * gmap Z string) :
  (length (split_on "," (strip line)) < 3)%nat ->
  raises (read_index_line line dicts).
Proof.
  intros Hlen. unfold read_index_line. destruct dicts as [fd ud].
  by destruct (Nat.leb_spec (length (split_on "," (strip line))) 2); [|lia].
Qed.

Lemma set_refetchIndex_id (o : Options) :
  refetchIndex o = true -> set_refetchIndex true o = o.
Proof. destruct o. cbn. by intros ->. Qed.

(** *** Paths on a command line *)

Lemma str_exists_weaken (f g : ascii -> bool) (s : string) :
  (forall c, f c = true -> g c = true) ->
  str_exists g s = false -> str_exists f s = false.
Proof.
  intros Hfg. induction s as [|c s IH]; cbn [str_exists]; [done|].
  intros [Hc Hs]%orb_false_elim. rewrite (IH Hs), orb_false_r.
  destruct (f c) eqn:Hf; [|done]. by rewrite (Hfg c Hf) in Hc.
Qed.

(** A plain path is one word. *)
Lemma shell_words_plain (path : string) :
  shell_plain path = true -> shell_words path = [path].
Proof.
  unfold shell_plain, shell_words. destruct path as [|c path]; [done|].
  intros [_ Hplain%negb_true_iff]%andb_true_iff.
  rewrite split_on_plain.
  - by rewrite filter_cons, decide_True.
  - unfold str_has.
    apply (str_exists_weaken _ (fun c => negb (shell_plain_char c)));
      [|done].
    intros x Hx%Ascii.eqb_eq. by subst x.
Qed.

Lemma rm_f_plain (path : string) (fs : FS) :
  shell_plain path = true -> rm_f path fs = (delete path fs, Ret tt).
Proof.
  intros Hplain. unfold rm_f, st_modify. by rewrite shell_words_plain.
Qed.

Lemma shell_plain_app (path suffix : string) :
  shell_plain path = true ->
  str_exists (fun c => negb (shell_plain_char c)) suffix = false ->
  shell_plain (path +:+ suffix) = true.
Proof.
  unfold shell_plain. destruct path as [|c path]; [done|].
  rewrite str_app_cons.
  intros [Hfirst Hplain%negb_true_iff]%andb_true_iff Hsuffix.
  rewrite Hfirst. cbn [andb]. apply negb_true_iff.
  change (String c (path +:+ suffix)) with (String c path +:+ suffix).
  by rewrite str_exists_app, Hplain, Hsuffix.
Qed.

Section RefetchFacts.

Context (listDay :
           bool -> Z -> string ->
           stpy (Options * FS) (gmap Z string * gmap Z string)).

(** With the refetch flag set and an index path that is plain,
    [fetchAndParseIndexFile] removes both index files and builds the
    index anew. *)
Lemma fetchAndParseIndexFile_refetch (isSouth : bool)
  (outputFolder : string) (o : Options) (fs : FS) :
  refetchIndex o = true ->
  let filename :=
    if bool_decide (type o ∈ LIDAR_TYPES) then "lidar" +:+ "_index.html"
    else type o +:+ "_index.html" in
  let indexPath := path_join outputFolder filename in
  let parsedIndexPath := indexPath +:+ ".csv" in
  shell_plain indexPath = true ->
  fetchAndParseIndexFile listDay isSouth outputFolder (o, fs)
  = build_index listDay isSouth
      (if fetchNextDay o then [0; 1] else [0])
      indexPath parsedIndexPath
      (o, delete parsedIndexPath (delete indexPath fs)).
Proof.
  intros Hflag. cbn zeta. intros Hplain. unfold fetchAndParseIndexFile.
  unfold mbind at 1. unfold stpy_bind at 1. unfold st_gets at 1. cbn [fst].
  unfold mbind at 1. unfold stpy_bind at 1.
  assert (Hset :
    (if fetchNextDay o
     then st_modify (prod_map (set_refetchIndex true) id)
     else mret tt) (o, fs) = ((o, fs), Ret tt)).
  { destruct (fetchNextDay o); [|done].
    unfold st_modify, prod_map. cbn. by rewrite set_refetchIndex_id. }
  rewrite Hset.
  unfold mbind at 1. unfold stpy_bind at 1. unfold st_gets at 1. cbn [fst].
  unfold mbind at 1. unfold stpy_bind at 1. unfold st_gets at 1. cbn [fst].
  rewrite Hflag.
  unfold mbind at 1. unfold stpy_bind at 1.
  unfold on_fs at 1. unfold mbind at 1. unfold stpy_bind at 1.
  rewrite rm_f_plain by done.
  rewrite rm_f_plain by (by apply shell_plain_app).
  unfold mbind at 1. unfold stpy_bind at 1.
  unfold on_fs at 1. unfold st_gets at 1. unfold fileNonEmpty at 1.
  rewrite lookup_delete_eq. reflexivity.
Qed.

End RefetchFacts.

(** [readIndexFile] raises on any index file that has a line with fewer
    than three comma-separated fields.  When the read in [doFetch]
    raises, [doFetch] sets [options.refetchIndex] and calls
    [fetchAndParseIndexFile] again; when the path of the index is plain,
    this removes the index files and builds the index anew, and
    [doFetch] reads the file it names. *)
Lemma stale_index_is_refetched
  (listDay : bool -> Z -> string ->
             stpy (Options * FS) (gmap Z string * gmap Z string))
  (outputFolder : string) :
  (forall (path content line : string) (fs : FS),
      fs !! path = Some content ->
      line ∈ file_lines content ->
      (length (split_on "," (strip line)) < 3)%nat ->
      raises (readIndexFile path fs))
  /\ forall (o o1 : Options) (fs fs1 : FS) (path1 : string),
       let isSouth := String.eqb (site o) "AN" in
       fetchAndParseIndexFile listDay isSouth outputFolder (o, fs)
         = ((o1, fs1), Ret path1) ->
       raises (readIndexFile path1 fs1) ->
       let o2 := set_refetchIndex true o1 in
       let filename :=
         if bool_decide (type o2 ∈ LIDAR_TYPES) then "lidar" +:+ "_index.html"
         else type o2 +:+ "_index.html" in
       let indexPath := path_join outputFolder filename in
       let parsedIndexPath := indexPath +:+ ".csv" in
       shell_plain indexPath = true ->
       refetchIndex o2 = true
       /\ fetchAndParseIndexFile listDay isSouth outputFolder (o2, fs1)
          = build_index listDay isSouth
              (if fetchNextDay o2 then [0; 1] else [0])
              indexPath parsedIndexPath
              (o2, delete parsedIndexPath (delete indexPath fs1))
       /\ doFetch_readIndex listDay outputFolder (o, fs)
          = match fetchAndParseIndexFile listDay isSouth outputFolder
                    (o2, fs1) with
            | (w, Ret path2) => (w, readIndexFile path2 w.2)
            | (w, Raise e) => (w, Raise e)
            end.
Proof.
  split.
  - intros path content line fs Hfile Hline Hshort.
    unfold readIndexFile. rewrite Hfile.
    apply (py_for_raises _ _ line Hline).
    intros dicts. by apply read_index_line_short.
  - intros o o1 fs fs1 path1 isSouth Hfirst Hraise. cbn zeta. intros Hplain.
    split; [by destruct o1|]. split.
    { by apply fetchAndParseIndexFile_refetch; destruct o1. }
    unfold doFetch_readIndex.
    unfold mbind at 1. unfold stpy_bind at 1. unfold st_gets at 1. cbn [fst].
    unfold mbind at 1. unfold stpy_bind at 1.
    fold isSouth. rewrite Hfirst.
    unfold try_except.
    unfold on_fs at 1. unfold mbind at 1. unfold stpy_bind at 1.
    unfold st_get at 1. unfold st_lift at 1.
    destruct (readIndexFile path1 fs1) as [dicts|e] eqn:Hread; [done|].
    unfold mbind at 1. unfold stpy_bind at 1. unfold st_modify at 1.
    unfold prod_map. cbn [fst snd id].
    unfold mbind at 1. unfold stpy_bind at 1.
    destruct (fetchAndParseIndexFile listDay isSouth outputFolder
                (set_refetchIndex true o1, fs1)) as [[o3 fs3] [path2|e2]];
      [|done].
    unfold on_fs, mbind, stpy_bind, st_get, st_lift. done.
Qed.

(** An index left by an older version, with two fields per line, in the
    folder [out]; the listing has one frame. *)
Example stale_index_is_refetched_in_a_plain_folder :
  let listDay (isSouth : bool) (dayVal : Z) (indexPath : string)
      : stpy (Options * FS) (gmap Z string * gmap Z string) :=
    mret ({[ 39 := "2009_10_16_00039.JPG" ]}, {[ 39 := "https://host/day" ]}) in
  let o := MkOptions 2009 10 16 "" "AN" "image" 39 39 (-1)
                     false false false false false in
  let fs : FS := {[ "out/image_index.html.csv" := "39, 2009_10_16_00039.JPG
" ]} in
  raises (readIndexFile "out/image_index.html.csv" fs)
  /\ (doFetch_readIndex listDay "out" (o, fs)).2
     = Ret ({[ 39 := "2009_10_16_00039.JPG" ]}, {[ 39 := "https://host/day" ]}).
Proof. cbn zeta. split; [exact I | by vm_compute]. Qed.

(** C7.  The same index in the folder [my out].  [readIndexFile] raises
    on it, and [doFetch] sets [options.refetchIndex] and calls
    [fetchAndParseIndexFile] again; but the two [rm -f] commands, given
    the path unquoted, remove [my] and [out/image_index.html] (and
    [.csv]), not the index: the index is found in place and kept, the
    listing is never asked for, and the second read raises out of
    [doFetch], with every file as it was. *)
Theorem stale_index_is_kept_in_a_folder_with_a_blank
  (listDay : bool -> Z -> string ->
             stpy (Options * FS) (gmap Z string * gmap Z string))
  (o : Options) :
  let parsedIndexPath := "my out/image_index.html.csv" in
  let fs : FS := {[ parsedIndexPath := "39, 2009_10_16_00039.JPG
" ]} in
  type o = "image" ->
  raises (readIndexFile parsedIndexPath fs)
  /\ shell_words ("my out/image_index.html.csv")
     = ["my"; "out/image_index.html.csv"]
  /\ doFetch_readIndex listDay "my out" (o, fs)
     = ((set_refetchIndex true o, fs),
        Raise (Exception "Invalid index file.")).
Proof.
  cbn zeta. intros Htype. split; [exact I|]. split; [by vm_compute|].
  destruct o as [y m d e s t a b n af nd sv dr rf].
  cbn in Htype. subst t.
  destruct nd, rf; by vm_compute.
Qed.

Lemma stale_index_is_kept_in_a_folder_with_a_blank_witness :
  let listDay (isSouth : bool) (dayVal : Z) (indexPath : string)
      : stpy (Options * FS) (gmap Z string * gmap Z string) :=
    mret ({[ 39 := "2009_10_16_00039.JPG" ]}, {[ 39 := "https://host/day" ]}) in
  let o := MkOptions 2009 10 16 "" "AN" "image" 39 39 (-1)
                     false false false false false in
  let fs : FS := {[ "my out/image_index.html.csv" := "39, 2009_10_16_00039.JPG
" ]} in
  doFetch_readIndex listDay "my out" (o, fs)
  = ((set_refetchIndex true o, fs), Raise (Exception "Invalid index file.")).
Proof.
  cbn zeta.
  apply (stale_index_is_kept_in_a_folder_with_a_blank
           (fun _ _ _ =>
              mret ({[ 39 := "2009_10_16_00039.JPG" ]},
                    {[ 39 := "https://host/day" ]}))
           (MkOptions 2009 10 16 "" "AN" "image" 39 39 (-1)
                      false false false false false)).
  reflexivity.
Defined.

(** ** The batch scheduler *)

Lemma list_slice_from_subseteq {A : Type} (lo : Z) (l : list A) :
  list_slice_from lo l ⊆ l.
Proof.
  unfold list_slice_from. apply subseteq_drop.
Qed.

Lemma list_slice_from_fmap {A B : Type} (f : A -> B) (lo : Z) (l : list A) :
  f <$> list_slice_from lo l = list_slice_from lo (f <$> l).
Proof. unfold list_slice_from. by rewrite fmap_drop, length_fmap. Qed.

Section SchedulerFacts.

Context {Pair : Type} (frameNumberOf : Pair -> Z).
Context (startFrame stopFrame bundleLength imageStereoInterval : Z).
Context (breaks : list Z).

Local Abbreviation step :=
  (schedule_step Pair frameNumberOf startFrame stopFrame bundleLength
                 imageStereoInterval breaks).
Local Abbreviation run :=
  (schedule Pair frameNumberOf startFrame stopFrame bundleLength
            imageStereoInterval breaks).
Local Abbreviation inside := (in_range startFrame stopFrame).
Local Abbreviation seed := (carried_over imageStereoInterval breaks).
Local Abbreviation frames_of :=
  (in_range_frames Pair frameNumberOf startFrame stopFrame).
Local Abbreviation sched_inv :=
  (schedule_invariant Pair frameNumberOf startFrame stopFrame
                      imageStereoInterval breaks).

Lemma run_snoc (pairs : list Pair) (pair : Pair) :
  run (pairs ++ [pair]) = step (run pairs) pair.
Proof. unfold schedule. by rewrite foldl_app. Qed.

Lemma frames_of_snoc (pairs : list Pair) (pair : Pair) :
  frames_of (pairs ++ [pair])
  = frames_of pairs
      ++ (if inside (frameNumberOf pair) then [frameNumberOf pair] else []).
Proof.
  unfold in_range_frames. rewrite fmap_app, filter_app. f_equal.
  change (frameNumberOf <$> [pair]) with [frameNumberOf pair].
  rewrite filter_cons, filter_nil.
  destruct (inside (frameNumberOf pair)) eqn:Hin.
  - by rewrite decide_True.
  - by rewrite decide_False.
Qed.

(** A pair outside the frame range leaves the state alone. *)
Lemma step_outside (st : sched_state Pair) (pair : Pair) :
  inside (frameNumberOf pair) = false -> step st pair = st.
Proof.
  unfold in_range, schedule_step.
  destruct (negb (startFrame =? 0) && (frameNumberOf pair <? startFrame));
    [done|].
  destruct (negb (stopFrame =? 0) && (stopFrame <? frameNumberOf pair));
    [done|].
  done.
Qed.

(** A pair inside the range joins the working batch, which is then
    kept, or flushed and reseeded. *)
Lemma step_inside (st : sched_state Pair) (pair : Pair) :
  inside (frameNumberOf pair) = true ->
  let frame := frameNumberOf pair in
  let batch := batchImageCameraPairs st ++ [pair] in
  let numbers := frameNumbers st ++ [frame] in
  step st pair
  = if (Z.of_nat (length batch) <? bundleLength) && (frame <? stopFrame)
       && negb (bool_decide (frame ∈ breaks))
    then MkSched batch numbers (emitted st)
    else
      MkSched
        (if bool_decide (frame ∈ breaks) then []
         else list_slice_from (-1 * imageStereoInterval) batch)
        (if bool_decide (frame ∈ breaks) then []
         else list_slice_from (-1 * imageStereoInterval) numbers)
        (emitted st ++ [MkBatch batch numbers]).
Proof.
  unfold in_range, schedule_step. cbn zeta.
  destruct (negb (startFrame =? 0) && (frameNumberOf pair <? startFrame));
    [done|].
  destruct (negb (stopFrame =? 0) && (stopFrame <? frameNumberOf pair));
    [done|].
  intros _. destruct (_ && _ && _); [done|].
  by destruct (bool_decide _).
Qed.

Lemma sched_inv_start : sched_inv [] (run []).
Proof.
  split; cbn; try done.
  - intros f [H|H]; by apply elem_of_nil in H.
  - intros f H. by apply elem_of_nil in H.
  - by exists [].
Qed.

Lemma sched_inv_step (pairs : list Pair) (pair : Pair) :
  sched_inv pairs (run pairs) ->
  sched_inv (pairs ++ [pair]) (run (pairs ++ [pair])).
Proof.
  intros [Hnum Hbat Hsound Hcomp Hflush [news Hwork] Hchain].
  rewrite run_snoc.
  destruct (inside (frameNumberOf pair)) eqn:Hin.
  2:{ rewrite step_outside by done.
      split; try done; try (by exists news).
      - intros f Hf. rewrite frames_of_snoc, Hin, app_nil_r. by apply Hsound.
      - intros f. rewrite frames_of_snoc, Hin, app_nil_r. by apply Hcomp.
      - intros f. rewrite frames_of_snoc, Hin, app_nil_r. by apply Hflush. }
  rewrite step_inside by done. cbn zeta.
  set (st := run pairs) in *.
  set (frame := frameNumberOf pair).
  set (batch := batchImageCameraPairs st ++ [pair]).
  set (numbers := frameNumbers st ++ [frame]).
  assert (Hnumbers : numbers = frameNumberOf <$> batch).
  { unfold numbers, batch. by rewrite fmap_app, Hnum. }
  destruct ((Z.of_nat (length batch) <? bundleLength) && (frame <? stopFrame)
            && negb (bool_decide (frame ∈ breaks))) eqn:Hkeep.
  - (* the working batch grows *)
    split; cbn [frameNumbers batchImageCameraPairs emitted].
    + done.
    + done.
    + intros f [Hf|Hf]; rewrite frames_of_snoc, Hin; apply elem_of_app.
      * left. apply Hsound. by left.
      * apply elem_of_app in Hf as [Hf|Hf]; [|by right].
        left. apply Hsound. by right.
    + intros f. rewrite frames_of_snoc, Hin.
      intros [Hf|Hf]%elem_of_app.
      * destruct (Hcomp f Hf) as [?|?]; [by left|].
        right. apply elem_of_app. by left.
      * right. apply elem_of_app. by right.
    + intros f. rewrite frames_of_snoc, Hin, last_snoc.
      intros [= <-] Hstop. exfalso.
      apply andb_prop in Hkeep as [[_ Hlt]%andb_prop _]. fold frame in Hstop. lia.
    + exists (news ++ [frame]). unfold numbers. by rewrite Hwork, app_assoc.
    + done.
  - (* the working batch is flushed *)
    split; cbn [frameNumbers batchImageCameraPairs emitted].
    + destruct (bool_decide (frame ∈ breaks)); [done|].
      by rewrite Hnumbers, list_slice_from_fmap.
    + apply Forall_app. split; [done|]. constructor; [|done].
      cbn. split; [done|]. unfold numbers. by destruct (frameNumbers st).
    + rewrite fmap_app, concat_app. cbn [fmap list_fmap concat batch_frames].
      rewrite app_nil_r, frames_of_snoc, Hin.
      assert (Hsub : forall f, f ∈ numbers ->
                f ∈ frames_of pairs ++ [frameNumberOf pair]).
      { intros f [Hf|Hf]%elem_of_app; apply elem_of_app; [|by right].
        left. apply Hsound. by right. }
      intros f [[Hf|Hf]%elem_of_app|Hf].
      * apply elem_of_app. left. apply Hsound. by left.
      * by apply Hsub.
      * apply Hsub. destruct (bool_decide (frame ∈ breaks));
          [by apply elem_of_nil in Hf|].
        by apply (list_slice_from_subseteq _ _ _ Hf).
    + rewrite fmap_app, concat_app. cbn [fmap list_fmap concat batch_frames].
      rewrite app_nil_r. intros f. rewrite frames_of_snoc, Hin.
      intros [Hf|Hf]%elem_of_app; left; apply elem_of_app.
      * destruct (Hcomp f Hf) as [?|?]; [by left|].
        right. apply elem_of_app. by left.
      * right. apply elem_of_app. by right.
    + rewrite fmap_app, concat_app. cbn [fmap list_fmap concat batch_frames].
      rewrite app_nil_r. intros f _ _ g Hg. apply elem_of_app. right.
      destruct (bool_decide (frame ∈ breaks));
        [by apply elem_of_nil in Hg|].
      by apply (list_slice_from_subseteq _ _ _ Hg).
    + exists []. rewrite fmap_app. cbn [fmap list_fmap batch_frames].
      rewrite last_snoc, app_nil_r. cbn [from_option].
      unfold carried_over, numbers. rewrite last_snoc. fold numbers.
      by destruct (bool_decide (frame ∈ breaks)).
    + intros j b b'. rewrite fmap_app. cbn [fmap list_fmap batch_frames].
      intros Hj HSj.
      destruct (decide (S j < length (batch_frames <$> emitted st))%nat)
        as [Hlt|Hge].
      * rewrite lookup_app_l in Hj, HSj by lia. by eapply Hchain.
      * assert (S j = length (batch_frames <$> emitted st)) as Hlen.
        { apply lookup_lt_Some in HSj. rewrite length_app in HSj.
          cbn in HSj. lia. }
        rewrite lookup_app_l in Hj by lia.
        rewrite lookup_app_r in HSj by lia.
        rewrite Hlen, Nat.sub_diag in HSj. injection HSj as <-.
        assert (last (batch_frames <$> emitted st) = Some b) as Hlast.
        { rewrite last_lookup, <- Hlen. exact Hj. }
        rewrite Hlast in Hwork. cbn in Hwork.
        exists (news ++ [frame]). split; [by destruct news|].
        unfold numbers. by rewrite Hwork, app_assoc.
Qed.

Lemma sched_inv_run (pairs : list Pair) : sched_inv pairs (run pairs).
Proof.
  induction pairs as [|pair pairs IH] using rev_ind.
  - apply sched_inv_start.
  - by apply sched_inv_step.
Qed.

End SchedulerFacts.

(** C2, as the code has it.  Every batch emitted is non-empty and its
    frame numbers are those of its pairs; every frame of a batch is an
    in-range frame; when the last in-range frame is not below the stop
    frame, every in-range frame is in some batch; and each batch after
    the first starts with what the batch before it carries over (its
    trailing [imageStereoInterval] frames, or nothing when it ended at a
    break frame), followed by at least one new frame. *)
Theorem batches_cover_range_and_carry_over
  (Pair : Type) (frameNumberOf : Pair -> Z)
  (startFrame stopFrame bundleLength imageStereoInterval : Z)
  (breaks : list Z) (imageCameraPairs : list Pair) :
  let emitted_batches :=
    batches Pair frameNumberOf startFrame stopFrame bundleLength
            imageStereoInterval breaks imageCameraPairs in
  let bs :=
    batch_frame_lists Pair frameNumberOf startFrame stopFrame bundleLength
                      imageStereoInterval breaks imageCameraPairs in
  let frames :=
    in_range_frames Pair frameNumberOf startFrame stopFrame
                    imageCameraPairs in
  (forall b, b ∈ emitted_batches ->
             batch_frames b = frameNumberOf <$> batch_pairs b
             /\ batch_frames b <> [])
  /\ (forall f, f ∈ concat bs -> f ∈ frames)
  /\ ((forall f, last frames = Some f -> stopFrame <= f) ->
      forall f, f ∈ frames <-> f ∈ concat bs)
  /\ (forall j b b',
        bs !! j = Some b -> bs !! S j = Some b' ->
        exists news,
          news <> []
          /\ b' = carried_over imageStereoInterval breaks b ++ news).
Proof.
  cbn zeta.
  destruct (sched_inv_run frameNumberOf startFrame stopFrame bundleLength
              imageStereoInterval breaks imageCameraPairs)
    as [Hnum Hbat Hsound Hcomp Hflush Hwork Hchain].
  unfold batch_frame_lists, batches.
  split; [|split; [|split]].
  - intros b Hb. by apply (proj1 (Forall_forall _ _) Hbat).
  - intros f Hf. apply Hsound. by left.
  - intros Hstop f. split.
    + intros Hf. destruct (Hcomp f Hf) as [Hin|Hin]; [done|].
      destruct (last (in_range_frames Pair frameNumberOf startFrame stopFrame
                        imageCameraPairs)) as [g|] eqn:Hlast.
      * by apply (Hflush g eq_refl (Hstop g eq_refl)).
      * apply last_None in Hlast.
        rewrite Hlast in Hf. by apply elem_of_nil in Hf.
    + intros Hf. apply Hsound. by left.
  - exact Hchain.
Qed.

(** Scenario A of the specification: five frames, a break after frame 2,
    bundle length 3: the batches are [0,1,2] and [3,4], and nothing is
    carried over the break. *)
Lemma batches_cover_range_witness :
  let bs := batch_frame_lists Z id 0 4 3 1 [2] [0; 1; 2; 3; 4] in
  bs = [[0; 1; 2]; [3; 4]]
  /\ (forall f, f ∈ [0; 1; 2; 3; 4] <-> f ∈ concat bs)
  /\ carried_over 1 [2] [0; 1; 2] = [].
Proof.
  cbn zeta.
  destruct (batches_cover_range_and_carry_over Z id 0 4 3 1 [2] [0; 1; 2; 3; 4])
    as (_ & _ & Hcover & _).
  split; [reflexivity|]. split; [|reflexivity].
  apply Hcover. intros f Hf. vm_compute in Hf. injection Hf as <-. lia.
Defined.

(** C2 as stated fails: with bundle length 2 and interval 1 the batches
    of the frames 0, 1, 2 are [0,1] and [1,2]; frame 0 is neither a break
    frame nor the last frame, and it is in one batch only. *)
Lemma first_frame_is_in_one_batch_only :
  batch_frame_lists Z id 0 2 2 1 [] [0; 1; 2] = [[0; 1]; [1; 2]]
  /\ ~ coverage_as_stated Z id 0 2 2 1 [] [0; 1; 2].
Proof.
  split; [reflexivity|].
  intros [_ Htwo].
  destruct (Htwo 0) as (j & _ & (b' & Hb' & Hin) & _).
  - vm_compute. by left.
  - by intros ?%elem_of_nil.
  - vm_compute. discriminate.
  - change (batch_frame_lists Z id 0 2 2 1 [] [0; 1; 2])
      with [[0; 1]; [1; 2]] in Hb'.
    destruct j as [|[|j]]; cbn in Hb'; [|done|done].
    injection Hb' as <-.
    apply elem_of_cons in Hin as [Hin|Hin]; [done|].
    apply elem_of_cons in Hin as [Hin|Hin]; [done|].
    by apply elem_of_nil in Hin.
Qed.

(** The last batch is lost when no frame reaches the stop frame. *)
Example batches_stop_frame_beyond_last :
  batch_frame_lists Z id 0 10 3 1 [] [0; 1; 2; 3] = [[0; 1; 2]].
Proof. reflexivity. Qed.

(** ** The latitude wipe and the sidecars of elevation rasters *)

Lemma str_length_app (a b : string) :
  String.length (a +:+ b) = (String.length a + String.length b)%nat.
Proof.
  induction a as [|c a IH]; [done|]. rewrite str_app_cons. cbn. by rewrite IH.
Qed.

Lemma str_take_app (a b : string) : str_take (String.length a) (a +:+ b) = a.
Proof.
  induction a as [|c a IH]; [by destruct b|].
  rewrite str_app_cons. cbn. by rewrite IH.
Qed.

(** A sidecar named [artifact.xml] leads [xmlToImage] back to the
    artifact. *)
Lemma xmlToImage_of_suffix (artifact : string) :
  fileExtension (artifact +:+ ".xml") = ".xml" ->
  xmlToImage (artifact +:+ ".xml") = Ret artifact.
Proof.
  intros Hext. unfold xmlToImage. rewrite Hext. cbn [String.eqb Ascii.eqb Bool.eqb negb].
  f_equal. unfold str_slice. cbn [from_option]. unfold clamp_index.
  rewrite str_length_app. cbn [String.length].
  assert ((-4 <? 0) = true) as -> by done.
  replace (Z.to_nat (Z.max (Z.of_nat (String.length artifact + 4) + -4) 0 - 0))
    with (String.length artifact) by lia.
  cbn [Z.to_nat str_drop]. apply str_take_app.
Qed.

(** C10.  A latitude of exactly zero fails the hemisphere test under both
    settings, and validation then removes the sidecar.  But the raster it
    removes with it is the one [xmlToImage] names, the sidecar's name less
    [.xml]; the sidecar [xmlFile] gives an elevation raster drops the
    [_DEM.tif] as well, so that raster is left in place. *)
Theorem latitude_zero_wipe_leaves_dem_raster
  (gdalinfo_ok : string -> bool) (latitude_in_text : string -> option Q)
  (hasValidChkSum isValidTfw : string -> FS -> bool)
  (isSouth : bool) (latitude : Q) :
  let raster := "out/IODMS3_20111018_14295436_00347_DEM.tif" in
  let sidecar := "out/IODMS3_20111018_14295436_00347.xml" in
  let fs : FS := {[ raster := "raster"; sidecar := "metadata" ]} in
  latitude_in_text "metadata" = Some latitude ->
  (latitude == 0)%Q ->
  xmlFile raster = sidecar
  /\ hasGoodLat latitude true = false
  /\ hasGoodLat latitude false = false
  /\ exists fs' : FS,
       validate_file gdalinfo_ok latitude_in_text hasValidChkSum isValidTfw
         false isSouth true true sidecar [] fs
       = (fs', Ret [])
       /\ fs' !! sidecar = None
       /\ fs' !! raster = Some "raster".
Proof.
  cbn zeta. intros Hlat Hzero.
  split; [reflexivity|].
  split; [by apply hasGoodLat_zero|]. split; [by apply hasGoodLat_zero|].
  eexists. split.
  - eapply validate_file_latitude_zero; [reflexivity | reflexivity | done
                                        | exact Hlat | exact Hzero].
  - split; reflexivity.
Qed.

Lemma latitude_zero_wipe_leaves_dem_raster_witness :
  let raster := "out/IODMS3_20111018_14295436_00347_DEM.tif" in
  let sidecar := "out/IODMS3_20111018_14295436_00347.xml" in
  let fs : FS := {[ raster := "raster"; sidecar := "metadata" ]} in
  let after :=
    (validate_file (fun _ => true) (fun _ => Some 0%Q) (fun _ _ => true)
       (fun _ _ => true) false true true true sidecar [] fs).1 in
  xmlFile raster = sidecar
  /\ after !! sidecar = None
  /\ after !! raster = Some "raster".
Proof.
  cbn zeta.
  destruct (latitude_zero_wipe_leaves_dem_raster
              (fun _ => true) (fun _ => Some 0%Q) (fun _ _ => true)
              (fun _ _ => true) true 0%Q eq_refl ltac:(reflexivity))
    as (Hxml & _ & _ & fs' & Hrun & Hsidecar & Hraster).
  split; [exact Hxml|]. rewrite Hrun. cbn [fst]. by split.
Defined.

(** * Further properties of the code *)

(** ** [getImageSpacing]: the breaks it returns *)



(** ** [getImageSpacing]: areas and ratios *)










(** ** The batch scheduler: windows, stereo pairs and sizes *)

Lemma list_slice_from_tail {A : Type} (k : Z) (l : list A) :
  1 <= k ->
  list_slice_from (-1 * k) l = drop (length l - Z.to_nat k) l.
Proof.
  intros Hk. unfold list_slice_from, clamp_index.
  destruct (Z.ltb_spec (-1 * k) 0); [|lia]. f_equal. lia.
Qed.

Section WindowFacts.

Context {Pair : Type} (frameNumberOf : Pair -> Z).
Context (startFrame stopFrame bundleLength imageStereoInterval : Z).
Context (breaks : list Z).

Local Abbreviation step :=
  (schedule_step Pair frameNumberOf startFrame stopFrame bundleLength
                 imageStereoInterval breaks).
Local Abbreviation run :=
  (schedule Pair frameNumberOf startFrame stopFrame bundleLength
            imageStereoInterval breaks).
Local Abbreviation inside := (in_range startFrame stopFrame).
Local Abbreviation frames_of :=
  (in_range_frames Pair frameNumberOf startFrame stopFrame).
Local Abbreviation window_inv :=
  (window_invariant Pair frameNumberOf startFrame stopFrame
                    imageStereoInterval breaks).
Local Abbreviation size_inv :=
  (size_invariant Pair stopFrame bundleLength breaks).
Local Abbreviation iv := (Z.to_nat imageStereoInterval).

Lemma break_between_snoc (frames : list Z) (f : Z) (p : nat) :
  break_between imageStereoInterval breaks frames p ->
  break_between imageStereoInterval breaks (frames ++ [f]) p.
Proof.
  intros (r & h & Hr & Hh & Hbreak). exists r, h.
  split; [done|]. split; [|done]. by apply lookup_app_l_Some.
Qed.

Lemma window_inv_start : window_inv [] (run []).
Proof.
  exists [], []. cbn. split; [done|]. split; [done|].
  split; [done|]. split; [done|]. intros _. split.
  - done.
  - intros p f Hp. by rewrite lookup_nil in Hp.
Qed.

Lemma window_inv_step (pairs : list Pair) (pair : Pair) :
  window_inv pairs (run pairs) ->
  window_inv (pairs ++ [pair]) (run (pairs ++ [pair])).
Proof.
  intros (passed & flushed & Hsplit & Hinfix & Hsub & Hlast & Hpairs).
  unfold window_invariant. cbn zeta.
  rewrite run_snoc, frames_of_snoc.
  destruct (inside (frameNumberOf pair)) eqn:Hin.
  2:{ rewrite step_outside by done. rewrite app_nil_r.
      by exists passed, flushed. }
  rewrite step_inside by done. cbn zeta.
  set (st := run pairs) in *.
  set (frame := frameNumberOf pair).
  set (batch := batchImageCameraPairs st ++ [pair]).
  set (numbers := frameNumbers st ++ [frame]).
  set (frames := frames_of pairs) in *.
  assert (Hframes : frames ++ [frame] = passed ++ numbers).
  { unfold numbers. by rewrite Hsplit, app_assoc. }
  assert (Hlen : length frames
                 = (length passed + length (frameNumbers st))%nat).
  { by rewrite Hsplit, length_app. }
  assert (Hnumlen : length numbers = S (length (frameNumbers st))).
  { unfold numbers. rewrite length_app. cbn. lia. }
  assert (Hold : Forall (fun b => exists pre post,
                    frames ++ [frame] = pre ++ batch_frames b ++ post)
                   (emitted st)).
  { eapply Forall_impl; [exact Hinfix|].
    intros b (pre & post & Hb). exists pre, (post ++ [frame]).
    by rewrite Hb, <- !app_assoc. }
  destruct ((Z.of_nat (length batch) <? bundleLength) && (frame <? stopFrame)
            && negb (bool_decide (frame ∈ breaks))) eqn:Hkeep.
  - (* the window grows *)
    exists passed, flushed.
    cbn [frameNumbers batchImageCameraPairs emitted].
    split; [done|]. split; [done|].
    split; [by apply sublist_inserts_r|]. split; [done|].
    intros Hiv. destruct (Hpairs Hiv) as [_ Hcover]. split.
    + intros f. rewrite last_snoc. intros [= <-] Hstop. exfalso.
      apply andb_prop in Hkeep as [[_ Hlt]%andb_prop _]. lia.
    + intros p f Hp.
      destruct (decide (p < length frames)%nat) as [Hlt|Hge].
      * rewrite lookup_app_l in Hp by done.
        destruct (Hcover p f Hp) as [HA|[HB|(g & b & Hg & Hb & Hq)]].
        -- by left.
        -- right. left. by apply break_between_snoc.
        -- right. right. exists g, b.
           split; [by apply lookup_app_l_Some | done].
      * left. lia.
  - (* the window is flushed *)
    exists (if bool_decide (frame ∈ breaks) then frames ++ [frame]
            else passed
                 ++ take (Z.to_nat (clamp_index (Z.of_nat (length numbers))
                                                (-1 * imageStereoInterval)))
                         numbers),
           (flushed ++ [frame]).
    cbn [frameNumbers batchImageCameraPairs emitted].
    split; [|split; [|split; [|split]]].
    + destruct (bool_decide (frame ∈ breaks)); [by rewrite app_nil_r|].
      rewrite Hframes, <- app_assoc. f_equal.
      unfold list_slice_from. by rewrite take_drop.
    + apply Forall_app. split; [done|]. constructor; [|done].
      exists passed, []. cbn [batch_frames]. by rewrite app_nil_r.
    + by apply sublist_app.
    + apply Forall2_app; [done|]. constructor; [|done].
      cbn [batch_frames]. unfold numbers. by rewrite last_snoc.
    + intros Hiv. destruct (Hpairs Hiv) as [_ Hcover]. split.
      * intros _ _ _.
        destruct (bool_decide (frame ∈ breaks)); [cbn; lia|].
        rewrite list_slice_from_tail by done. rewrite length_drop. lia.
      * intros p f Hp.
        assert (Hp' : (p < length frames + 1)%nat).
        { apply lookup_lt_Some in Hp. rewrite length_app in Hp. cbn in Hp.
          lia. }
        destruct (decide (p < length passed)%nat) as [Hlt|Hge].
        { rewrite lookup_app_l in Hp by lia.
          destruct (Hcover p f Hp) as [HA|[HB|(g & b & Hg & Hb & Hq)]].
          - lia.
          - right. left. by apply break_between_snoc.
          - right. right. exists g, b.
            split; [by apply lookup_app_l_Some|]. split; [|done].
            apply elem_of_app. by left. }
        destruct (decide (p + iv < length frames + 1)%nat) as [Hpair|Hnone].
        { right. right.
          destruct (lookup_lt_is_Some_2 (frames ++ [frame]) (p + iv)%nat)
            as [g Hg].
          { rewrite length_app. cbn. lia. }
          exists g, (MkBatch batch numbers).
          split; [done|]. split; [apply elem_of_app; right; by left|].
          exists (p - length passed)%nat. cbn [batch_frames].
          rewrite Hframes in Hp, Hg.
          rewrite lookup_app_r in Hp by lia.
          rewrite lookup_app_r in Hg by lia.
          split; [done|].
          by replace (p - length passed + iv)%nat
            with (p + iv - length passed)%nat by lia. }
        destruct (bool_decide (frame ∈ breaks)) eqn:Hbreak.
        { right. left. exists (length frames), frame.
          split; [lia|]. split.
          - rewrite lookup_app_r by lia. by rewrite Nat.sub_diag.
          - by apply bool_decide_eq_true in Hbreak. }
        left. rewrite length_app, length_take.
        unfold clamp_index.
        destruct (Z.ltb_spec (-1 * imageStereoInterval) 0); lia.
Qed.

Lemma window_inv_run (pairs : list Pair) : window_inv pairs (run pairs).
Proof.
  induction pairs as [|pair pairs IH] using rev_ind.
  - apply window_inv_start.
  - by apply window_inv_step.
Qed.

Lemma size_inv_step (st : sched_state Pair) (pair : Pair) :
  1 <= imageStereoInterval < bundleLength ->
  size_inv st -> size_inv (step st pair).
Proof.
  intros Hiv [Hwork Hdone].
  destruct (inside (frameNumberOf pair)) eqn:Hin;
    [|by rewrite step_outside].
  rewrite step_inside by done. cbn zeta.
  set (frame := frameNumberOf pair).
  set (batch := batchImageCameraPairs st ++ [pair]).
  assert (Hlen : Z.of_nat (length batch)
                 = Z.of_nat (length (batchImageCameraPairs st)) + 1).
  { unfold batch. rewrite length_app. cbn. lia. }
  destruct (Z.ltb_spec (Z.of_nat (length batch)) bundleLength) as [Hlt|Hge];
    cbn [andb].
  - destruct (Z.ltb_spec frame stopFrame) as [Hstop|Hstop]; cbn [andb].
    + destruct (bool_decide (frame ∈ breaks)) eqn:Hbreak; cbn [negb].
      * split; cbn [batchImageCameraPairs emitted]; [cbn; lia|].
        apply Forall_app. split; [done|]. constructor; [|done].
        cbn [batch_pairs batch_frames]. split; [lia|]. right.
        exists frame. rewrite last_snoc. split; [done|]. left.
        by apply bool_decide_eq_true in Hbreak.
      * by split.
    + split; cbn [batchImageCameraPairs emitted].
      * destruct (bool_decide (frame ∈ breaks)); [cbn; lia|].
        rewrite list_slice_from_tail by lia. rewrite length_drop. lia.
      * apply Forall_app. split; [done|]. constructor; [|done].
        cbn [batch_pairs batch_frames]. split; [lia|]. right.
        exists frame. rewrite last_snoc. split; [done|]. by right.
  - split; cbn [batchImageCameraPairs emitted].
    + destruct (bool_decide (frame ∈ breaks)); [cbn; lia|].
      rewrite list_slice_from_tail by lia. rewrite length_drop. lia.
    + apply Forall_app. split; [done|]. constructor; [|done].
      cbn [batch_pairs batch_frames]. split; [lia|]. left. lia.
Qed.

Lemma size_inv_run (pairs : list Pair) :
  1 <= imageStereoInterval < bundleLength -> size_inv (run pairs).
Proof.
  intros Hiv. induction pairs as [|pair pairs IH] using rev_ind.
  - split; cbn; [lia | done].
  - rewrite run_snoc. by apply size_inv_step.
Qed.

Lemma run_all_outside (pairs : list Pair) :
  Forall (fun pair => inside (frameNumberOf pair) = false) pairs ->
  run pairs = MkSched [] [] [].
Proof.
  induction pairs as [|pair pairs IH] using rev_ind; [done|].
  intros [Hall Hpair]%Forall_app. rewrite run_snoc, (IH Hall).
  apply step_outside. by apply Forall_inv in Hpair.
Qed.

End WindowFacts.

(** X8.  What the overlap between the batches is for.  With a stereo
    interval of at least one, and the last in-range frame not below the
    stop frame, every in-range frame whose partner [imageStereoInterval]
    places on is in range too, with no break frame from the frame up to
    just before the partner, is the left image of a stereo pair inside
    some batch: the batch holds both, that many places apart. *)
Theorem every_stereo_pair_is_in_a_batch
  (Pair : Type) (frameNumberOf : Pair -> Z)
  (startFrame stopFrame bundleLength imageStereoInterval : Z)
  (breaks : list Z) (imageCameraPairs : list Pair)
  (p : nat) (f g : Z) :
  let frames :=
    in_range_frames Pair frameNumberOf startFrame stopFrame
                    imageCameraPairs in
  let bs :=
    batch_frame_lists Pair frameNumberOf startFrame stopFrame bundleLength
                      imageStereoInterval breaks imageCameraPairs in
  1 <= imageStereoInterval ->
  (forall l, last frames = Some l -> stopFrame <= l) ->
  frames !! p = Some f ->
  frames !! (p + Z.to_nat imageStereoInterval)%nat = Some g ->
  (forall r h, (p <= r < p + Z.to_nat imageStereoInterval)%nat ->
               frames !! r = Some h -> h ∉ breaks) ->
  exists b, b ∈ bs /\ stereo_pair_in imageStereoInterval b f g.
Proof.
  cbn zeta. intros Hiv Hstop Hf Hg Hclear.
  destruct (window_inv_run frameNumberOf startFrame stopFrame bundleLength
              imageStereoInterval breaks imageCameraPairs)
    as (passed & flushed & Hsplit & _ & _ & _ & Hpairs).
  destruct (Hpairs Hiv) as [Hwindow Hcover].
  destruct (Hcover p f Hf) as [HA|[HB|(g' & b & Hg' & Hb & Hq)]].
  - exfalso.
    destruct (last (in_range_frames Pair frameNumberOf startFrame stopFrame
                      imageCameraPairs)) as [l|] eqn:Hlast.
    + specialize (Hwindow l eq_refl (Hstop l eq_refl)).
      apply lookup_lt_Some in Hg. rewrite Hsplit, length_app in Hg. lia.
    + apply last_None in Hlast. by rewrite Hlast in Hf.
  - exfalso. destruct HB as (r & h & Hr & Hh & Hbreak).
    by apply (Hclear r h).
  - rewrite Hg in Hg'. injection Hg' as <-.
    exists (batch_frames b). split; [|done].
    unfold batch_frame_lists, batches. apply list_elem_of_fmap. by exists b.
Qed.

(** Frames 0 to 4, bundles of three, interval 2: the pair (1, 3) is in
    the batch [[1; 2; 3]]. *)
Lemma every_stereo_pair_is_in_a_batch_witness :
  exists b, b ∈ batch_frame_lists Z id 0 4 3 2 [] [0; 1; 2; 3; 4]
            /\ stereo_pair_in 2 b 1 3.
Proof.
  apply (every_stereo_pair_is_in_a_batch Z id 0 4 3 2 [] [0; 1; 2; 3; 4] 1).
  - lia.
  - intros l Hl. vm_compute in Hl. injection Hl as <-. lia.
  - reflexivity.
  - reflexivity.
  - intros r h _ _ Hin. by apply elem_of_nil in Hin.
Defined.

(** X9.  A batch is a run of consecutive in-range frames: its frame
    numbers appear in the list of in-range frames side by side and in the
    same order; and the frames the batches end at follow each other in
    the order of the input. *)
Theorem batches_are_runs_of_consecutive_frames
  (Pair : Type) (frameNumberOf : Pair -> Z)
  (startFrame stopFrame bundleLength imageStereoInterval : Z)
  (breaks : list Z) (imageCameraPairs : list Pair) :
  let frames :=
    in_range_frames Pair frameNumberOf startFrame stopFrame
                    imageCameraPairs in
  let bs :=
    batch_frame_lists Pair frameNumberOf startFrame stopFrame bundleLength
                      imageStereoInterval breaks imageCameraPairs in
  (forall b, b ∈ bs -> exists pre post, frames = pre ++ b ++ post)
  /\ sublist (omap last bs) frames
  /\ length (omap last bs) = length bs.
Proof.
  cbn zeta.
  destruct (window_inv_run frameNumberOf startFrame stopFrame bundleLength
              imageStereoInterval breaks imageCameraPairs)
    as (passed & flushed & _ & Hinfix & Hsub & Hlast & _).
  unfold batch_frame_lists, batches.
  set (st := schedule Pair frameNumberOf startFrame stopFrame bundleLength
               imageStereoInterval breaks imageCameraPairs) in *.
  assert (Hends : omap last (batch_frames <$> emitted st) = flushed).
  { clear Hinfix Hsub. induction Hlast as [|b f bs fs Hb _ IH]; [done|].
    rewrite fmap_cons. cbn [omap list_omap]. rewrite Hb.
    cbn [omap list_omap] in IH. by rewrite IH. }
  split; [|split].
  - intros b (B & -> & HB)%list_elem_of_fmap.
    by apply (proj1 (Forall_forall _ _) Hinfix).
  - by rewrite Hends.
  - rewrite Hends, length_fmap. symmetry. by eapply Forall2_length.
Qed.

(** X10.  With a stereo interval of at least one and below the bundle
    length, no batch has more than [bundleLength] pairs, none is empty,
    and a batch with fewer pairs than that ends at a break frame or at a
    frame not below the stop frame. *)
Theorem batches_are_no_larger_than_the_bundle_length
  (Pair : Type) (frameNumberOf : Pair -> Z)
  (startFrame stopFrame bundleLength imageStereoInterval : Z)
  (breaks : list Z) (imageCameraPairs : list Pair) (b : Batch Pair) :
  1 <= imageStereoInterval < bundleLength ->
  b ∈ batches Pair frameNumberOf startFrame stopFrame bundleLength
              imageStereoInterval breaks imageCameraPairs ->
  1 <= Z.of_nat (length (batch_pairs b)) <= bundleLength
  /\ (Z.of_nat (length (batch_pairs b)) < bundleLength ->
      exists f, last (batch_frames b) = Some f
                /\ (f ∈ breaks \/ stopFrame <= f)).
Proof.
  intros Hiv Hb.
  destruct (size_inv_run frameNumberOf startFrame stopFrame bundleLength
              imageStereoInterval breaks imageCameraPairs Hiv)
    as [_ Hall].
  destruct (proj1 (Forall_forall _ _) Hall b Hb) as [Hsize Hshort].
  split; [done|]. intros Hlt. destruct Hshort as [Heq|Hend]; [lia | done].
Qed.

Lemma batches_are_no_larger_than_the_bundle_length_witness :
  1 <= Z.of_nat (length (batch_pairs (MkBatch [3; 4] [3; 4]))) <= 3
  /\ (Z.of_nat (length (batch_pairs (MkBatch [3; 4] [3; 4]))) < 3 ->
      exists f, last (batch_frames (MkBatch [3; 4] [3; 4])) = Some f
                /\ (f ∈ [2] \/ 4 <= f)).
Proof.
  apply (batches_are_no_larger_than_the_bundle_length
           Z id 0 4 3 1 [2] [0; 1; 2; 3; 4]).
  - lia.
  - vm_compute. right. left.
Defined.

(** X11.  A stop frame other than zero that lies below every frame number
    leaves nothing to process: no batch is emitted.  The default stop
    frame, -1, is such a one for the frame numbers file names carry. *)
Theorem stop_frame_below_every_frame_gives_no_batch
  (Pair : Type) (frameNumberOf : Pair -> Z)
  (startFrame stopFrame bundleLength imageStereoInterval : Z)
  (breaks : list Z) (imageCameraPairs : list Pair) :
  stopFrame <> 0 ->
  Forall (fun pair => stopFrame < frameNumberOf pair) imageCameraPairs ->
  batches Pair frameNumberOf startFrame stopFrame bundleLength
          imageStereoInterval breaks imageCameraPairs = [].
Proof.
  intros Hnz Hall. unfold batches.
  rewrite run_all_outside; [done|].
  eapply Forall_impl; [exact Hall|]. cbn beta. intros pair Hlt.
  unfold in_range.
  destruct (Z.eqb_spec stopFrame 0) as [|_]; [done|].
  destruct (Z.ltb_spec stopFrame (frameNumberOf pair)); [|lia].
  cbn. by rewrite andb_false_r.
Qed.

Lemma stop_frame_below_every_frame_gives_no_batch_witness :
  batches Z id (-1) (-1) 2 1 [] [0; 1; 2; 3] = [].
Proof.
  apply stop_frame_below_every_frame_gives_no_batch; [lia|].
  repeat constructor.
Defined.

(** ** The output folders of the batches *)

Lemma str_app_inv_l (a x y : string) : a +:+ x = a +:+ y -> x = y.
Proof.
  induction a as [|c a IH]; [done|].
  rewrite !str_app_cons. intros [= H]. by apply IH.
Qed.

Lemma path_join_inj (a : string) (c : ascii) (x y : string) :
  c <> "/"%char ->
  path_join a (String c x) = path_join a (String c y) -> x = y.
Proof.
  intros Hc. unfold path_join.
  assert (Hsame : forall z : string,
            match String c z with
            | String "/" _ => String c z
            | _ => if String.eqb a "" || String.eqb (str_slice (Some (-1)) None a) "/"
                   then a +:+ String c z else a +:+ "/" +:+ String c z
            end
            = if String.eqb a "" || String.eqb (str_slice (Some (-1)) None a) "/"
              then a +:+ String c z else a +:+ "/" +:+ String c z).
  { intros z. destruct c as [[] [] [] [] [] [] [] []]; done. }
  rewrite !Hsame.
  destruct (String.eqb a "" || String.eqb (str_slice (Some (-1)) None a) "/").
  - intros H%str_app_inv_l. by injection H.
  - intros H%str_app_inv_l%(str_app_inv_l "/"). by injection H.
Qed.

(** The name of a batch folder determines the two frame numbers. *)
Lemma batch_name_inj (a b c d : Z) :
  py_str a +:+ "_" +:+ py_str b = py_str c +:+ "_" +:+ py_str d ->
  a = c /\ b = d.
Proof.
  assert (Hplain : forall n, str_has "_" (py_str n) = false).
  { intros n. apply py_str_chars; [|done].
    intros x Hx. by destruct x as [[] [] [] [] [] [] [] []]. }
  intros Heq. apply (f_equal (split_on "_")) in Heq.
  change ("_" +:+ py_str b) with (String "_" (py_str b)) in Heq.
  change ("_" +:+ py_str d) with (String "_" (py_str d)) in Heq.
  rewrite !split_on_app, !split_on_plain in Heq by done.
  injection Heq as Ha Hb.
  apply (f_equal py_int) in Ha, Hb. rewrite !py_int_py_str in Ha, Hb.
  by injection Ha as ->; injection Hb as ->.
Qed.

Lemma thisOutputFolder_named (outputFolder : string) (frameNumbers : list Z)
  (final : Z) :
  last frameNumbers = Some final ->
  exists first : Z,
    head frameNumbers = Some first
    /\ thisOutputFolder outputFolder frameNumbers
       = Ret (path_join outputFolder
                ("batch_" +:+ py_str first +:+ "_" +:+ py_str final)).
Proof.
  intros Hlast. destruct frameNumbers as [|first rest]; [done|].
  exists first. split; [done|].
  unfold thisOutputFolder, list_get, list_last. rewrite Hlast. done.
Qed.

(** X12.  When no frame number occurs twice among the in-range frames,
    every batch gets an output folder of its own: the folders of two
    different batches of a run are named, and named differently. *)
Theorem batches_get_distinct_output_folders
  (Pair : Type) (frameNumberOf : Pair -> Z)
  (startFrame stopFrame bundleLength imageStereoInterval : Z)
  (breaks : list Z) (imageCameraPairs : list Pair)
  (outputFolder : string) (i j : nat) (b b' : list Z) :
  let bs :=
    batch_frame_lists Pair frameNumberOf startFrame stopFrame bundleLength
                      imageStereoInterval breaks imageCameraPairs in
  NoDup (in_range_frames Pair frameNumberOf startFrame stopFrame
                         imageCameraPairs) ->
  bs !! i = Some b -> bs !! j = Some b' -> i <> j ->
  exists folder folder' : string,
    thisOutputFolder outputFolder b = Ret folder
    /\ thisOutputFolder outputFolder b' = Ret folder'
    /\ folder <> folder'.
Proof.
  cbn zeta. intros Hnodup Hi Hj Hij.
  destruct (window_inv_run frameNumberOf startFrame stopFrame bundleLength
              imageStereoInterval breaks imageCameraPairs)
    as (passed & flushed & _ & _ & Hsub & Hlast & _).
  unfold batch_frame_lists, batches in Hi, Hj.
  apply list_lookup_fmap_Some in Hi as (B & -> & HB).
  apply list_lookup_fmap_Some in Hj as (B' & -> & HB').
  destruct (Forall2_lookup_l _ _ _ _ _ Hlast HB) as (f & Hf & Hend).
  destruct (Forall2_lookup_l _ _ _ _ _ Hlast HB') as (f' & Hf' & Hend').
  assert (Hne : f <> f').
  { intros <-. apply Hij.
    eapply NoDup_lookup; [|exact Hf|exact Hf'].
    by eapply sublist_NoDup. }
  destruct (thisOutputFolder_named outputFolder _ _ Hend)
    as (first & _ & ->).
  destruct (thisOutputFolder_named outputFolder _ _ Hend')
    as (first' & _ & ->).
  eexists _, _. split; [done|]. split; [done|].
  change ("batch_" +:+ py_str first +:+ "_" +:+ py_str f)
    with (String "b" ("atch_" +:+ py_str first +:+ "_" +:+ py_str f)).
  change ("batch_" +:+ py_str first' +:+ "_" +:+ py_str f')
    with (String "b" ("atch_" +:+ py_str first' +:+ "_" +:+ py_str f')).
  intros Hsame.
  apply path_join_inj in Hsame; [|done].
  apply str_app_inv_l, batch_name_inj in Hsame as [_ Hsame]. done.
Qed.

(** The three batches of the frames 0 to 4 with bundles of three and
    interval 2. *)
Lemma batches_get_distinct_output_folders_witness :
  exists folder folder' : string,
    thisOutputFolder "out" [0; 1; 2] = Ret folder
    /\ thisOutputFolder "out" [2; 3; 4] = Ret folder'
    /\ folder <> folder'.
Proof.
  apply (batches_get_distinct_output_folders
           Z id 0 4 3 2 [] [0; 1; 2; 3; 4] "out" 0 2).
  - compute_done.
  - reflexivity.
  - reflexivity.
  - lia.
Defined.

(** ** The index: key sets, merging, keeping *)

Lemma py_for_invariant {A S : Type} (P : S -> Prop) (xs : list A)
  (body : A -> S -> py S) :
  (forall x s s', P s -> body x s = Ret s' -> P s') ->
  forall s s', P s -> py_for xs body s = Ret s' -> P s'.
Proof.
  intros Hbody. induction xs as [|x xs IH]; intros s s' Hs Hrun.
  - cbn in Hrun. by injection Hrun as <-.
  - cbn [py_for] in Hrun. destruct (body x s) as [s1|e] eqn:Hx; [|done].
    cbn [mbind py_bind] in Hrun. eapply IH; [|exact Hrun]. by eapply Hbody.
Qed.

(** X13.  The two maps [readIndexFile] returns have the same frames:
    every line gives its frame a file name and a location at once. *)
Theorem readIndexFile_maps_have_the_same_frames (parsedIndexPath : string)
  (fs : FS) (frameDict urlDict : gmap Z string) :
  readIndexFile parsedIndexPath fs = Ret (frameDict, urlDict) ->
  dom frameDict = dom urlDict.
Proof.
  unfold readIndexFile. destruct (fs !! parsedIndexPath) as [content|]; [|done].
  apply (py_for_invariant (fun dicts => dom dicts.1 = dom dicts.2));
    [|reflexivity].
  intros line [fd ud] [fd' ud'] Hdom. unfold read_index_line.
  destruct (length (split_on "," (strip line)) <=? 2)%nat; [done|].
  destruct (list_get _ 0) as [p0|]; [|done]. cbn [mbind py_bind].
  destruct (py_int p0) as [frameNumber|]; [|done]. cbn [mbind py_bind].
  destruct (list_get _ 1) as [p1|]; [|done]. cbn [mbind py_bind].
  destruct (list_get _ 2) as [p2|]; [|done]. cbn [mbind py_bind].
  intros [= <- <-]. cbn [fst snd] in *. by rewrite !dom_insert_L, Hdom.
Qed.

Lemma readIndexFile_maps_have_the_same_frames_witness :
  dom ({[ 39 := "a.JPG"; 40 := "b.JPG" ]} : gmap Z string)
  = dom ({[ 39 := "https://host/day"; 40 := "https://host/day" ]}
         : gmap Z string).
Proof.
  apply (readIndexFile_maps_have_the_same_frames "index.csv"
           {[ "index.csv" := "39, a.JPG, https://host/day
40, b.JPG, https://host/day
" ]}).
  vm_compute. reflexivity.
Defined.

Lemma merge_day_returns (localFrameDict localUrlDict : gmap Z string)
  (keys : list Z) :
  (forall frame, frame ∈ keys ->
     is_Some (localFrameDict !! frame) /\ is_Some (localUrlDict !! frame)) ->
  forall dicts : gmap Z string * gmap Z string,
    exists dicts',
      py_for keys
        (fun frame '(frameDict, urlDict) =>
           if bool_decide (is_Some (frameDict !! frame))
           then Ret (frameDict, urlDict)
           else
             name ← dict_get localFrameDict frame;
             url ← dict_get localUrlDict frame;
             Ret (<[frame := name]> frameDict, <[frame := url]> urlDict))
        dicts
      = Ret dicts'.
Proof.
  induction keys as [|k keys IH]; intros Hkeys [fd ud]; [by eexists|].
  cbn [py_for].
  destruct (bool_decide (is_Some (fd !! k))).
  - cbn [mbind py_bind]. apply IH. intros frame Hin. apply Hkeys. by right.
  - destruct (Hkeys k ltac:(by left)) as [[name Hname] [url Hurl]].
    unfold dict_get. rewrite Hname, Hurl. cbn [mbind py_bind].
    apply IH. intros frame Hin. apply Hkeys. by right.
Qed.

Lemma merge_day_union
  (localFrameDict localUrlDict frameDict urlDict : gmap Z string) :
  dom localFrameDict = dom localUrlDict ->
  dom frameDict = dom urlDict ->
  merge_day localFrameDict localUrlDict (frameDict, urlDict)
  = Ret (frameDict ∪ localFrameDict, urlDict ∪ localUrlDict).
Proof.
  intros Hlocal Hindex.
  assert (Hl : forall k, is_Some (localFrameDict !! k)
                         <-> is_Some (localUrlDict !! k)).
  { intros k. by rewrite <- !elem_of_dom, Hlocal. }
  assert (Hi : forall k, is_Some (frameDict !! k)
                         <-> is_Some (urlDict !! k)).
  { intros k. by rewrite <- !elem_of_dom, Hindex. }
  destruct (merge_day_returns localFrameDict localUrlDict
              (sorted_keys localFrameDict)) with (dicts := (frameDict, urlDict))
    as [[fd' ud'] Hrun].
  { intros frame Hin%sorted_keys_elem. split; [done | by apply Hl]. }
  unfold merge_day. rewrite Hrun. f_equal.
  pose proof (merge_keys_spec _ _ _ _ _ _ _ Hrun) as Hspec.
  f_equal; apply map_eq; intros k; rewrite lookup_union;
    destruct (Hspec k) as (Hkeep & Hnew & Hout).
  - destruct (frameDict !! k) as [v|] eqn:Hk.
    + destruct Hkeep as [-> _]; [by eauto|].
      by destruct (localFrameDict !! k).
    + destruct (decide (k ∈ sorted_keys localFrameDict)) as [Hin|Hnin].
      * destruct (Hnew eq_refl Hin) as (_ & _ & -> & _).
        by destruct (localFrameDict !! k).
      * destruct (Hout eq_refl Hnin) as [-> _].
        rewrite sorted_keys_elem in Hnin.
        by apply eq_None_not_Some in Hnin as ->.
  - destruct (frameDict !! k) as [v|] eqn:Hk.
    + destruct Hkeep as [_ ->]; [by eauto|].
      destruct (proj1 (Hi k)) as [u Hu]; [by rewrite Hk; eauto|].
      rewrite Hu. by destruct (localUrlDict !! k).
    + assert (Hnone : urlDict !! k = None).
      { apply eq_None_not_Some. rewrite <- Hi, Hk. by intros [? ?]. }
      destruct (decide (k ∈ sorted_keys localFrameDict)) as [Hin|Hnin].
      * destruct (Hnew eq_refl Hin) as (_ & _ & _ & ->).
        rewrite Hnone. by destruct (localUrlDict !! k).
      * destruct (Hout eq_refl Hnin) as [_ ->]. rewrite Hnone.
        rewrite sorted_keys_elem, Hl in Hnin.
        by apply eq_None_not_Some in Hnin as ->.
Qed.

(** X14.  Merging a day's listing into the index is a union that prefers
    what the index already has: when each pair of maps has the same
    frames, the merge raises nothing and returns the index extended by
    the entries of the listing for the frames the index did not have. *)
Theorem merge_day_is_a_union_preferring_the_index
  (localFrameDict localUrlDict frameDict urlDict : gmap Z string) :
  dom localFrameDict = dom localUrlDict ->
  dom frameDict = dom urlDict ->
  merge_day localFrameDict localUrlDict (frameDict, urlDict)
  = Ret (frameDict ∪ localFrameDict, urlDict ∪ localUrlDict).
Proof. apply merge_day_union. Qed.

Lemma merge_day_is_a_union_preferring_the_index_witness :
  merge_day {[ 1 := "next1"; 2 := "next2" ]} {[ 1 := "u1"; 2 := "u2" ]}
            ({[ 1 := "first1" ]}, {[ 1 := "u0" ]})
  = Ret ({[ 1 := "first1" ]} ∪ {[ 1 := "next1"; 2 := "next2" ]},
         {[ 1 := "u0" ]} ∪ {[ 1 := "u1"; 2 := "u2" ]}).
Proof.
  apply merge_day_is_a_union_preferring_the_index; by vm_compute.
Defined.

(** ** The index on disk *)

Lemma st_bind_run {S A B : Type} (m : stpy S A) (k : A -> stpy S B) (s : S) :
  (m ≫= k) s
  = match m s with
    | (s', Ret a) => k a s'
    | (s', Raise e) => (s', Raise e)
    end.
Proof. reflexivity. Qed.

(** X15.  An index that is already there is kept: with the refetch and
    the next-day options both off and a parsed index file that is not
    empty, [fetchAndParseIndexFile] returns the path of that file and
    changes neither the options nor any file, whatever the remote listing
    would give: the listing is not asked for. *)
Theorem existing_index_is_kept
  (listDay : bool -> Z -> string ->
             stpy (Options * FS) (gmap Z string * gmap Z string))
  (isSouth : bool) (outputFolder : string) (o : Options) (fs : FS)
  (content : string) :
  let filename :=
    if bool_decide (type o ∈ LIDAR_TYPES) then "lidar" +:+ "_index.html"
    else type o +:+ "_index.html" in
  let parsedIndexPath := path_join outputFolder filename +:+ ".csv" in
  fetchNextDay o = false ->
  refetchIndex o = false ->
  fs !! parsedIndexPath = Some content ->
  content <> "" ->
  fetchAndParseIndexFile listDay isSouth outputFolder (o, fs)
  = ((o, fs), Ret parsedIndexPath).
Proof.
  cbn zeta. intros Hnext Hflag Hfile Hne.
  unfold fetchAndParseIndexFile.
  rewrite st_bind_run. unfold st_gets at 1. cbn [fst]. rewrite Hnext.
  rewrite st_bind_run. unfold mret at 1, stpy_ret at 1.
  rewrite st_bind_run. unfold st_gets at 1. cbn [fst].
  rewrite st_bind_run. unfold st_gets at 1. cbn [fst]. rewrite Hflag.
  rewrite st_bind_run. unfold mret at 1, stpy_ret at 1.
  rewrite st_bind_run. unfold on_fs at 1, st_gets at 1, fileNonEmpty at 1.
  rewrite Hfile.
  by apply String.eqb_neq in Hne as ->.
Qed.

Lemma existing_index_is_kept_witness :
  let listDay (isSouth : bool) (dayVal : Z) (indexPath : string)
      : stpy (Options * FS) (gmap Z string * gmap Z string) :=
    st_raise IOError in
  let o := MkOptions 2009 10 16 "" "AN" "image" 39 39 (-1)
                     false false false false false in
  let fs : FS := {[ "out/image_index.html.csv" := "39, a.JPG, https://host/day
" ]} in
  fetchAndParseIndexFile listDay true "out" (o, fs)
  = ((o, fs), Ret "out/image_index.html.csv").
Proof.
  cbn zeta.
  apply (existing_index_is_kept _ true "out"
           (MkOptions 2009 10 16 "" "AN" "image" 39 39 (-1)
                      false false false false false)
           _ "39, a.JPG, https://host/day
").
  - reflexivity.
  - reflexivity.
  - reflexivity.
  - discriminate.
Defined.

(** ** From the listing to the maps [doFetch] works with *)

(** X16.  The start of [doFetch], end to end, for a single day with the
    refetch option on and an index path of plain characters (one word
    for the shell): when the listing of the day gives two maps with the
    same frames, whose file names and locations have no comma, no line
    break and no white space at either end, the maps [doFetch] reads
    back from the index file it has just had written are exactly those
    of the listing, and the index file holds one line per frame. *)
Theorem fetched_listing_is_read_back
  (listDay : bool -> Z -> string ->
             stpy (Options * FS) (gmap Z string * gmap Z string))
  (outputFolder : string) (o o' : Options) (fs fs' : FS)
  (frameDict urlDict : gmap Z string) :
  let isSouth := String.eqb (site o) "AN" in
  let filename :=
    if bool_decide (type o ∈ LIDAR_TYPES) then "lidar" +:+ "_index.html"
    else type o +:+ "_index.html" in
  let indexPath := path_join outputFolder filename in
  let parsedIndexPath := indexPath +:+ ".csv" in
  refetchIndex o = true ->
  fetchNextDay o = false ->
  shell_plain indexPath = true ->
  listDay isSouth 0 indexPath
          (o, delete parsedIndexPath (delete indexPath fs))
    = ((o', fs'), Ret (frameDict, urlDict)) ->
  dom frameDict = dom urlDict ->
  (forall frame name, frameDict !! frame = Some name -> index_field_ok name) ->
  (forall frame url, urlDict !! frame = Some url -> index_field_ok url) ->
  doFetch_readIndex listDay outputFolder (o, fs)
  = ((o', <[parsedIndexPath :=
              index_text frameDict urlDict (sorted_keys frameDict)]> fs'),
     Ret (frameDict, urlDict)).
Proof.
  cbn zeta. intros Hflag Hnext Hplain Hlist Hdom Hnames Hurls.
  assert (Hsame : forall frame, is_Some (frameDict !! frame)
                                <-> is_Some (urlDict !! frame)).
  { intros k. by rewrite <- !elem_of_dom, Hdom. }
  unfold doFetch_readIndex.
  rewrite st_bind_run. unfold st_gets at 1. cbn [fst].
  rewrite st_bind_run.
  rewrite fetchAndParseIndexFile_refetch by done. cbn zeta. rewrite Hnext.
  unfold build_index. rewrite st_bind_run.
  cbn [st_for]. rewrite st_bind_run.
  unfold day_body at 1. cbn [length Nat.ltb Nat.leb].
  rewrite st_bind_run. unfold mret at 1, stpy_ret at 1.
  rewrite st_bind_run. rewrite Hlist.
  rewrite st_bind_run. unfold st_lift at 1.
  rewrite merge_day_union by done. rewrite !(left_id_L ∅ (∪)).
  unfold mret at 1, stpy_ret at 1.
  unfold mret at 1, stpy_ret at 1.
  rewrite st_bind_run. unfold on_fs at 1.
  rewrite write_index_text by done.
  unfold mret at 1, stpy_ret at 1.
  unfold try_except. unfold on_fs at 1.
  rewrite st_bind_run. unfold st_get at 1, st_lift at 1.
  by rewrite read_written_index.
Qed.

(** A listing of one frame, fetched into an empty folder. *)
Lemma fetched_listing_is_read_back_witness :
  let listDay (isSouth : bool) (dayVal : Z) (indexPath : string)
      : stpy (Options * FS) (gmap Z string * gmap Z string) :=
    mret ({[ 39 := "2009_10_16_00039.JPG" ]}, {[ 39 := "https://host/day" ]}) in
  let o := MkOptions 2009 10 16 "" "AN" "image" 39 39 (-1)
                     false false false false true in
  (doFetch_readIndex listDay "out" (o, ∅)).2
  = Ret ({[ 39 := "2009_10_16_00039.JPG" ]}, {[ 39 := "https://host/day" ]}).
Proof.
  cbn zeta.
  rewrite (fetched_listing_is_read_back _ "out" _
             (MkOptions 2009 10 16 "" "AN" "image" 39 39 (-1)
                        false false false false true)
             ∅ (delete "out/image_index.html.csv"
                       (delete "out/image_index.html" ∅))
             {[ 39 := "2009_10_16_00039.JPG" ]} {[ 39 := "https://host/day" ]});
    try reflexivity.
  - intros frame name [_ <-]%lookup_singleton_Some. by vm_compute.
  - intros frame url [_ <-]%lookup_singleton_Some. by vm_compute.
Defined.

(** ** What fetching and validating do to the files *)

Lemma st_for_preserves {S A B : Type} (P : S -> Prop) (xs : list A)
  (body : A -> B -> stpy S B) :
  (forall x acc s, P s -> P (body x acc s).1) ->
  forall acc s, P s -> P (st_for xs body acc s).1.
Proof.
  intros Hbody. induction xs as [|x xs IH]; intros acc s Hs; [done|].
  cbn [st_for]. rewrite st_bind_run.
  specialize (Hbody x acc s Hs).
  destruct (body x acc s) as [s' [acc'|e]]; [|done]. by apply IH.
Qed.

Lemma fetch_body_dry_run (curl : list string -> FS -> FS) (batchSize : Z)
  (files urls : list string) (i : nat)
  (acc : list string * Z * list (list string)) (fs : FS) :
  (fetch_body curl batchSize true files urls i acc fs).1 = fs.
Proof.
  destruct acc as [[c n] issued]. unfold fetch_body.
  rewrite st_bind_run. unfold st_lift at 1.
  destruct (list_get files i) as [file|]; [|done].
  rewrite st_bind_run. unfold st_gets at 1.
  destruct (fileNonEmpty file fs); cbn [negb]; rewrite st_bind_run.
  - unfold mret at 1, stpy_ret at 1. cbn beta iota. by destruct (_ && _).
  - rewrite st_bind_run. unfold st_lift at 1.
    destruct (list_get urls i) as [url|]; [|done].
    unfold mret at 1, stpy_ret at 1. cbn beta iota. by destruct (_ && _).
Qed.

(** X17.  A dry run of [fetchFilesInBatches] leaves every file as it is,
    and so does a call with lists of different lengths, which raises
    before anything is fetched. *)
Theorem fetchFilesInBatches_dry_run_touches_no_file
  (curl : list string -> FS -> FS) (batchSize : Z)
  (files urls : list string) (fs : FS) :
  (fetchFilesInBatches curl batchSize true files urls fs).1 = fs
  /\ forall dryRun : bool,
       length files <> length urls ->
       fetchFilesInBatches curl batchSize dryRun files urls fs
       = (fs, Raise (Exception "Expecting as many files as urls.")).
Proof.
  split.
  - unfold fetchFilesInBatches.
    destruct (negb (length files =? length urls)%nat); [done|].
    rewrite st_bind_run.
    assert (Hkeep : (st_for (seq 0 (length files))
                       (fetch_body curl batchSize true files urls)
                       ([], 0, []) fs).1 = fs).
    { apply (st_for_preserves (fun s => s = fs)); [|done].
      intros i acc s ->. apply fetch_body_dry_run. }
    destruct (st_for _ _ _ fs) as [s' [[[c n] issued]|e]]; exact Hkeep.
  - intros dryRun Hlen. unfold fetchFilesInBatches.
    by destruct (Nat.eqb_spec (length files) (length urls)).
Qed.

(** *** Validation removes, and does nothing else *)

Lemma only_removes_ret {A : Type} (a : A) : only_removes (mret a).
Proof. by intros fs. Qed.

Lemma only_removes_gets {A : Type} (f : FS -> A) : only_removes (st_gets f).
Proof. by intros fs. Qed.

Lemma only_removes_get : only_removes st_get.
Proof. by intros fs. Qed.

Lemma only_removes_lift {A : Type} (m : py A) : only_removes (st_lift m).
Proof. by intros fs. Qed.

Lemma only_removes_bind {A B : Type} (m : stpy FS A) (k : A -> stpy FS B) :
  only_removes m -> (forall a, only_removes (k a)) -> only_removes (m ≫= k).
Proof.
  intros Hm Hk fs. rewrite st_bind_run. specialize (Hm fs).
  destruct (m fs) as [fs' [a|e]]; [|done].
  etrans; [apply Hk | exact Hm].
Qed.

Lemma only_removes_os_remove (path : string) : only_removes (os_remove path).
Proof.
  intros fs. unfold os_remove. destruct (fs !! path); [|done].
  apply delete_subseteq.
Qed.

Lemma only_removes_remove_if_exists (path : string) :
  only_removes (remove_if_exists path).
Proof.
  apply only_removes_bind; [apply only_removes_gets|].
  intros []; [apply only_removes_os_remove | apply only_removes_ret].
Qed.

Lemma only_removes_for {A B : Type} (xs : list A)
  (body : A -> B -> stpy FS B) (acc : B) :
  (forall x acc, only_removes (body x acc)) ->
  only_removes (st_for xs body acc).
Proof.
  intros Hbody. revert acc. induction xs as [|x xs IH]; intros acc.
  - apply only_removes_ret.
  - cbn [st_for]. by apply only_removes_bind.
Qed.

Section ValidationRemoves.

Context (gdalinfo_ok : string -> bool).
Context (latitude_in_text : string -> option Q).
Context (hasValidChkSum isValidTfw : string -> FS -> bool).

Lemma only_removes_check_latitude (isSouth : bool) (outputPath : string) :
  only_removes (check_latitude latitude_in_text isSouth outputPath).
Proof.
  unfold check_latitude.
  destruct (String.eqb _ _); [|apply only_removes_ret].
  apply only_removes_bind; [apply only_removes_gets|].
  intros []; [|apply only_removes_ret].
  apply only_removes_bind; [apply only_removes_get|]. intros fs.
  apply only_removes_bind; [apply only_removes_lift|]. intros latitude.
  destruct (negb _); [|apply only_removes_ret].
  apply only_removes_bind; [apply only_removes_os_remove|]. intros _.
  apply only_removes_bind; [apply only_removes_lift|]. intros imageFile.
  apply only_removes_bind; [apply only_removes_gets|].
  intros []; [apply only_removes_os_remove | apply only_removes_ret].
Qed.

Lemma only_removes_wipe_with_xml (outputPath : string)
  (failedFiles : list string) :
  only_removes (wipe_with_xml outputPath failedFiles).
Proof.
  unfold wipe_with_xml.
  apply only_removes_bind; [apply only_removes_remove_if_exists|]. intros _.
  apply only_removes_bind; [apply only_removes_remove_if_exists|]. intros _.
  apply only_removes_ret.
Qed.

Lemma only_removes_validate_file (skip isSouth hasXml hasTfw : bool)
  (outputPath : string) (failedFiles : list string) :
  only_removes
    (validate_file gdalinfo_ok latitude_in_text hasValidChkSum isValidTfw
                   skip isSouth hasXml hasTfw outputPath failedFiles).
Proof.
  unfold validate_file. destruct skip; [apply only_removes_ret|].
  apply only_removes_bind; [apply only_removes_gets|].
  intros present. destruct (negb present); [apply only_removes_ret|].
  apply only_removes_bind.
  { destruct (hasImageExtension outputPath); [|apply only_removes_ret].
    apply only_removes_bind; [apply only_removes_gets|]. intros valid.
    apply only_removes_ret. }
  intros [].
  { apply only_removes_bind; [apply only_removes_remove_if_exists|].
    intros _. apply only_removes_ret. }
  apply only_removes_bind; [apply only_removes_check_latitude|]. intros _.
  assert (Htfw : only_removes
            (if hasTfw && String.eqb (fileExtension outputPath) ".tfw"
             then isGood ← st_gets (isValidTfw outputPath);
                  if negb isGood then wipe_with_xml outputPath failedFiles
                  else mret failedFiles
             else mret failedFiles)).
  { destruct (_ && _); [|apply only_removes_ret].
    apply only_removes_bind; [apply only_removes_gets|].
    intros []; [apply only_removes_ret | apply only_removes_wipe_with_xml]. }
  destruct (_ && _ && _ && _); [|exact Htfw].
  apply only_removes_bind; [apply only_removes_gets|].
  intros []; [exact Htfw | apply only_removes_wipe_with_xml].
Qed.

End ValidationRemoves.

(** X18.  Validation creates no file and changes the content of none:
    whatever the external checks answer, every file there is after
    [validate_all] was there before, with the same content. *)
Theorem validate_all_only_removes_files
  (gdalinfo_ok : string -> bool) (latitude_in_text : string -> option Q)
  (hasValidChkSum isValidTfw : string -> FS -> bool)
  (skip isSouth hasXml hasTfw : bool) (allFilesToFetch : list string)
  (fs : FS) :
  (validate_all gdalinfo_ok latitude_in_text hasValidChkSum isValidTfw
                skip isSouth hasXml hasTfw allFilesToFetch fs).1 ⊆ fs.
Proof.
  revert fs.
  change (only_removes
            (validate_all gdalinfo_ok latitude_in_text hasValidChkSum
                          isValidTfw skip isSouth hasXml hasTfw
                          allFilesToFetch)).
  unfold validate_all.
  apply only_removes_bind; [|intros ?; apply only_removes_ret].
  apply only_removes_for. intros outputPath failedFiles.
  apply only_removes_validate_file.
Qed.

(** ** What validation counts *)

Section ValidationCounts.

Context (gdalinfo_ok : string -> bool).
Context (latitude_in_text : string -> option Q).
Context (hasValidChkSum isValidTfw : string -> FS -> bool).

Local Abbreviation check := (check_latitude latitude_in_text).
Local Abbreviation validate :=
  (validate_file gdalinfo_ok latitude_in_text hasValidChkSum isValidTfw).
Local Abbreviation validate_every :=
  (validate_all gdalinfo_ok latitude_in_text hasValidChkSum isValidTfw).

Lemma check_latitude_bad (isSouth : bool) (outputPath content : string)
  (latitude : Q) (fs : FS) :
  fileExtension outputPath = ".xml" ->
  fs !! outputPath = Some content ->
  latitude_in_text content = Some latitude ->
  hasGoodLat latitude isSouth = false ->
  check isSouth outputPath fs
  = (delete (str_slice None (Some (-4)) outputPath) (delete outputPath fs),
     Ret tt).
Proof.
  intros Hext Hfile Hlat Hbad.
  unfold check_latitude. rewrite Hext. cbn [String.eqb Ascii.eqb Bool.eqb].
  unfold mbind, stpy_bind, st_gets, st_get, st_lift, path_exists,
    parseLatitude, os_remove, xmlToImage.
  cbn beta iota.
  rewrite bool_decide_true by (rewrite Hfile; eauto). cbn beta iota.
  rewrite Hfile, Hlat, Hbad. cbn [negb]. cbn beta iota.
  rewrite Hfile, Hext. cbn.
  set (image := str_slice None (Some (-4)) outputPath).
  destruct (delete outputPath fs !! image) as [c|] eqn:Himage.
  - rewrite bool_decide_true by eauto. cbn beta iota. by rewrite Himage.
  - rewrite bool_decide_false by (by intros [? ?]).
    rewrite (delete_id _ _ Himage). reflexivity.
Qed.

Lemma validate_file_bad_latitude (isSouth hasXml hasTfw : bool)
  (outputPath content : string) (latitude : Q) (fs : FS)
  (failedFiles : list string) :
  fileExtension outputPath = ".xml" ->
  fs !! outputPath = Some content ->
  content <> "" ->
  latitude_in_text content = Some latitude ->
  hasGoodLat latitude isSouth = false ->
  validate false isSouth hasXml hasTfw outputPath failedFiles fs
  = (delete (str_slice None (Some (-4)) outputPath) (delete outputPath fs),
     Ret failedFiles).
Proof.
  intros Hext Hfile Hne Hlat Hbad.
  unfold validate_file.
  rewrite (xml_extension_not_image _ Hext), (xml_extension_tail _ Hext), Hext.
  cbn [String.eqb Ascii.eqb Bool.eqb negb andb].
  rewrite !andb_false_r.
  rewrite st_bind_run. unfold st_gets at 1.
  unfold fileNonEmpty. rewrite Hfile.
  assert ((content =? "")%string = false) as -> by by apply String.eqb_neq.
  cbn [negb]. cbn beta iota.
  rewrite st_bind_run. unfold mret at 1. unfold stpy_ret at 1.
  cbn beta iota.
  rewrite st_bind_run.
  rewrite (check_latitude_bad _ _ _ _ _ Hext Hfile Hlat Hbad).
  reflexivity.
Qed.

(** The failures one file adds: none, the file, or the file and its
    sidecar. *)
Lemma validate_file_adds (skip isSouth hasXml hasTfw : bool)
  (outputPath : string) (failedFiles failedFiles' : list string)
  (fs fs' : FS) :
  validate skip isSouth hasXml hasTfw outputPath failedFiles fs
    = (fs', Ret failedFiles') ->
  failedFiles' = failedFiles
  \/ failedFiles' = failedFiles ++ [outputPath]
  \/ failedFiles' = failedFiles ++ [outputPath; xmlFile outputPath].
Proof.
  unfold validate_file. destruct skip; [intros [= _ <-]; by left|].
  rewrite st_bind_run. unfold st_gets at 1.
  destruct (negb (fileNonEmpty outputPath fs));
    [intros [= _ <-]; right; by left|].
  rewrite st_bind_run.
  destruct ((if hasImageExtension outputPath
             then valid ← st_gets (isValidImage gdalinfo_ok outputPath);
                  mret (negb valid)
             else mret false) fs) as [fs1 [[]|e]]; [| |done].
  { rewrite st_bind_run.
    destruct (remove_if_exists outputPath fs1) as [fs2 [[]|e]]; [|done].
    intros [= _ <-]. right. by left. }
  rewrite st_bind_run.
  destruct (check isSouth outputPath fs1) as [fs2 [[]|e]]; [|done].
  assert (Hwipe : forall s s' r,
            wipe_with_xml outputPath failedFiles s = (s', Ret r) ->
            r = failedFiles ++ [outputPath; xmlFile outputPath]).
  { intros s s' r. unfold wipe_with_xml.
    rewrite st_bind_run.
    destruct (remove_if_exists outputPath s) as [s1 [[]|e]]; [|done].
    rewrite st_bind_run.
    destruct (remove_if_exists (xmlFile outputPath) s1) as [s2 [[]|e]];
      [|done].
    by intros [= _ <-]. }
  assert (Htfw : forall s s' r,
            (if hasTfw && String.eqb (fileExtension outputPath) ".tfw"
             then isGood ← st_gets (isValidTfw outputPath);
                  if negb isGood then wipe_with_xml outputPath failedFiles
                  else mret failedFiles
             else mret failedFiles) s = (s', Ret r) ->
            r = failedFiles
            \/ r = failedFiles ++ [outputPath]
            \/ r = failedFiles ++ [outputPath; xmlFile outputPath]).
  { intros s s' r. destruct (_ && _); [|intros [= _ <-]; by left].
    rewrite st_bind_run. unfold st_gets at 1.
    destruct (negb (isValidTfw outputPath s)).
    - intros ->%Hwipe. right. by right.
    - intros [= _ <-]. by left. }
  destruct (_ && _ && _ && _); [|apply Htfw].
  rewrite st_bind_run. unfold st_gets at 1.
  destruct (negb (hasValidChkSum outputPath fs2)).
  - intros ->%Hwipe. right. by right.
  - apply Htfw.
Qed.

Lemma st_for_length_bound {A B : Type} (xs : list A)
  (body : A -> list B -> stpy FS (list B)) :
  (forall x acc acc' s s', body x acc s = (s', Ret acc') ->
     (length acc <= length acc' <= length acc + 2)%nat) ->
  forall acc acc' s s',
    st_for xs body acc s = (s', Ret acc') ->
    (length acc <= length acc' <= length acc + 2 * length xs)%nat.
Proof.
  intros Hbody. induction xs as [|x xs IH]; intros acc acc' s s' Hrun.
  - cbn in Hrun. injection Hrun as _ <-. cbn. lia.
  - cbn [st_for] in Hrun. rewrite st_bind_run in Hrun.
    destruct (body x acc s) as [s1 [acc1|e]] eqn:Hx; [|done].
    apply Hbody in Hx. apply IH in Hrun. cbn [length]. lia.
Qed.

Lemma validate_all_skips (isSouth hasXml hasTfw : bool)
  (allFilesToFetch failedFiles : list string) (fs : FS) :
  st_for allFilesToFetch (validate true isSouth hasXml hasTfw) failedFiles fs
  = (fs, Ret failedFiles).
Proof. induction allFilesToFetch as [|f fl IH]; [done|]. exact IH. Qed.

Lemma validate_all_missing (isSouth hasXml hasTfw : bool)
  (allFilesToFetch : list string) (fs : FS) :
  Forall (fun outputPath => fileNonEmpty outputPath fs = false)
         allFilesToFetch ->
  forall failedFiles,
    st_for allFilesToFetch (validate false isSouth hasXml hasTfw)
           failedFiles fs
    = (fs, Ret (failedFiles ++ allFilesToFetch)).
Proof.
  induction 1 as [|f fl Hf _ IH]; intros failedFiles.
  - cbn. by rewrite app_nil_r.
  - cbn [st_for]. rewrite st_bind_run. unfold validate_file at 1.
    rewrite st_bind_run. unfold st_gets at 1. rewrite Hf. cbn [negb].
    unfold mret at 1, stpy_ret at 1. rewrite IH. by rewrite <- app_assoc.
Qed.

End ValidationCounts.

(** X19.  A sidecar of the wrong hemisphere is wiped without being
    counted: when validation meets a non-empty [.xml] file whose latitude
    is not good for the hemisphere asked for, it removes the file and the
    file [xmlToImage] names for it, and the list of failed files stays as
    it was. *)
Theorem wrong_hemisphere_wipe_is_not_counted_as_failure
  (gdalinfo_ok : string -> bool) (latitude_in_text : string -> option Q)
  (hasValidChkSum isValidTfw : string -> FS -> bool)
  (isSouth hasXml hasTfw : bool) (outputPath content : string)
  (latitude : Q) (fs : FS) (failedFiles : list string) :
  fileExtension outputPath = ".xml" ->
  fs !! outputPath = Some content ->
  content <> "" ->
  latitude_in_text content = Some latitude ->
  hasGoodLat latitude isSouth = false ->
  exists imageFile : string,
    xmlToImage outputPath = Ret imageFile
    /\ validate_file gdalinfo_ok latitude_in_text hasValidChkSum isValidTfw
         false isSouth hasXml hasTfw outputPath failedFiles fs
       = (delete imageFile (delete outputPath fs), Ret failedFiles).
Proof.
  intros Hext Hfile Hne Hlat Hbad.
  exists (str_slice None (Some (-4)) outputPath).
  split; [unfold xmlToImage; by rewrite Hext|].
  by eapply validate_file_bad_latitude.
Qed.

(** An orthoimage of the northern hemisphere met by a run for the
    southern one: image and sidecar are gone, and no failure is
    reported. *)
Lemma wrong_hemisphere_wipe_is_not_counted_as_failure_witness :
  let fs : FS := {[ "out/DMS_1_00042_V02.tif.xml" := "<PointLatitude>69.5</PointLatitude>";
                    "out/DMS_1_00042_V02.tif" := "raster" ]} in
  validate_all (fun _ => true) (fun _ => Some (695 # 10)) (fun _ _ => true)
    (fun _ _ => true) false true true false
    ["out/DMS_1_00042_V02.tif"; "out/DMS_1_00042_V02.tif.xml"] fs
  = (∅, Ret 0).
Proof.
  cbn zeta. unfold validate_all. rewrite st_bind_run. cbn [st_for].
  rewrite st_bind_run.
  assert (Himage :
    validate_file (fun _ => true) (fun _ => Some (695 # 10)) (fun _ _ => true)
      (fun _ _ => true) false true true false "out/DMS_1_00042_V02.tif" []
      {[ "out/DMS_1_00042_V02.tif.xml" := "<PointLatitude>69.5</PointLatitude>";
         "out/DMS_1_00042_V02.tif" := "raster" ]}
    = ({[ "out/DMS_1_00042_V02.tif.xml" := "<PointLatitude>69.5</PointLatitude>";
          "out/DMS_1_00042_V02.tif" := "raster" ]}, Ret []))
    by (vm_compute; reflexivity).
  rewrite Himage. rewrite st_bind_run.
  destruct (wrong_hemisphere_wipe_is_not_counted_as_failure
              (fun _ => true) (fun _ => Some (695 # 10)) (fun _ _ => true)
              (fun _ _ => true) true true false
              "out/DMS_1_00042_V02.tif.xml"
              "<PointLatitude>69.5</PointLatitude>" (695 # 10)
              {[ "out/DMS_1_00042_V02.tif.xml" := "<PointLatitude>69.5</PointLatitude>";
                 "out/DMS_1_00042_V02.tif" := "raster" ]} []
              ltac:(vm_compute; reflexivity) ltac:(vm_compute; reflexivity)
              ltac:(discriminate) ltac:(reflexivity)
              ltac:(vm_compute; reflexivity))
    as (imageFile & Himg & Hrun).
  rewrite Hrun. injection Himg as <-. vm_compute. reflexivity.
Defined.

(** X20.  What [validate_all] reports: a number between zero and twice
    the number of files; zero, with every file left alone, when
    validation is skipped; and the number of files, with every file left
    alone, when none of them is there with a content. *)
Theorem validate_all_failure_count
  (gdalinfo_ok : string -> bool) (latitude_in_text : string -> option Q)
  (hasValidChkSum isValidTfw : string -> FS -> bool)
  (isSouth hasXml hasTfw : bool) (allFilesToFetch : list string) (fs : FS) :
  let validate skip :=
    validate_all gdalinfo_ok latitude_in_text hasValidChkSum isValidTfw
                 skip isSouth hasXml hasTfw allFilesToFetch fs in
  (forall skip fs' numFailed,
     validate skip = (fs', Ret numFailed) ->
     0 <= numFailed <= 2 * Z.of_nat (length allFilesToFetch))
  /\ validate true = (fs, Ret 0)
  /\ (Forall (fun outputPath => fileNonEmpty outputPath fs = false)
             allFilesToFetch ->
      validate false = (fs, Ret (Z.of_nat (length allFilesToFetch)))).
Proof.
  cbn zeta. unfold validate_all. split; [|split].
  - intros skip fs' numFailed. rewrite st_bind_run.
    destruct (st_for _ _ _ fs) as [s' [failed|e]] eqn:Hrun; [|done].
    intros [= _ <-].
    apply st_for_length_bound in Hrun; [cbn [length] in Hrun; lia|].
    intros x acc acc' s s1 Hx.
    apply validate_file_adds in Hx as [-> | [-> | ->]];
      rewrite ?length_app; cbn [length]; lia.
  - rewrite st_bind_run. by rewrite validate_all_skips.
  - intros Hmissing. rewrite st_bind_run.
    by rewrite validate_all_missing.
Qed.

(** ** [doFetch]: the files to fetch *)

Lemma select_sidecars (outputFolder folder : string) (urlDict : gmap Z string)
  (frame : Z) (names : list string) :
  urlDict !! frame = Some folder ->
  forall files urls : list string,
    py_for names
      (fun filename '(allFilesToFetch, allUrlsToFetch) =>
         folder ← dict_get urlDict frame;
         let url := path_join folder filename in
         let outputPath := path_join outputFolder filename in
         Ret (allFilesToFetch ++ [outputPath], allUrlsToFetch ++ [url]))
      (files, urls)
    = Ret (files ++ (path_join outputFolder <$> names),
           urls ++ (path_join folder <$> names)).
Proof.
  intros Hfolder.
  set (body := fun (filename : string) (acc : list string * list string) => _).
  induction names as [|name names IH]; intros files urls.
  - cbn. by rewrite !app_nil_r.
  - assert (Hstep : body name (files, urls)
                    = Ret (files ++ [path_join outputFolder name],
                           urls ++ [path_join folder name])).
    { unfold body, dict_get. by rewrite Hfolder. }
    cbn [py_for]. rewrite Hstep. cbn [mbind py_bind].
    rewrite IH, !fmap_cons. by rewrite <- !app_assoc.
Qed.

Lemma select_frames (outputFolder : string) (frameDict urlDict : gmap Z string)
  (startFrame stopFrame : Z) (hasXml hasTfw : bool) (keys : list Z) :
  (forall frame, frame ∈ keys ->
     is_Some (frameDict !! frame) /\ is_Some (urlDict !! frame)) ->
  forall files urls : list string,
    py_for keys
      (select_frame outputFolder frameDict urlDict startFrame stopFrame
                    hasXml hasTfw)
      (files, urls)
    = Ret (files
             ++ concat ((fun frame =>
                           paths_of_frame hasXml hasTfw outputFolder
                             (default "" (frameDict !! frame)))
                        <$> filter (fun frame =>
                                      startFrame <= frame <= stopFrame) keys),
           urls
             ++ concat ((fun frame =>
                           paths_of_frame hasXml hasTfw
                             (default "" (urlDict !! frame))
                             (default "" (frameDict !! frame)))
                        <$> filter (fun frame =>
                                      startFrame <= frame <= stopFrame) keys)).
Proof.
  induction keys as [|k keys IH]; intros Hkeys files urls.
  - cbn. by rewrite !app_nil_r.
  - destruct (Hkeys k ltac:(by left)) as [[name Hname] [folder Hfolder]].
    assert (Hstep :
      select_frame outputFolder frameDict urlDict startFrame stopFrame
                   hasXml hasTfw k (files, urls)
      = Ret (if decide (startFrame <= k <= stopFrame)
             then (files ++ paths_of_frame hasXml hasTfw outputFolder name,
                   urls ++ paths_of_frame hasXml hasTfw folder name)
             else (files, urls))).
    { unfold select_frame.
      destruct (decide (startFrame <= k <= stopFrame)) as [Hin|Hout].
      - assert ((startFrame <=? k) && (k <=? stopFrame) = true) as -> by lia.
        change (dict_get frameDict k)
          with (match frameDict !! k with
                | Some v => Ret v
                | None => Raise KeyError
                end).
        rewrite Hname. cbn [mbind py_bind].
        by rewrite (select_sidecars _ folder).
      - by assert ((startFrame <=? k) && (k <=? stopFrame) = false)
          as -> by lia. }
    cbn [py_for]. rewrite Hstep. cbn [mbind py_bind]. rewrite filter_cons.
    destruct (decide (startFrame <= k <= stopFrame)) as [Hin|Hout].
    + rewrite IH by (intros frame Hf; apply Hkeys; by right).
      rewrite !fmap_cons. cbn [concat]. cbv beta. rewrite Hname, Hfolder.
      cbn [default from_option id]. by rewrite <- !app_assoc.
    + apply IH. intros frame Hf. apply Hkeys. by right.
Qed.

(** X21.  When the two maps of the index have the same frames, the loop
    of [doFetch] that collects the files raises nothing and yields, for
    the frames of the index from the start frame to the stop frame in
    ascending order, the file of the frame, then its xml sidecar when the
    type has one, then its tfw sidecar when the type has one, each under
    the output folder in the one list and under the remote folder of the
    frame in the other; the two lists have the same length. *)
Theorem doFetch_collects_the_files_of_the_frame_range
  (outputFolder : string) (frameDict urlDict : gmap Z string)
  (startFrame stopFrame : Z) (hasXml hasTfw : bool) :
  dom frameDict = dom urlDict ->
  exists allFilesToFetch allUrlsToFetch : list string,
    py_for (sorted_keys frameDict)
      (select_frame outputFolder frameDict urlDict startFrame stopFrame
                    hasXml hasTfw)
      ([], [])
    = Ret (allFilesToFetch, allUrlsToFetch)
    /\ allFilesToFetch
       = concat ((fun frame =>
                    paths_of_frame hasXml hasTfw outputFolder
                      (default "" (frameDict !! frame)))
                 <$> frames_to_fetch frameDict startFrame stopFrame)
    /\ allUrlsToFetch
       = concat ((fun frame =>
                    paths_of_frame hasXml hasTfw
                      (default "" (urlDict !! frame))
                      (default "" (frameDict !! frame)))
                 <$> frames_to_fetch frameDict startFrame stopFrame)
    /\ length allFilesToFetch = length allUrlsToFetch.
Proof.
  intros Hdom. eexists _, _. split; [|split; [|split]].
  - apply select_frames. intros frame Hin%sorted_keys_elem.
    split; [done|]. by rewrite <- elem_of_dom, <- Hdom, elem_of_dom.
  - done.
  - done.
  - cbn [app]. unfold frames_to_fetch.
    induction (filter _ (sorted_keys frameDict)) as [|k ks IH]; [done|].
    rewrite !fmap_cons. cbn [concat]. rewrite !length_app, IH.
    unfold paths_of_frame. by rewrite !length_fmap.
Qed.

Lemma doFetch_collects_the_files_of_the_frame_range_witness :
  exists allFilesToFetch allUrlsToFetch : list string,
    py_for (sorted_keys {[ 1 := "a_DEM.tif"; 2 := "b_DEM.tif" ]})
      (select_frame "out" {[ 1 := "a_DEM.tif"; 2 := "b_DEM.tif" ]}
                    {[ 1 := "https://host/day"; 2 := "https://host/day" ]}
                    2 5 true true)
      ([], [])
    = Ret (allFilesToFetch, allUrlsToFetch)
    /\ allFilesToFetch
       = concat ((fun frame =>
                    paths_of_frame true true "out"
                      (default "" (({[ 1 := "a_DEM.tif"; 2 := "b_DEM.tif" ]}
                                    : gmap Z string) !! frame)))
                 <$> frames_to_fetch {[ 1 := "a_DEM.tif"; 2 := "b_DEM.tif" ]}
                                     2 5)
    /\ allUrlsToFetch
       = concat ((fun frame =>
                    paths_of_frame true true
                      (default "" (({[ 1 := "https://host/day";
                                       2 := "https://host/day" ]}
                                    : gmap Z string) !! frame))
                      (default "" (({[ 1 := "a_DEM.tif"; 2 := "b_DEM.tif" ]}
                                    : gmap Z string) !! frame)))
                 <$> frames_to_fetch {[ 1 := "a_DEM.tif"; 2 := "b_DEM.tif" ]}
                                     2 5)
    /\ length allFilesToFetch = length allUrlsToFetch.
Proof.
  apply doFetch_collects_the_files_of_the_frame_range. by vm_compute.
Defined.

(** *** All frames *)

Lemma frame_bounds_from (frames : list Z) :
  forall firstFrame lastFrame : Z,
    let bounds :=
      foldl (fun '(firstFrame, lastFrame) frameNumber =>
               (if frameNumber <? firstFrame then frameNumber else firstFrame,
                if lastFrame <? frameNumber then frameNumber else lastFrame))
            (firstFrame, lastFrame) frames in
    bounds.1 <= firstFrame /\ lastFrame <= bounds.2
    /\ forall frame, frame ∈ frames -> bounds.1 <= frame <= bounds.2.
Proof.
  induction frames as [|f frames IH]; intros firstFrame lastFrame; cbn zeta.
  - cbn. split; [lia|]. split; [lia|]. by intros frame ?%elem_of_nil.
  - cbn [foldl].
    specialize (IH (if f <? firstFrame then f else firstFrame)
                   (if lastFrame <? f then f else lastFrame)).
    cbn zeta in IH. destruct IH as (Hlo & Hhi & Hall).
    destruct (Z.ltb_spec f firstFrame), (Z.ltb_spec lastFrame f);
      (split; [lia|]; split; [lia|];
       intros frame [->|Hin]%elem_of_cons; [lia | by apply Hall]).
Qed.

(** X22.  With the all-frames option the range [doFetch] sets takes in
    every frame of the index: the bounds it computes bracket each frame,
    the first is at most 99999999 and the last at least 0, and the frames
    collected between them are all the frames of the index.  For an empty
    index the bounds are 99999999 and 0. *)
Theorem all_frames_range_takes_in_every_frame (frameDict : gmap Z string) :
  let '(firstFrame, lastFrame) := frame_bounds (sorted_keys frameDict) in
  firstFrame <= getLargestFrame /\ getSmallestFrame <= lastFrame
  /\ (forall frame, is_Some (frameDict !! frame) ->
        firstFrame <= frame <= lastFrame)
  /\ frames_to_fetch frameDict firstFrame lastFrame = sorted_keys frameDict
  /\ (frameDict = ∅ ->
      firstFrame = getLargestFrame /\ lastFrame = getSmallestFrame).
Proof.
  pose proof (frame_bounds_from (sorted_keys frameDict)
                getLargestFrame getSmallestFrame) as Hb.
  cbn zeta in Hb. fold (frame_bounds (sorted_keys frameDict)) in Hb.
  destruct (frame_bounds (sorted_keys frameDict)) as [firstFrame lastFrame]
    eqn:Hbounds.
  cbn [fst snd] in Hb. destruct Hb as (Hlo & Hhi & Hall).
  split; [done|]. split; [done|]. split; [|split].
  - intros frame Hf. by apply Hall, sorted_keys_elem.
  - unfold frames_to_fetch. clear Hbounds. revert Hall.
    generalize (sorted_keys frameDict) as ks.
    induction ks as [|k ks IH]; intros Hall; [done|].
    rewrite filter_cons, decide_True by (apply Hall; by left).
    f_equal. apply IH. intros frame Hin. apply Hall. by right.
  - intros ->. unfold frame_bounds, sorted_keys in Hbounds.
    rewrite map_to_list_empty in Hbounds. cbn in Hbounds.
    by injection Hbounds as <- <-.
Qed.

(** ** [doFetch] and the attempts of [main] *)

Section FetchFacts.

Context (listDay :
           bool -> Z -> string ->
           stpy (Options * FS) (gmap Z string * gmap Z string)).
Context (curl : list string -> FS -> FS).
Context (gdalinfo_ok : string -> bool).
Context (latitude_in_text : string -> option Q).
Context (hasValidChkSum isValidTfw : string -> FS -> bool).
Context (home : string).

Local Abbreviation doFetch :=
  (Fetch.doFetch listDay curl gdalinfo_ok latitude_in_text hasValidChkSum
                 isValidTfw home).
Local Abbreviation main :=
  (Fetch.main listDay curl gdalinfo_ok latitude_in_text hasValidChkSum
              isValidTfw home).
Local Abbreviation authenticated :=
  (fun fs : FS => path_exists (home +:+ "/.netrc") fs
                  && path_exists (home +:+ "/.urs_cookies") fs).

Lemma doFetch_not_authenticated (outputFolder : string) (o : Options)
  (fs : FS) :
  authenticated fs = false ->
  doFetch outputFolder (o, fs) = ((o, fs), Ret (-1)).
Proof.
  intros Hauth. unfold Fetch.doFetch.
  rewrite st_bind_run. unfold on_fs at 1, st_gets at 1.
  by rewrite Hauth.
Qed.

(** The first cycle decides when it reports no failure, or the value the
    loop variable starts from. *)
Lemma main_first_cycle (outputFolder : string) (w w' : Options * FS)
  (numFailed : Z) :
  doFetch outputFolder w = (w', Ret numFailed) ->
  numFailed = 0 \/ numFailed = -1 ->
  main outputFolder w = (w', Ret numFailed).
Proof.
  intros Hcycle Hn. unfold Fetch.main, Retry.main.
  cbn [Retry.main_attempts].
  rewrite st_bind_run, Hcycle. by destruct Hn as [-> | ->].
Qed.

Lemma doFetch_skipping (outputFolder : string) (o : Options) (fs : FS)
  (w' : Options * FS) (numFailed : Z) :
  authenticated fs = true ->
  doFetch outputFolder (o, fs) = (w', Ret numFailed) ->
  skipValidate w'.1 = true ->
  numFailed = 0.
Proof.
  intros Hauth. unfold Fetch.doFetch.
  rewrite st_bind_run. unfold on_fs at 1, st_gets at 1. rewrite Hauth.
  cbn [negb]. rewrite st_bind_run. unfold st_gets at 1. cbn [fst].
  rewrite st_bind_run.
  destruct (doFetch_readIndex listDay outputFolder (o, fs))
    as [[o1 fs1] [[frameDict urlDict]|e]]; [|done].
  destruct (frame_bounds (sorted_keys frameDict)) as [firstFrame lastFrame].
  rewrite st_bind_run. unfold st_gets at 1. cbn [fst].
  rewrite st_bind_run.
  set (o2 := if allFrames o1 then set_frame_range firstFrame lastFrame o1
             else o1).
  assert (Hset :
    (if allFrames o1
     then st_modify (prod_map (set_frame_range firstFrame lastFrame) id)
     else mret tt) (o1, fs1) = ((o2, fs1), Ret tt)).
  { unfold o2. by destruct (allFrames o1). }
  rewrite Hset. rewrite st_bind_run. unfold st_gets at 1. cbn [fst].
  rewrite st_bind_run. unfold st_lift at 1.
  destruct (py_for _ _ _) as [lists|e]; [|done].
  destruct (limit_files (maxNumToFetch o2) lists)
    as [allFilesToFetch allUrlsToFetch].
  rewrite st_bind_run. unfold on_fs at 1.
  destruct (fetchFilesInBatches _ _ _ _ _ fs1) as [fs2 [issued|e]]; [|done].
  unfold on_fs.
  destruct (validate_all _ _ _ _ _ _ _ _ _ fs2) as [fs3 r] eqn:Hvalidate.
  intros [= <- ->]. cbn [fst]. intros Hskip. rewrite Hskip in Hvalidate.
  unfold validate_all in Hvalidate. rewrite st_bind_run in Hvalidate.
  rewrite validate_all_skips in Hvalidate. by injection Hvalidate as _ <-.
Qed.

End FetchFacts.

(** X23.  Without both authentication files in the home directory,
    [doFetch] returns -1 at once; the loop of [main] then stops after
    this one cycle, -1 being the value it compares the first count with,
    and returns -1.  No file and no option is changed. *)
Theorem missing_authentication_ends_main_after_one_cycle
  (listDay : bool -> Z -> string ->
             stpy (Options * FS) (gmap Z string * gmap Z string))
  (curl : list string -> FS -> FS)
  (gdalinfo_ok : string -> bool) (latitude_in_text : string -> option Q)
  (hasValidChkSum isValidTfw : string -> FS -> bool)
  (home outputFolder : string) (o : Options) (fs : FS) :
  path_exists (home +:+ "/.netrc") fs
  && path_exists (home +:+ "/.urs_cookies") fs = false ->
  Fetch.doFetch listDay curl gdalinfo_ok latitude_in_text hasValidChkSum
                isValidTfw home outputFolder (o, fs)
  = ((o, fs), Ret (-1))
  /\ Fetch.main listDay curl gdalinfo_ok latitude_in_text hasValidChkSum
                isValidTfw home outputFolder (o, fs)
     = ((o, fs), Ret (-1)).
Proof.
  intros Hauth.
  pose proof (doFetch_not_authenticated listDay curl gdalinfo_ok
                latitude_in_text hasValidChkSum isValidTfw home
                outputFolder o fs Hauth) as Hcycle.
  split; [done|]. apply main_first_cycle; [done | by right].
Qed.

(** The cookie file is there, the [.netrc] file is not. *)
Lemma missing_authentication_ends_main_after_one_cycle_witness :
  let o := MkOptions 2009 10 16 "" "AN" "image" 39 39 (-1)
                     false false false false false in
  let fs : FS := {[ "/home/u/.urs_cookies" := "cookie" ]} in
  Fetch.main (fun _ _ _ => st_raise IOError) (fun _ fs => fs)
             (fun _ => true) (fun _ => None) (fun _ _ => true)
             (fun _ _ => true) "/home/u" "out" (o, fs)
  = ((o, fs), Ret (-1)).
Proof.
  cbn zeta.
  apply missing_authentication_ends_main_after_one_cycle.
  vm_compute. reflexivity.
Defined.

(** X24.  With validation skipped, a cycle of [doFetch] that gets past
    the authentication test and returns reports no failure, whatever was
    fetched, and [main] returns 0 after this one cycle. *)
Theorem skipped_validation_always_reports_success
  (listDay : bool -> Z -> string ->
             stpy (Options * FS) (gmap Z string * gmap Z string))
  (curl : list string -> FS -> FS)
  (gdalinfo_ok : string -> bool) (latitude_in_text : string -> option Q)
  (hasValidChkSum isValidTfw : string -> FS -> bool)
  (home outputFolder : string) (o : Options) (fs : FS)
  (w' : Options * FS) (numFailed : Z) :
  path_exists (home +:+ "/.netrc") fs
  && path_exists (home +:+ "/.urs_cookies") fs = true ->
  Fetch.doFetch listDay curl gdalinfo_ok latitude_in_text hasValidChkSum
                isValidTfw home outputFolder (o, fs)
  = (w', Ret numFailed) ->
  skipValidate w'.1 = true ->
  numFailed = 0
  /\ Fetch.main listDay curl gdalinfo_ok latitude_in_text hasValidChkSum
                isValidTfw home outputFolder (o, fs)
     = (w', Ret 0).
Proof.
  intros Hauth Hcycle Hskip.
  assert (numFailed = 0) as -> by by eapply doFetch_skipping.
  split; [done|]. apply main_first_cycle; [done | by left].
Qed.

(** One frame listed, nothing downloaded, validation skipped. *)
Lemma skipped_validation_always_reports_success_witness :
  let listDay (isSouth : bool) (dayVal : Z) (indexPath : string)
      : stpy (Options * FS) (gmap Z string * gmap Z string) :=
    mret ({[ 39 := "2009_10_16_00039.JPG" ]}, {[ 39 := "https://host/day" ]}) in
  let o := MkOptions 2009 10 16 "" "AN" "image" 39 39 (-1)
                     false false true false false in
  let fs : FS := {[ "/home/u/.netrc" := "login";
                    "/home/u/.urs_cookies" := "cookie" ]} in
  (Fetch.main listDay (fun _ fs => fs) (fun _ => true) (fun _ => None)
              (fun _ _ => true) (fun _ _ => true) "/home/u" "out" (o, fs)).2
  = Ret 0.
Proof.
  cbn zeta.
  set (listDay := fun (_ : bool) (_ : Z) (_ : string) =>
         (mret ({[ 39 := "2009_10_16_00039.JPG" ]},
                {[ 39 := "https://host/day" ]})
          : stpy (Options * FS) (gmap Z string * gmap Z string))).
  set (o := MkOptions 2009 10 16 "" "AN" "image" 39 39 (-1)
                      false false true false false).
  set (fs := ({[ "/home/u/.netrc" := "login";
                 "/home/u/.urs_cookies" := "cookie" ]} : FS)).
  set (w' := (Fetch.doFetch listDay (fun _ fs => fs) (fun _ => true)
                (fun _ => None) (fun _ _ => true) (fun _ _ => true)
                "/home/u" "out" (o, fs)).1).
  assert (Hcycle :
    Fetch.doFetch listDay (fun _ fs => fs) (fun _ => true)
      (fun _ => None) (fun _ _ => true) (fun _ _ => true)
      "/home/u" "out" (o, fs) = (w', Ret 0)) by (vm_compute; reflexivity).
  destruct (skipped_validation_always_reports_success
              listDay (fun _ fs => fs) (fun _ => true) (fun _ => None)
              (fun _ _ => true) (fun _ _ => true) "/home/u" "out" o fs w' 0)
    as [_ Hmain].
  - vm_compute. reflexivity.
  - exact Hcycle.
  - vm_compute. reflexivity.
  - by rewrite Hmain.
Defined.

(** ** icebridge_common.py: the names of the sidecar files *)

Lemma str_drop_app (a b : string) : str_drop (String.length a) (a +:+ b) = b.
Proof. induction a as [|c a IH]; [by destruct b | exact IH]. Qed.

Lemma str_drop_app_le (n : nat) (a b : string) :
  (n <= String.length a)%nat -> str_drop n (a +:+ b) = str_drop n a +:+ b.
Proof.
  revert n. induction a as [|c a IH]; intros n Hn.
  - assert (n = 0%nat) as -> by (cbn in Hn; lia). by destruct b.
  - destruct n as [|n]; [done|]. cbn in Hn. rewrite str_app_cons.
    cbn [str_drop]. apply IH. lia.
Qed.

Lemma str_take_drop (n : nat) (s : string) : str_take n s +:+ str_drop n s = s.
Proof.
  revert n. induction s as [|c s IH]; intros [|n]; try done.
  cbn [str_take str_drop]. by rewrite str_app_cons, IH.
Qed.

(** [(a + b)[:-len(b)]], for a tail that is not empty. *)
Lemma str_slice_before_tail (a b : string) :
  b <> "" ->
  str_slice None (Some (- Z.of_nat (String.length b))) (a +:+ b) = a.
Proof.
  intros Hb. unfold str_slice. cbn [from_option]. rewrite str_length_app.
  assert (0 < String.length b)%nat by (destruct b; [done | cbn; lia]).
  unfold clamp_index.
  destruct (Z.ltb_spec (- Z.of_nat (String.length b)) 0); [|lia].
  replace (Z.to_nat _) with (String.length a) by lia.
  apply str_take_app.
Qed.

(** [(a + b)[-len(b):]], for a tail that is not empty. *)
Lemma str_slice_tail (a b : string) :
  b <> "" ->
  str_slice (Some (- Z.of_nat (String.length b))) None (a +:+ b) = b.
Proof.
  intros Hb. unfold str_slice. cbn [from_option]. rewrite str_length_app.
  assert (0 < String.length b)%nat by (destruct b; [done | cbn; lia]).
  unfold clamp_index.
  destruct (Z.ltb_spec (- Z.of_nat (String.length b)) 0); [|lia].
  replace (Z.to_nat (Z.max _ 0)) with (String.length a) by lia.
  rewrite str_drop_app. apply str_take_all. lia.
Qed.

(** [(a + m + e)[-len(m + e):-len(e)]], for a tail that is not empty. *)
Lemma str_slice_before_ext (a m e : string) :
  e <> "" ->
  str_slice (Some (- Z.of_nat (String.length (m +:+ e))))
            (Some (- Z.of_nat (String.length e))) (a +:+ m +:+ e)
  = m.
Proof.
  intros He. unfold str_slice. cbn [from_option].
  rewrite !str_length_app.
  assert (0 < String.length e)%nat by (destruct e; [done | cbn; lia]).
  unfold clamp_index.
  destruct (Z.ltb_spec (- Z.of_nat (String.length m + String.length e)) 0);
    [|lia].
  destruct (Z.ltb_spec (- Z.of_nat (String.length e)) 0); [|lia].
  replace (Z.to_nat (Z.max _ 0)) with (String.length a) by lia.
  rewrite str_drop_app.
  replace (Z.to_nat _) with (String.length m) by lia.
  apply str_take_app.
Qed.

Lemma isDEM_stem (filename : string) :
  isDEM filename = true <-> exists stem, filename = stem +:+ "_DEM.tif".
Proof.
  unfold isDEM. split.
  - intros [Hlen Htail%String.eqb_eq]%andb_true_iff.
    apply Nat.leb_le in Hlen.
    exists (str_take (String.length filename - 8) filename).
    assert (Hdrop : str_slice (Some (-8)) None filename
                    = str_drop (String.length filename - 8) filename).
    { unfold str_slice. cbn [from_option]. unfold clamp_index.
      change (-8 <? 0) with true. cbn match.
      replace (Z.to_nat (Z.max _ 0)) with (String.length filename - 8)%nat
        by lia.
      apply str_take_all. rewrite str_drop_length. lia. }
    rewrite <- Htail, Hdrop. by rewrite str_take_drop.
  - intros [stem ->]. rewrite str_length_app.
    apply andb_true_iff. split; [apply Nat.leb_le; cbn; lia|].
    apply String.eqb_eq. by apply (str_slice_tail stem "_DEM.tif").
Qed.

Lemma xmlFile_DEM (stem : string) (c : ascii) (extension : string) :
  String.length extension = 4%nat ->
  xmlFile (stem +:+ String c ("DEM" +:+ extension)) = stem +:+ ".xml".
Proof.
  intros Hext. unfold xmlFile.
  assert (Hne : extension <> "") by (by destruct extension).
  assert (Hlen : String.length (String c ("DEM" +:+ extension)) = 8%nat).
  { cbn [String.length]. by rewrite str_length_app, Hext. }
  assert (Hmid : str_slice (Some (-7)) (Some (-4))
                   (stem +:+ String c ("DEM" +:+ extension)) = "DEM").
  { pose proof (str_slice_before_ext (stem +:+ String c "") "DEM" extension Hne)
      as H.
    rewrite str_length_app, Hext in H. cbn in H.
    by rewrite str_app_assoc in H. }
  rewrite Hmid, str_length_app, Hlen.
  pose proof (str_slice_before_tail stem (String c ("DEM" +:+ extension)))
    as Hstem.
  rewrite Hlen in Hstem. change (- Z.of_nat 8) with (-8) in Hstem.
  replace (8 <=? String.length stem + 8)%nat with true
    by (symmetry; apply Nat.leb_le; lia).
  cbn [andb String.eqb Ascii.eqb Bool.eqb]. by rewrite Hstem.
Qed.

Lemma tfwFile_tif (stem : string) (extension : string) :
  String.length extension = 4%nat ->
  tfwFile (stem +:+ extension) = stem +:+ ".tfw".
Proof.
  intros Hext. unfold tfwFile.
  pose proof (str_slice_before_tail stem extension) as H.
  rewrite Hext in H. change (- Z.of_nat 4) with (-4) in H.
  rewrite H; [done|]. by destruct extension.
Qed.

(** X25.  The names of the three files of a DEM.  A name is a DEM name
    exactly when it ends in [_DEM.tif]; for such a name the world file
    [tfwFile] names ends in [_DEM.tfw] instead, and [xmlFile] gives the
    raster and its world file one and the same sidecar, the name without
    its last eight characters followed by [.xml]. *)
Theorem dem_raster_and_world_file_share_one_xml_file (filename : string) :
  (isDEM filename = true <-> exists stem, filename = stem +:+ "_DEM.tif")
  /\ forall stem : string,
       tfwFile (stem +:+ "_DEM.tif") = stem +:+ "_DEM.tfw"
       /\ xmlFile (stem +:+ "_DEM.tif") = stem +:+ ".xml"
       /\ xmlFile (tfwFile (stem +:+ "_DEM.tif"))
          = xmlFile (stem +:+ "_DEM.tif").
Proof.
  split; [apply isDEM_stem|]. intros stem.
  assert (Htfw : tfwFile (stem +:+ "_DEM.tif") = stem +:+ "_DEM.tfw").
  { pose proof (tfwFile_tif (stem +:+ "_DEM") ".tif" eq_refl) as H.
    by rewrite !str_app_assoc in H. }
  pose proof (xmlFile_DEM stem "_" ".tif" eq_refl) as Hraster.
  pose proof (xmlFile_DEM stem "_" ".tfw" eq_refl) as Hworld.
  split; [done|]. split; [exact Hraster|]. rewrite Htfw.
  etrans; [exact Hworld | symmetry; exact Hraster].
Qed.

(** *** [xmlToImage] after [xmlFile] *)

Lemma rfind_from_app (c : ascii) (a b : string) (pos found : Z) :
  rfind_from c (a +:+ b) pos found
  = rfind_from c b (pos + Z.of_nat (String.length a)) (rfind_from c a pos found).
Proof.
  revert pos found. induction a as [|x a IH]; intros pos found.
  - rewrite str_app_nil_l. cbn. by rewrite Z.add_0_r.
  - rewrite str_app_cons. cbn [rfind_from String.length]. rewrite IH.
    f_equal. lia.
Qed.

Lemma rfind_from_bound (c : ascii) (s : string) (pos found : Z) :
  found < pos ->
  found <= rfind_from c s pos found < pos + Z.of_nat (String.length s).
Proof.
  revert pos found. induction s as [|x s IH]; intros pos found Hlt.
  - cbn. lia.
  - cbn [rfind_from String.length].
    destruct (Ascii.eqb x c).
    + specialize (IH (pos + 1) pos). lia.
    + specialize (IH (pos + 1) found). lia.
Qed.

Lemma fileExtension_xml (artifact : string) :
  str_exists (fun c => negb (Ascii.eqb c ".")) (basename artifact) = true ->
  fileExtension (artifact +:+ ".xml") = ".xml".
Proof.
  unfold basename, fileExtension, splitext, rfind. intros Hbase.
  rewrite !rfind_from_app. cbn [rfind_from String.length Ascii.eqb Bool.eqb].
  rewrite !Z.add_0_l.
  pose proof (rfind_from_bound "/" artifact 0 (-1) ltac:(lia)) as Hsep.
  set (sepIndex := rfind_from "/" artifact 0 (-1)) in *.
  set (len := Z.of_nat (String.length artifact)) in *.
  assert (Hslice :
    str_slice (Some (sepIndex + 1)) (Some len) (artifact +:+ ".xml")
    = str_slice (Some (sepIndex + 1)) None artifact).
  { unfold str_slice. cbn [from_option]. rewrite str_length_app.
    fold len. unfold clamp_index. change (String.length ".xml") with 4%nat.
    destruct (Z.ltb_spec (sepIndex + 1) 0); [lia|].
    destruct (Z.ltb_spec len 0); [lia|].
    rewrite !Z.min_l by lia.
    rewrite str_drop_app_le by lia.
    rewrite (str_take_all _ (str_drop _ artifact))
      by (rewrite str_drop_length; lia).
    replace (Z.to_nat (len - (sepIndex + 1)))
      with (String.length (str_drop (Z.to_nat (sepIndex + 1)) artifact))
      by (rewrite str_drop_length; lia).
    apply str_take_app. }
  rewrite Hslice, Hbase.
  replace (sepIndex <? len) with true by (symmetry; apply Z.ltb_lt; lia).
  cbn [andb snd].
  pose proof (str_slice_tail artifact ".xml" ltac:(done)) as Htail.
  unfold str_slice in *. cbn [from_option] in *.
  rewrite str_length_app in *. fold len.
  change (Z.of_nat (String.length artifact + String.length ".xml"))
    with (Z.of_nat (String.length artifact + 4)) in *.
  replace (clamp_index (Z.of_nat (String.length artifact + 4)) len)
    with (clamp_index (Z.of_nat (String.length artifact + 4))
            (- Z.of_nat (String.length ".xml")));
    [exact Htail|].
  unfold clamp_index.
  change (- Z.of_nat (String.length ".xml") <? 0) with true. cbn match.
  change (Z.of_nat (String.length ".xml")) with 4.
  destruct (Z.ltb_spec len 0); lia.
Qed.

(** X26.  [xmlToImage] undoes [xmlFile] on every name that is not taken
    for a DEM, provided the last component of the name has a character
    other than a dot: the sidecar of such a file leads back to the file
    itself. *)
Theorem xmlToImage_undoes_xmlFile (filename : string) :
  str_exists (fun c => negb (Ascii.eqb c ".")) (basename filename) = true ->
  (8 <=? String.length filename)%nat
  && String.eqb (str_slice (Some (-7)) (Some (-4)) filename) "DEM" = false ->
  xmlToImage (xmlFile filename) = Ret filename.
Proof.
  intros Hbase Hplain. unfold xmlFile. rewrite Hplain.
  by apply xmlToImage_of_suffix, fileExtension_xml.
Qed.

Lemma xmlToImage_undoes_xmlFile_witness :
  xmlToImage (xmlFile "out/DMS_1000109_03939_20091016_23310503_V02.tif")
  = Ret "out/DMS_1000109_03939_20091016_23310503_V02.tif".
Proof.
  apply xmlToImage_undoes_xmlFile; vm_compute; reflexivity.
Defined.

(** ** icebridge_common.py: the frame number in a file name *)

Lemma of_uint_acc_bound (d : Decimal.uint) (acc : positive) :
  Z.pos (Pos.of_uint_acc d acc)
  < (Z.pos acc + 1) * 10 ^ Z.of_nat (Decimal.nb_digits d).
Proof.
  revert acc.
  induction d as [|d IH|d IH|d IH|d IH|d IH|d IH|d IH|d IH|d IH|d IH];
    intros acc; cbn [Pos.of_uint_acc Decimal.nb_digits];
    [rewrite Z.pow_0_r; lia|..];
    rewrite Nat2Z.inj_succ, Z.pow_succ_r by lia;
    match goal with
    | |- Z.pos (Pos.of_uint_acc _ ?a) < _ => specialize (IH a)
    end;
    assert (0 < 10 ^ Z.of_nat (Decimal.nb_digits d))
      by (apply Z.pow_pos_nonneg; lia);
    nia.
Qed.

Lemma of_uint_bound (d : Decimal.uint) :
  0 <= Z.of_uint d < 10 ^ Z.of_nat (Decimal.nb_digits d).
Proof.
  unfold Z.of_uint. split; [lia|].
  induction d as [|d IH|d IH|d IH|d IH|d IH|d IH|d IH|d IH|d IH|d IH];
    cbn [Pos.of_uint Decimal.nb_digits];
    [rewrite Z.pow_0_r; lia|..];
    rewrite Nat2Z.inj_succ, Z.pow_succ_r by lia;
    assert (0 < 10 ^ Z.of_nat (Decimal.nb_digits d))
      by (apply Z.pow_pos_nonneg; lia);
    [lia|..];
    match goal with
    | |- Z.of_N (N.pos (Pos.of_uint_acc _ ?a)) < _ =>
        pose proof (of_uint_acc_bound d a)
    end;
    lia.
Qed.

Lemma uint_of_string_digits (s : string) (d : Decimal.uint) :
  NilEmpty.uint_of_string s = Some d ->
  Decimal.nb_digits d = String.length s.
Proof.
  revert d. induction s as [|c s IH]; intros d; cbn [NilEmpty.uint_of_string].
  - by intros [= <-].
  - destruct (NilEmpty.uint_of_string s) as [d'|]; [|by destruct c].
    intros H. apply uint_of_char_spec in H. cbn [String.length].
    rewrite <- (IH d' eq_refl).
    destruct H as [[_ ->]|[[_ ->]|[[_ ->]|[[_ ->]|[[_ ->]|[[_ ->]|[[_ ->]|
                  [[_ ->]|[[_ ->]|[_ ->]]]]]]]]]]; done.
Qed.

Lemma rstrip_length (s : string) :
  (String.length (rstrip s) <= String.length s)%nat.
Proof.
  induction s as [|c s IH]; [done|]. cbn [rstrip String.length].
  destruct (rstrip s) as [|x r].
  - destruct (is_space c); cbn; lia.
  - cbn [String.length] in *. lia.
Qed.

Lemma rstrip_keeps_first (c : ascii) (s : string) :
  is_space c = false ->
  exists r, rstrip (String c s) = String c r
            /\ (String.length r <= String.length s)%nat.
Proof.
  intros Hc. cbn [rstrip]. pose proof (rstrip_length s) as Hlen.
  destruct (rstrip s) as [|x r].
  - rewrite Hc. exists "". split; [done|]. cbn. lia.
  - by exists (String x r).
Qed.

(** A string that is neither below a numeral nor above a numeral of
    nines, in the order of the dictionary, starts with a digit. *)
Lemma first_char_between (c : ascii) (s lo hi : string) :
  str_ltb (String c s) (String "0" lo) = false ->
  str_ltb (String "9" hi) (String c s) = false ->
  is_digit c = true.
Proof.
  unfold str_ltb. cbn [String.compare].
  destruct c as [[] [] [] [] [] [] [] []]; try reflexivity;
    intros H1 H2; vm_compute in H1; vm_compute in H2; discriminate.
Qed.

(** [int] of a string that starts with a digit. *)
Lemma py_int_digit_first (c : ascii) (s : string) :
  is_digit c = true ->
  match py_int (String c s) with
  | Ret n => 0 <= n < 10 ^ Z.of_nat (String.length (String c s))
  | Raise e => e = ValueError
  end.
Proof.
  intros Hc. unfold py_int, strip.
  assert (Hspace : is_space c = false)
    by (by destruct c as [[] [] [] [] [] [] [] []]).
  rewrite (lstrip_no_space (String c s)) by done.
  destruct (rstrip_keeps_first c s Hspace) as (r & -> & Hlen).
  assert (match c with
          | "+"%char => option_map Decimal.Pos (NilZero.uint_of_string r)
          | _ => NilZero.int_of_string (String c r)
          end = option_map Decimal.Pos (NilEmpty.uint_of_string (String c r)))
    as ->.
  { by destruct c as [[] [] [] [] [] [] [] []]. }
  destruct (NilEmpty.uint_of_string (String c r)) as [d|] eqn:Hd; [|done].
  cbn [option_map Z.of_int].
  pose proof (of_uint_bound d) as Hbound.
  rewrite (uint_of_string_digits _ _ Hd) in Hbound.
  split; [lia|]. eapply Z.lt_le_trans; [apply Hbound|].
  apply Z.pow_le_mono_r; [lia|]. cbn [String.length]. lia.
Qed.

(** X27.  [getFrameNumberFromFilename] returns a number from 0 to 99999
    or raises, and what it raises is either the exception of [int] (on a
    part of five characters between ['00000'] and ['99999'] that is not a
    numeral) or 'Cannot parse the frame number from' followed by the
    name; it never returns a negative number or one of more than five
    digits. *)
Theorem getFrameNumberFromFilename_range (f : string) :
  match getFrameNumberFromFilename f with
  | Ret frame => 0 <= frame <= 99999
  | Raise e =>
      e = ValueError
      \/ e = Exception ("Cannot parse the frame number from " +:+ f)
  end.
Proof.
  unfold getFrameNumberFromFilename.
  generalize (split_on "_" (replace_char "." "_" (basename f))) as parts.
  induction parts as [|part parts IH]; cbn [frame_number_among]; [by right|].
  destruct (Nat.eqb_spec (String.length part) 5) as [Hlen|_]; [|exact IH].
  cbn [negb].
  destruct (str_ltb part "00000" || str_ltb "99999" part) eqn:Hout;
    [exact IH|].
  apply orb_false_elim in Hout as [Hlo Hhi].
  destruct part as [|c s]; [done|].
  pose proof (py_int_digit_first c s
                (first_char_between c s "0000" "9999" Hlo Hhi)) as Hint.
  rewrite Hlen in Hint.
  destruct (py_int (String c s)) as [frame|e]; [|by left].
  change (10 ^ Z.of_nat 5) with 100000 in Hint. lia.
Qed.

(** ** icebridge_common.py: the time stamps in a file name *)

(** What the loop of [parseTimeStamps] holds in its two variables: each
    is still empty or a part of the name, the date of eight characters,
    the time of six or eight, both starting with a digit. *)
Lemma time_stamp_part_invariant (parts : list string) (part : string)
  (acc : string * string) :
  let holds (acc : string * string) :=
    (acc.1 = ""
     \/ acc.1 ∈ parts /\ String.length acc.1 = 8%nat
        /\ str_exists is_digit (str_take 1 acc.1) = true)
    /\ (acc.2 = ""
        \/ acc.2 ∈ parts
           /\ (String.length acc.2 = 6%nat \/ String.length acc.2 = 8%nat)
           /\ str_exists is_digit (str_take 1 acc.2) = true) in
  part ∈ parts -> holds acc -> holds (time_stamp_part part acc).
Proof.
  cbn zeta. destruct acc as [imageDateString imageTimeString].
  intros Hpart [Hdate Htime]. unfold time_stamp_part.
  destruct (Nat.eqb_spec (String.length part) 6) as [Hsix|Hnot6];
    destruct (Nat.eqb_spec (String.length part) 8) as [Height|Hnot8];
    cbn [negb andb]; try done; try lia.
  - destruct (str_ltb part "000000" || str_ltb "999999" part) eqn:Hout;
      [done|].
    apply orb_false_elim in Hout as [Hlo Hhi].
    destruct part as [|c s]; [done|].
    pose proof (first_char_between c s "00000" "99999" Hlo Hhi) as Hc.
    destruct (String.eqb imageDateString ""); cbn [andb];
      destruct (String.eqb imageTimeString ""); try done;
      (split; [done|]; right; cbn [fst snd str_take str_exists];
       rewrite Hc; by auto).
  - destruct (str_ltb part "00000000" || str_ltb "99999999" part) eqn:Hout;
      [done|].
    apply orb_false_elim in Hout as [Hlo Hhi].
    destruct part as [|c s]; [done|].
    pose proof (first_char_between c s "0000000" "9999999" Hlo Hhi) as Hc.
    destruct (String.eqb imageDateString ""); cbn [andb].
    + split; [|done]. right. cbn [fst snd str_take str_exists].
      rewrite Hc. by auto.
    + destruct (String.eqb imageTimeString ""); [|done].
      split; [done|]. right. cbn [fst snd str_take str_exists].
      rewrite Hc. by auto.
Qed.

(** X28.  [parseTimeStamps] returns the empty list or a list of exactly
    two parts of the file name, first a date of eight characters, then a
    time of six or eight characters, each starting with a digit; it never
    returns a list of one element. *)
Theorem parseTimeStamps_gives_nothing_or_a_date_and_a_time (fileName : string) :
  let parts :=
    split_on "_" (replace_char "-" "_"
                    (replace_char "." "_" (basename fileName))) in
  parseTimeStamps fileName = []
  \/ exists imageDateString imageTimeString : string,
       parseTimeStamps fileName = [imageDateString; imageTimeString]
       /\ imageDateString ∈ parts /\ imageTimeString ∈ parts
       /\ String.length imageDateString = 8%nat
       /\ (String.length imageTimeString = 6%nat
           \/ String.length imageTimeString = 8%nat)
       /\ str_exists is_digit (str_take 1 imageDateString) = true
       /\ str_exists is_digit (str_take 1 imageTimeString) = true.
Proof.
  cbn zeta. unfold parseTimeStamps.
  set (parts := split_on "_" _).
  assert (Hinv : forall (seen : list string) (acc : string * string),
    (forall part, part ∈ seen -> part ∈ parts) ->
    ((acc.1 = ""
      \/ acc.1 ∈ parts /\ String.length acc.1 = 8%nat
         /\ str_exists is_digit (str_take 1 acc.1) = true)
     /\ (acc.2 = ""
         \/ acc.2 ∈ parts
            /\ (String.length acc.2 = 6%nat \/ String.length acc.2 = 8%nat)
            /\ str_exists is_digit (str_take 1 acc.2) = true)) ->
    let final := foldl (fun acc part => time_stamp_part part acc) acc seen in
    (final.1 = ""
     \/ final.1 ∈ parts /\ String.length final.1 = 8%nat
        /\ str_exists is_digit (str_take 1 final.1) = true)
    /\ (final.2 = ""
        \/ final.2 ∈ parts
           /\ (String.length final.2 = 6%nat \/ String.length final.2 = 8%nat)
           /\ str_exists is_digit (str_take 1 final.2) = true)).
  { induction seen as [|part seen IH]; intros acc Hseen Hacc; [done|].
    cbn [foldl]. apply IH; [intros p Hp; apply Hseen; by right|].
    apply (time_stamp_part_invariant parts part acc); [|done].
    apply Hseen. by left. }
  specialize (Hinv parts ("", "") (fun _ H => H) ltac:(by split; left)).
  cbn zeta in Hinv.
  destruct (foldl _ _ parts) as [imageDateString imageTimeString].
  cbn [fst snd] in Hinv. destruct Hinv as [Hdate Htime].
  destruct (String.eqb_spec imageDateString "") as [|Hd]; [by left|].
  destruct (String.eqb_spec imageTimeString "") as [|Ht]; [by left|].
  destruct Hdate as [|(? & ? & ?)]; [done|].
  destruct Htime as [|(? & ? & ?)]; [done|].
  right. by exists imageDateString, imageTimeString.
Qed.

(** ** The hemisphere test and the spacing analysis on floats *)

(** X1.  A latitude that is a number other than zero is good for exactly
    one of the two hemisphere settings; zero, of either sign, and a
    latitude that is not a number are good for neither. *)
Theorem hasGoodLat_exactly_one_hemisphere (latitude : spec_float) :
  (Binary64.hasGoodLat latitude true
   = negb (Binary64.hasGoodLat latitude false)
   <-> Binary64.is_nan latitude = false
       /\ Binary64.eqb latitude Binary64.zero = false)
  /\ (Binary64.is_nan latitude = true
      \/ Binary64.eqb latitude Binary64.zero = true ->
      Binary64.hasGoodLat latitude true = false
      /\ Binary64.hasGoodLat latitude false = false).
Proof.
  destruct latitude as [s|s| |s m e]; try destruct s; cbn;
    (split; [split|]); try done; try tauto;
    try (by intros [? ?]); try (by intros [?|?]).
Qed.

(** ** [getImageSpacing]: what the returned interval satisfies *)

(** X2.  The interval [getImageSpacing] returns is at least one and less
    than the number of images, and the pass at that interval divides by
    no zero: every earlier frame of a pair has a non-zero area and some
    pair overlaps. *)
Theorem getImageSpacing_interval_in_bounds
  (orthos : list (Binary64.bbox * Z)) (interval : nat) (breaks : list Z) :
  Binary64.getImageSpacing orthos = Some (Ret (interval, breaks)) ->
  (1 <= interval < Binary64.numOrthos orthos)%nat
  /\ Binary64.pass_defined orthos interval.
Proof.
  intros (k & [Hk Hbelow] & Hdef & _ & ->)%b64_getImageSpacing_returned.
  destruct (Binary64.ltb _ Binary64.MIN_RATIO); cbn [andb];
    [|by split; [lia|]].
  destruct (Nat.ltb_spec 1 k); [|by split; [lia|]].
  split; [lia|]. apply Hbelow. lia.
Qed.

Lemma getImageSpacing_interval_in_bounds_witness :
  let sq (x : Z) (f : Z) := (Binary64.box_of_Z x (x + 10) 0 10, f) in
  let run := [sq 0 0; sq 1 1; sq 2 2; sq 30 3; sq 31 4] in
  (1 <= 2 < Binary64.numOrthos run)%nat /\ Binary64.pass_defined run 2.
Proof.
  cbn zeta.
  apply (getImageSpacing_interval_in_bounds _ 2%nat [2]).
  by vm_compute.
Defined.

(** X3.  The lower threshold is honoured by what is returned: the mean
    ratio of an interval above one is not below [MIN_RATIO].  The upper
    threshold need not be: the mean ratio at the returned interval
    exceeds [MAX_RATIO] exactly after a back-off, that is when the next
    interval was evaluated and its mean ratio was below [MIN_RATIO]. *)
Theorem getImageSpacing_thresholds
  (orthos : list (Binary64.bbox * Z)) (interval : nat) (breaks : list Z) :
  Binary64.getImageSpacing orthos = Some (Ret (interval, breaks)) ->
  ((1 < interval)%nat ->
   Binary64.ltb (Binary64.mean_overlap_ratio orthos interval)
                Binary64.MIN_RATIO = false)
  /\ (Binary64.ltb Binary64.MAX_RATIO
                   (Binary64.mean_overlap_ratio orthos interval) = true ->
      Binary64.pass_defined orthos (S interval)
      /\ Binary64.ltb (Binary64.mean_overlap_ratio orthos (S interval))
                      Binary64.MIN_RATIO = true).
Proof.
  intros (k & [Hk Hbelow] & Hdef & Hmax & ->)%b64_getImageSpacing_returned.
  destruct (Binary64.ltb _ Binary64.MIN_RATIO) eqn:Hmin; cbn [andb].
  - destruct (Nat.ltb_spec 1 k) as [Hgt|Hle].
    + destruct (Hbelow (k - 1)%nat) as [_ Hprev]; [lia|].
      replace (S (k - 1)) with k by lia. split; [|done].
      intros _. by apply b64_above_max_not_below_min.
    + split; [lia|]. intros Habove. congruence.
  - split; [done|]. intros Habove. congruence.
Qed.

(** Four frames, each shifted by a fifth of its width: interval 2 is
    returned, with a mean ratio of 0.6. *)
Lemma getImageSpacing_thresholds_witness :
  let box (x0 x1 : Z) := Binary64.box_of_Z x0 x1 0 10 in
  let run := [(box 0 10, 0); (box 2 12, 1); (box 4 14, 2); (box 6 16, 3)] in
  ((1 < 2)%nat ->
   Binary64.ltb (Binary64.mean_overlap_ratio run 2) Binary64.MIN_RATIO
   = false)
  /\ (Binary64.ltb Binary64.MAX_RATIO (Binary64.mean_overlap_ratio run 2)
      = true ->
      Binary64.pass_defined run 3
      /\ Binary64.ltb (Binary64.mean_overlap_ratio run 3) Binary64.MIN_RATIO
         = true).
Proof.
  cbn zeta.
  apply (getImageSpacing_thresholds _ 2%nat []).
  by vm_compute.
Defined.

(** X6.  [getImageSpacing] gives up with the too-few-images exception
    exactly when every interval below the number of images is evaluated
    and has a mean ratio above [MAX_RATIO]; with no image or a single one
    it always does. *)
Theorem getImageSpacing_too_few_images (orthos : list (Binary64.bbox * Z)) :
  Binary64.getImageSpacing orthos = Some (Raise too_few_images)
  <-> forall k, (1 <= k < Binary64.numOrthos orthos)%nat ->
        Binary64.pass_defined orthos k
        /\ Binary64.ltb Binary64.MAX_RATIO
                        (Binary64.mean_overlap_ratio orthos k) = true.
Proof.
  assert (Hout : forall r : option (py (nat * spec_float * list Z)),
            match r with
            | None => None
            | Some (Raise e) => Some (Raise e)
            | Some (Ret (interval, meanRatio, breaks)) =>
                Some (Ret (if Binary64.ltb meanRatio Binary64.MIN_RATIO
                              && (1 <? interval)%nat
                           then (interval - 1)%nat else interval, breaks))
            end = Some (Raise too_few_images)
            <-> r = Some (Raise too_few_images)).
  { intros [[[[k mk] bk]|e]|]; split; try done; by intros [= ->]. }
  unfold Binary64.getImageSpacing. rewrite Hout. clear Hout. split.
  - intros Hraise k. induction k as [k IH] using lt_wf_ind. intros Hk.
    assert (Hreach : Binary64.search_reaches orthos k).
    { split; [done|]. intros j Hj. apply IH; lia. }
    destruct (b64_getImageSpacing_arrives orthos k Hreach)
      as [breaks1 Harrive].
    rewrite Harrive in Hraise.
    destruct (b64_pass_defined_dec orthos k) as [Hdef|Hnot].
    + split; [done|].
      destruct (b64_spacing_pass_defined orthos k breaks1 Hdef)
        as [breaks' Hpass].
      rewrite Hpass in Hraise.
      destruct (Binary64.ltb Binary64.MAX_RATIO
                  (Binary64.mean_overlap_ratio orthos k)) eqn:Hcond;
        [done|].
      by rewrite b64_loop_stops in Hraise.
    + by rewrite b64_spacing_pass_not_defined in Hraise.
  - intros Hall.
    destruct (Nat.le_gt_cases (Binary64.numOrthos orthos) 1) as [Hfew|Hmore].
    { by rewrite b64_loop_too_few. }
    destruct (b64_getImageSpacing_arrives orthos
                (Binary64.numOrthos orthos - 1)) as [breaks1 ->].
    { split; [lia|]. intros j Hj. apply Hall. lia. }
    destruct (Hall (Binary64.numOrthos orthos - 1)%nat) as [Hdef Hmean];
      [lia|].
    destruct (b64_spacing_pass_defined orthos _ breaks1 Hdef)
      as [breaks' ->].
    replace (S (Binary64.numOrthos orthos)
             - (Binary64.numOrthos orthos - 1))%nat with 2%nat by lia.
    rewrite b64_loop_too_few; [done | done | lia].
Qed.

(** Three images of one and the same footprint: the mean ratio is 1 at
    both intervals, and the search gives up. *)
Lemma getImageSpacing_too_few_images_witness :
  let same (f : Z) := (Binary64.box_of_Z 0 10 0 10, f) in
  let run := [same 0; same 1; same 2] in
  Binary64.pass_defined run 2
  /\ Binary64.ltb Binary64.MAX_RATIO (Binary64.mean_overlap_ratio run 2)
     = true.
Proof.
  cbn zeta.
  apply (proj1 (getImageSpacing_too_few_images
                  [(Binary64.box_of_Z 0 10 0 10, 0);
                   (Binary64.box_of_Z 0 10 0 10, 1);
                   (Binary64.box_of_Z 0 10 0 10, 2)])).
  - by vm_compute.
  - cbn. lia.
Defined.
